(** * MediMindPlus compliance and security monitoring: a shallow embedding

    The development follows two source files:
    - [compliance/monitoring/compliance_monitor.py] (class [ComplianceMonitor]);
    - [compliance/security/tools/security-monitoring-implementation.py]
      (class [SecurityMonitor]).

    Python code that mutates the monitor object and may raise is written in a
    state-and-exception monad: a computation takes the object state and gives
    back either a value or a raised exception, together with the state as the
    mutations performed so far left it (a raise does not undo them).

    Times ([datetime]) are integers counting microseconds, the resolution of
    [datetime] and [timedelta]; [Dict[str, Any]] values are association lists.
    Ratios and risk scores, floats in the source, are kept as exact
    rationals: there is no nan, no infinity and no rounding here, and the
    statements about them say where that matters. *)

From Stdlib Require Import ZArith QArith Qminmax List Bool Lia Lqa.
From stdpp Require Import base option list gmap strings.

Close Scope Q_scope.
Open Scope string_scope.
Open Scope list_scope.
Open Scope Z_scope.

(** ** Python values, exceptions and the monad *)

Inductive PyVal :=
| PyNone
| PyBool (b : bool)
| PyInt (z : Z)
| PyStr (s : string)
| PyStrList (l : list string).

(** [Dict[str, Any]], in insertion order. *)
Definition Dict := list (string * PyVal).

Inductive exn :=
| ValueError (msg : string)
| ZeroDivisionError
| PyError (cls msg : string).

(** [str(e)] *)
Definition str_exn (e : exn) : string :=
  match e with
  | ValueError msg => msg
  | ZeroDivisionError => "division by zero"
  | PyError _ msg => msg
  end.

Inductive Res (A : Type) :=
| Ok (a : A)
| Raise (e : exn).
Arguments Ok {A} a.
Arguments Raise {A} e.

Definition is_ok {A} (r : Res A) : bool :=
  match r with Ok _ => true | Raise _ => false end.

Definition M (St A : Type) : Type := St -> Res A * St.

Definition ret {St A} (a : A) : M St A := fun s => (Ok a, s).

Definition bind {St A B} (m : M St A) (k : A -> M St B) : M St B :=
  fun s => match m s with
           | (Ok a, s') => k a s'
           | (Raise e, s') => (Raise e, s')
           end.

Definition raise {St A} (e : exn) : M St A := fun s => (Raise e, s).

(** [try: m  except Exception as e: ...] with the handler left to the
    caller: the outcome of [m] is handed over as a value and nothing is
    raised. *)
Definition attempt {St A} (m : M St A) : M St (exn + A) :=
  fun s => match m s with
           | (Ok a, s') => (Ok (inr a), s')
           | (Raise e, s') => (Ok (inl e), s')
           end.

Definition get {St} : M St St := fun s => (Ok s, s).
Definition gets {St A} (f : St -> A) : M St A := fun s => (Ok (f s), s).
Definition modify {St} (f : St -> St) : M St unit := fun s => (Ok tt, f s).

Notation "x <- m ;; k" := (bind m (fun x => k))
  (at level 100, m at next level, right associativity).
Notation "m ;;; k" := (bind m (fun _ => k))
  (at level 100, right associativity).

(** [for x in xs: acc = body(acc, x)] *)
Fixpoint for_fold {St A B} (body : B -> A -> M St B) (xs : list A) (acc : B)
  : M St B :=
  match xs with
  | [] => ret acc
  | x :: xs' => acc' <- body acc x ;; for_fold body xs' acc'
  end.

(** [for x in xs: body(x)] *)
Fixpoint for_each {St A} (body : A -> M St unit) (xs : list A) : M St unit :=
  match xs with
  | [] => ret tt
  | x :: xs' => body x ;;; for_each body xs'
  end.

(** One microsecond is the unit of time. *)
Definition second_us : Z := 1000000.
Definition minute_us : Z := 60 * second_us.
Definition day_us : Z := 86400 * second_us.

(** [timedelta.days]: the normalised day count, a floor. *)
Definition timedelta_days (delta : Z) : Z := delta / day_us.

(** ** [collections.deque(maxlen=n)] as a list, leftmost element first *)

Module Deque.

(** [d.append(x)]: a full deque drops its leftmost element. *)
Definition append {A} (maxlen : nat) (x : A) (d : list A) : list A :=
  let d' := d ++ [x] in drop (length d' - maxlen)%nat d'.

(** [d.appendleft(x)]: a full deque drops its rightmost element. *)
Definition appendleft {A} (maxlen : nat) (x : A) (d : list A) : list A :=
  take maxlen (x :: d).

(** [d.extendleft(xs)]: [appendleft] of each element in turn. *)
Definition extendleft {A} (maxlen : nat) (xs : list A) (d : list A) : list A :=
  fold_left (fun acc x => appendleft maxlen x acc) xs d.

(** [d.popleft()] on a non-empty deque. *)
Definition popleft {A} (d : list A) : option (A * list A) :=
  match d with
  | [] => None
  | x :: d' => Some (x, d')
  end.

End Deque.

(** ** The compliance monitor ([compliance_monitor.py]) *)

Module ComplianceMonitor.

Inductive ComplianceFramework := HIPAA | SOX | GDPR | ISO27001 | NIST.
Inductive ViolationSeverity := LOW | MEDIUM | HIGH | CRITICAL.
Inductive ComplianceStatus :=
  COMPLIANT | NON_COMPLIANT | PARTIALLY_COMPLIANT | UNKNOWN.

#[global] Instance ComplianceFramework_eq_dec : EqDecision ComplianceFramework.
Proof. solve_decision. Defined.

#[global] Instance ViolationSeverity_eq_dec : EqDecision ViolationSeverity.
Proof. solve_decision. Defined.

#[global] Instance ComplianceStatus_eq_dec : EqDecision ComplianceStatus.
Proof. solve_decision. Defined.

(** [framework.value] *)
Definition framework_value (fw : ComplianceFramework) : string :=
  match fw with
  | HIPAA => "hipaa" | SOX => "sox" | GDPR => "gdpr"
  | ISO27001 => "iso27001" | NIST => "nist"
  end.

(** [severity.value] *)
Definition severity_value (s : ViolationSeverity) : string :=
  match s with
  | LOW => "low" | MEDIUM => "medium" | HIGH => "high" | CRITICAL => "critical"
  end.

(** [list(ComplianceFramework)], in definition order. *)
Definition all_frameworks : list ComplianceFramework :=
  [HIPAA; SOX; GDPR; ISO27001; NIST].

Record ComplianceRule := mkRule {
  rule_id : string;
  framework : ComplianceFramework;
  category : string;
  title : string;
  description : string;
  severity : ViolationSeverity;
  check_function : string;
  parameters : Dict;
  enabled : bool;
  frequency : string  (* daily, weekly, monthly, continuous *)
}.

Record ComplianceViolation := mkViolation {
  violation_id : string;
  v_rule_id : string;
  v_framework : ComplianceFramework;
  v_severity : ViolationSeverity;
  v_title : string;
  v_description : string;
  details : Dict;
  detected_at : Z;
  resolved_at : option Z;
  resolved_by : option string;
  status : string
}.

Record AuditEvent := mkAuditEvent {
  event_id : string;
  event_type : string;
  user_id : option string;
  resource : string;
  action : string;
  timestamp : Z;
  source_ip : string;
  user_agent : option string;
  result : string;
  ev_details : Dict
}.

(** The dictionary [_check_framework_compliance] builds and returns. *)
Record FrameworkResults := mkFrameworkResults {
  fr_framework : string;
  total_rules : nat;
  compliant_rules : nat;
  fr_violations : list ComplianceViolation;
  fr_status : ComplianceStatus
}.

(** The dictionary [check_compliance] builds and returns; [frameworks] is
    keyed by [framework.value], in insertion order. *)
Record ComplianceResults := mkComplianceResults {
  cr_timestamp : Z;
  frameworks : list (string * FrameworkResults);
  overall_status : ComplianceStatus;
  violations : list ComplianceViolation;
  recommendations : list string
}.

(** What the monitor asks of the world outside it: the database, the mail
    and chat transports, the logger, the event loop's sleep. *)
Inductive Call :=
| QueryCheck (name : string) (params : Dict)
| StoreViolation (v : ComplianceViolation)
| SendEmail (v : ComplianceViolation)
| SendSlack (v : ComplianceViolation)
| GenerateRecommendations (r : ComplianceResults)
| StoreComplianceResults (r : ComplianceResults)
| OpenCursor
| InsertAuditLog (e : AuditEvent)
| Commit
| Sleep (seconds : Z)
| Log (level msg : string).

(** The fields of the [ComplianceMonitor] object that the modelled methods
    read or write, the clock, and the calls made so far (oldest first), each
    with what it raised, if anything. *)
Record Monitor := mkMonitor {
  rules : list ComplianceRule;          (* self.rules.values() *)
  violation_counts : ComplianceFramework -> Z;   (* defaultdict(int) *)
  audit_buffer : list AuditEvent;       (* deque(maxlen=1000) *)
  last_check_times : gmap string Z;
  email_enabled : bool;                 (* notification_settings.get(..., False) *)
  slack_enabled : bool;
  now : Z;                              (* what datetime.utcnow() reads *)
  trace : list (Call * option exn)
}.

Definition audit_buffer_maxlen : nat := 1000.

Definition record_call (c : Call) (raised : option exn) (w : Monitor)
  : Monitor :=
  mkMonitor (rules w) (violation_counts w) (audit_buffer w)
            (last_check_times w) (email_enabled w) (slack_enabled w)
            (now w) (trace w ++ [(c, raised)]).

Definition set_violation_counts (f : ComplianceFramework -> Z) (w : Monitor)
  : Monitor :=
  mkMonitor (rules w) f (audit_buffer w) (last_check_times w)
            (email_enabled w) (slack_enabled w) (now w) (trace w).

Definition set_audit_buffer (b : list AuditEvent) (w : Monitor) : Monitor :=
  mkMonitor (rules w) (violation_counts w) b (last_check_times w)
            (email_enabled w) (slack_enabled w) (now w) (trace w).

Definition set_last_check_times (t : gmap string Z) (w : Monitor) : Monitor :=
  mkMonitor (rules w) (violation_counts w) (audit_buffer w) t
            (email_enabled w) (slack_enabled w) (now w) (trace w).

(** The collaborators. The check methods run SQL queries; [_store_violation],
    [_send_slack_notification], [_generate_recommendations] and
    [_store_compliance_results] are called by the class but defined outside
    the file. Each is a function of the state at the call, so that it may
    answer differently from one call to the next. *)
Record Env := mkEnv {
  (* the body of a built-in check method: its verdict, or what it raised *)
  check_query : string -> Dict -> Monitor -> Res (bool * Dict);
  (* any other truthy attribute of the object, called as a check *)
  other_attr : string -> option (Dict -> Monitor -> Res (bool * Dict));
  (* [None]: the call returns; [Some e]: it raises [e] *)
  outcome : Call -> Monitor -> option exn;
  recommend : ComplianceResults -> Monitor -> Res (list string);
  (* [_generate_violation_id], built from [time.time()] *)
  fresh_violation_id : Monitor -> string
}.

Abbreviation MM := (M Monitor).

Definition external (env : Env) (c : Call) : MM unit :=
  fun w => match outcome env c w with
           | None => (Ok tt, record_call c None w)
           | Some e => (Raise e, record_call c (Some e) w)
           end.

Definition external_result {A} (c : Call) (answer : Monitor -> Res A) : MM A :=
  fun w => match answer w with
           | Ok a => (Ok a, record_call c None w)
           | Raise e => (Raise e, record_call c (Some e) w)
           end.

(** [self.logger.<level>(msg)] *)
Definition log (level msg : string) : MM unit :=
  modify (record_call (Log level msg) None).

(** The six check methods of the class. *)
Definition builtin_checks : list string :=
  [ "check_encryption_at_rest"; "check_access_logging";
    "check_user_access_reviews"; "check_data_backup_encryption";
    "check_data_retention_policy"; "check_consent_management" ].

(** The shape all six share:
    [try: <query and compare>  except Exception as e: return False, {'error': str(e)}] *)
Definition builtin_check (env : Env) (name : string) (params : Dict)
  : MM (bool * Dict) :=
  r <- attempt (external_result (QueryCheck name params)
                                (check_query env name params)) ;;
  match r with
  | inr verdict => ret verdict
  | inl e => ret (false, [("error", PyStr (str_exn e))])
  end.

(** [getattr(self, rule.check_function, None)], [None] also standing for a
    falsy attribute. *)
Definition getattr_check (env : Env) (name : string)
  : option (Dict -> MM (bool * Dict)) :=
  if bool_decide (name ∈ builtin_checks) then Some (builtin_check env name)
  else match other_attr env name with
       | Some f => Some (fun params =>
                           external_result (QueryCheck name params) (f params))
       | None => None
       end.

Definition _execute_rule_check (env : Env) (rule : ComplianceRule)
  : MM (bool * Dict) :=
  match getattr_check env (check_function rule) with
  | None =>
      raise (ValueError ("Check function " +:+ check_function rule
                         +:+ " not found"))
  | Some check => check (parameters rule)
  end.

Definition _send_email_notification (env : Env) (v : ComplianceViolation)
  : MM unit :=
  r <- attempt (external env (SendEmail v)) ;;
  match r with
  | inr _ => ret tt
  | inl e => log "error" ("Failed to send email notification: " +:+ str_exn e)
  end.

Definition _send_violation_notification (env : Env) (v : ComplianceViolation)
  : MM unit :=
  r <- attempt (
         (email <- gets email_enabled ;;
          if email then _send_email_notification env v else ret tt) ;;;
         (slack <- gets slack_enabled ;;
          if slack then external env (SendSlack v) else ret tt)) ;;
  match r with
  | inr _ => ret tt
  | inl e =>
      log "error" ("Failed to send violation notification: " +:+ str_exn e)
  end.

Definition bump (fw : ComplianceFramework) (counts : ComplianceFramework -> Z)
  : ComplianceFramework -> Z :=
  fun fw' => if decide (fw' = fw) then counts fw' + 1 else counts fw'.

Definition _handle_violation (env : Env) (v : ComplianceViolation) : MM unit :=
  (* Store violation *)
  external env (StoreViolation v) ;;;
  (* Send notifications based on severity *)
  (if bool_decide (v_severity v ∈ [HIGH; CRITICAL])
   then _send_violation_notification env v else ret tt) ;;;
  (* Update violation counts *)
  modify (fun w => set_violation_counts
                     (bump (v_framework v) (violation_counts w)) w) ;;;
  (* Log violation *)
  log "warning" ("Compliance violation detected: " +:+ v_title v +:+ " ("
                 +:+ framework_value (v_framework v) +:+ ", "
                 +:+ severity_value (v_severity v) +:+ ")").

Definition _generate_violation_id (env : Env) : MM string :=
  gets (fresh_violation_id env).

(** [ComplianceViolation(...)] as both callers build it, the optional fields
    at their defaults. *)
Definition new_violation (vid : string) (rule : ComplianceRule)
    (fw : ComplianceFramework) (d : Dict) (at_ : Z) : ComplianceViolation :=
  mkViolation vid (rule_id rule) fw (severity rule) (title rule)
              (description rule) d at_ None None "open".

(** *** Framework checks *)

Definition add_compliant (res : FrameworkResults) : FrameworkResults :=
  mkFrameworkResults (fr_framework res) (total_rules res)
                     (S (compliant_rules res)) (fr_violations res)
                     (fr_status res).

Definition add_violation (v : ComplianceViolation) (res : FrameworkResults)
  : FrameworkResults :=
  mkFrameworkResults (fr_framework res) (total_rules res)
                     (compliant_rules res) (fr_violations res ++ [v])
                     (fr_status res).

Definition set_status (st : ComplianceStatus) (res : FrameworkResults)
  : FrameworkResults :=
  mkFrameworkResults (fr_framework res) (total_rules res)
                     (compliant_rules res) (fr_violations res) st.

(** The body of [for rule in framework_rules:], the whole of it inside
    [try: ... except Exception as e: self.logger.error(...)]. The violation
    is appended to [results] before [_handle_violation] runs, so it stays
    there when the handler raises. *)
Definition check_rule_step (env : Env) (fw : ComplianceFramework)
    (res : FrameworkResults) (rule : ComplianceRule) : MM FrameworkResults :=
  let failed (e : exn) :=
    log "error" ("Failed to check rule " +:+ rule_id rule +:+ ": "
                 +:+ str_exn e) in
  r <- attempt (_execute_rule_check env rule) ;;
  match r with
  | inl e => failed e ;;; ret res
  | inr (true, _) => ret (add_compliant res)
  | inr (false, violation_details) =>
      vid <- _generate_violation_id env ;;
      at_ <- gets now ;;
      let violation := new_violation vid rule fw violation_details at_ in
      let res' := add_violation violation res in
      h <- attempt (_handle_violation env violation) ;;
      match h with
      | inl e => failed e ;;; ret res'
      | inr _ => ret res'
      end
  end.

(** [results['compliant_rules'] / results['total_rules']]: true division,
    which raises on a zero divisor. The quotient is kept exact; the double
    Python computes compares with [1.0] and [0.8] the same way for every
    count a rule registry can hold (below 2^50). *)
Definition compliance_percentage (res : FrameworkResults) : Res Q :=
  match total_rules res with
  | O => Raise ZeroDivisionError
  | S _ => Ok (Z.of_nat (compliant_rules res)
               # Pos.of_nat (total_rules res))%Q
  end.

Definition classify (pct : Q) : ComplianceStatus :=
  if Qeq_bool pct 1 then COMPLIANT
  else if Qle_bool (8 # 10) pct then PARTIALLY_COMPLIANT
  else NON_COMPLIANT.

Definition framework_rules (fw : ComplianceFramework)
    (rs : list ComplianceRule) : list ComplianceRule :=
  List.filter (fun rule => bool_decide (framework rule = fw) && enabled rule) rs.

Definition _check_framework_compliance (env : Env) (fw : ComplianceFramework)
  : MM FrameworkResults :=
  rs <- gets rules ;;
  let todo := framework_rules fw rs in
  let results :=
    mkFrameworkResults (framework_value fw) (length todo) 0 [] COMPLIANT in
  results <- for_fold (check_rule_step env fw) todo results ;;
  (* Determine framework compliance status *)
  match compliance_percentage results with
  | Raise e => raise e
  | Ok pct => ret (set_status (classify pct) results)
  end.

(** The body of [for fw in frameworks_to_check:]. *)
Definition check_compliance_step (env : Env) (results : ComplianceResults)
    (fw : ComplianceFramework) : MM ComplianceResults :=
  framework_results <- _check_framework_compliance env fw ;;
  let overall :=
    if decide (fr_status framework_results = NON_COMPLIANT)
    then NON_COMPLIANT
    else if decide (fr_status framework_results = PARTIALLY_COMPLIANT)
         then (if decide (overall_status results = COMPLIANT)
               then PARTIALLY_COMPLIANT else overall_status results)
         else overall_status results in
  ret (mkComplianceResults
         (cr_timestamp results)
         (frameworks results ++ [(framework_value fw, framework_results)])
         overall
         (violations results ++ fr_violations framework_results)
         (recommendations results)).

Definition set_recommendations (recs : list string) (r : ComplianceResults)
  : ComplianceResults :=
  mkComplianceResults (cr_timestamp r) (frameworks r) (overall_status r)
                      (violations r) recs.

Definition check_compliance (env : Env) (fw : option ComplianceFramework)
  : MM ComplianceResults :=
  r <- attempt (
         stamp <- gets now ;;
         let results := mkComplianceResults stamp [] COMPLIANT [] [] in
         (* Determine frameworks to check *)
         let frameworks_to_check :=
           match fw with Some f => [f] | None => all_frameworks end in
         results <- for_fold (check_compliance_step env)
                             frameworks_to_check results ;;
         (* Generate recommendations *)
         recs <- external_result (GenerateRecommendations results)
                                 (recommend env results) ;;
         let results := set_recommendations recs results in
         (* Store results *)
         external env (StoreComplianceResults results) ;;;
         ret results) ;;
  match r with
  | inr results => ret results
  | inl e => log "error" ("Compliance check failed: " +:+ str_exn e) ;;; raise e
  end.

(** *** The scheduler *)

(** [# Determine if check is due]: the [if]/[elif] chain, as written. *)
Definition check_due (rule : ComplianceRule) (last_check : option Z)
    (current_time : Z) : bool :=
  match last_check with
  | None => true
  | Some last =>
      if String.eqb (frequency rule) "daily"
      then bool_decide (1 <= timedelta_days (current_time - last))
      else if String.eqb (frequency rule) "weekly"
      then bool_decide (7 <= timedelta_days (current_time - last))
      else if String.eqb (frequency rule) "monthly"
      then bool_decide (30 <= timedelta_days (current_time - last))
      else false
  end.

(** The body of [for rule in self.rules.values():] in [_scheduled_checks]. *)
Definition scheduled_rule_step (env : Env) (current_time : Z)
    (rule : ComplianceRule) : MM unit :=
  if negb (enabled rule) then ret tt
  else
    last_check <- gets (fun w => last_check_times w !! rule_id rule) ;;
    if check_due rule last_check current_time then
      r <- attempt (
             verdict <- _execute_rule_check env rule ;;
             modify (fun w => set_last_check_times
                                (<[rule_id rule := current_time]>
                                   (last_check_times w)) w) ;;;
             match verdict with
             | (true, _) => ret tt
             | (false, d) =>
                 vid <- _generate_violation_id env ;;
                 _handle_violation env
                   (new_violation vid rule (framework rule) d current_time)
             end) ;;
      match r with
      | inr _ => ret tt
      | inl e =>
          log "error" ("Failed to execute scheduled check for "
                       +:+ rule_id rule +:+ ": " +:+ str_exn e)
      end
    else ret tt.

(** One turn of [while self.monitoring_active:] in [_scheduled_checks]. *)
Definition scheduled_tick (env : Env) : MM unit :=
  r <- attempt (
         current_time <- gets now ;;
         rs <- gets rules ;;
         for_each (scheduled_rule_step env current_time) rs ;;;
         external env (Sleep 300)) ;;
  match r with
  | inr _ => ret tt
  | inl e => log "error" ("Error in scheduled checks: " +:+ str_exn e)
  end.

(** *** The audit buffer *)

(** [while self.audit_buffer and len(events_to_flush) < 100:
       events_to_flush.append(self.audit_buffer.popleft())],
    [n] bounding the turns left. *)
Fixpoint pop_batch (n : nat) (events_to_flush buffer : list AuditEvent)
  : list AuditEvent * list AuditEvent :=
  match n with
  | O => (events_to_flush, buffer)
  | S n' =>
      match Deque.popleft buffer with
      | None => (events_to_flush, buffer)
      | Some (e, buffer') => pop_batch n' (events_to_flush ++ [e]) buffer'
      end
  end.

Definition flush_batch_size : nat := 100.

(** The [try:] block of [_flush_audit_events]: one cursor, one insert per
    event, one commit. *)
Definition write_audit_events (env : Env) (events : list AuditEvent)
  : MM unit :=
  external env OpenCursor ;;;
  for_each (fun e => external env (InsertAuditLog e)) events ;;;
  external env Commit ;;;
  log "debug" "Flushed audit events to database".

Definition _flush_audit_events (env : Env) (events : list AuditEvent)
  : MM unit :=
  r <- attempt (write_audit_events env events) ;;
  match r with
  | inr _ => ret tt
  | inl e =>
      log "error" ("Failed to flush audit events: " +:+ str_exn e) ;;;
      (* Re-add events to buffer for retry *)
      modify (fun w => set_audit_buffer
                         (Deque.extendleft audit_buffer_maxlen (rev events)
                                           (audit_buffer w)) w)
  end.

(** One turn of [while self.monitoring_active:] in [_audit_log_flusher]. *)
Definition audit_log_flusher_turn (env : Env) : MM unit :=
  r <- attempt (
         buffer <- gets audit_buffer ;;
         match buffer with
         | [] => ret tt
         | _ :: _ =>
             let '(events_to_flush, rest) :=
               pop_batch flush_batch_size [] buffer in
             modify (set_audit_buffer rest) ;;;
             _flush_audit_events env events_to_flush
         end ;;;
         external env (Sleep 60)) ;;
  match r with
  | inr _ => ret tt
  | inl e => log "error" ("Error flushing audit logs: " +:+ str_exn e)
  end.

(** [self.audit_buffer.append(event)], the first statement of
    [log_audit_event]. *)
Definition buffer_event (e : AuditEvent) : MM unit :=
  modify (fun w => set_audit_buffer
                     (Deque.append audit_buffer_maxlen e (audit_buffer w)) w).

(** *** The rules [_load_compliance_rules] registers *)

Definition default_rules : list ComplianceRule :=
  [ mkRule "hipaa_001" HIPAA "Technical Safeguards" "Data Encryption at Rest"
           "All ePHI must be encrypted at rest" HIGH
           "check_encryption_at_rest" [] true "daily";
    mkRule "hipaa_002" HIPAA "Administrative Safeguards" "Access Logging"
           "All access to ePHI must be logged" HIGH
           "check_access_logging" [] true "daily";
    mkRule "hipaa_003" HIPAA "Administrative Safeguards" "User Access Reviews"
           "Regular review of user access rights" MEDIUM
           "check_user_access_reviews" [] true "daily";
    mkRule "gdpr_001" GDPR "Data Protection" "Data Retention Policy"
           "Personal data must not be kept longer than necessary" HIGH
           "check_data_retention_policy" [] true "daily";
    mkRule "gdpr_002" GDPR "Consent Management" "Valid Consent"
           "All data processing must have valid consent" HIGH
           "check_consent_management" [] true "daily" ].

(** The state [__init__] and [_load_compliance_rules] leave, with the
    notification settings and the clock given. *)
Definition initial_monitor (email slack : bool) (clock : Z) : Monitor :=
  mkMonitor default_rules (fun _ => 0) [] ∅ email slack clock [].

(** *** Vocabulary of the statements *)

(** [w'] is [w] after more calls. *)
Definition extends (w w' : Monitor) : Prop :=
  exists calls, trace w' = trace w ++ calls.

(** Computations that only add calls to the record. *)
Definition monotone {A} (m : MM A) : Prop :=
  forall w, extends w (snd (m w)).

(** The record [check_rule_step] leaves when the check of [rule] raised. *)
Definition check_failed_entry (rule : ComplianceRule) (e : exn)
  : Call * option exn :=
  (Log "error" ("Failed to check rule " +:+ rule_id rule +:+ ": "
                +:+ str_exn e), None).

(** The [results] dictionary [_check_framework_compliance] starts from. *)
Definition initial_results (fw : ComplianceFramework) (w : Monitor)
  : FrameworkResults :=
  mkFrameworkResults (framework_value fw)
                     (length (framework_rules fw (rules w))) 0 [] COMPLIANT.

(** The tallies, status and violations of a framework check that
    returned. *)
Definition status_of (run : Res FrameworkResults * Monitor)
  : option (nat * nat * ComplianceStatus) :=
  match fst run with
  | Ok res => Some (compliant_rules res, total_rules res, fr_status res)
  | Raise _ => None
  end.

Definition violations_of (run : Res FrameworkResults * Monitor)
  : option (list ComplianceViolation) :=
  match fst run with
  | Ok res => Some (fr_violations res)
  | Raise _ => None
  end.

(** The answers the checks of [rs] give when the loop of
    [_check_framework_compliance] runs them one after the other, each asked
    in the state the steps before it left. *)
Fixpoint loop_verdicts (env : Env) (fw : ComplianceFramework)
    (rs : list ComplianceRule) (res : FrameworkResults) (w : Monitor)
  : list (Res (bool * Dict)) :=
  match rs with
  | [] => []
  | rule :: rest =>
      fst (_execute_rule_check env rule w)
      :: match check_rule_step env fw res rule w with
         | (Ok res', w') => loop_verdicts env fw rest res' w'
         | (Raise _, _) => []
         end
  end.

(** The check answered [(True, _)]. *)
Definition answered_true (v : Res (bool * Dict)) : bool :=
  match v with
  | Ok (true, _) => true
  | _ => false
  end.

Definition count_true (vs : list (Res (bool * Dict))) : nat :=
  length (List.filter answered_true vs).

(** The overall status as the three-way rule words it: non-compliant if any
    framework is, else partially compliant if any is, else compliant. *)
Definition aggregate_status (sts : list ComplianceStatus) : ComplianceStatus :=
  if bool_decide (NON_COMPLIANT ∈ sts) then NON_COMPLIANT
  else if bool_decide (PARTIALLY_COMPLIANT ∈ sts) then PARTIALLY_COMPLIANT
  else COMPLIANT.

(** [frameworks_to_check] *)
Definition frameworks_to_check (fw : option ComplianceFramework)
  : list ComplianceFramework :=
  match fw with Some f => [f] | None => all_frameworks end.

(** Computations that leave the part [f] of the state as it was. *)
Definition preserves {A B} (f : Monitor -> B) (m : MM A) : Prop :=
  forall w, f (snd (m w)) = f w.

(** The monitor when the clock reads [t]. *)
Definition at_time (t : Z) (w : Monitor) : Monitor :=
  mkMonitor (rules w) (violation_counts w) (audit_buffer w)
            (last_check_times w) (email_enabled w) (slack_enabled w)
            t (trace w).

(** The checks queried so far, oldest first. *)
Definition checks_run (tr : list (Call * option exn)) : list string :=
  omap (fun entry => match entry with
                     | (QueryCheck name _, _) => Some name
                     | _ => None
                     end) tr.

(** The frequencies the scheduler compares elapsed days for. *)
Definition interval_days (freq : string) : option Z :=
  if String.eqb freq "daily" then Some 1
  else if String.eqb freq "weekly" then Some 7
  else if String.eqb freq "monthly" then Some 30
  else None.

(** The record the scheduler leaves when the check of [rule] raised. *)
Definition scheduled_check_failed_entry (rule : ComplianceRule) (e : exn)
  : Call * option exn :=
  (Log "error" ("Failed to execute scheduled check for " +:+ rule_id rule
                +:+ ": " +:+ str_exn e), None).




End ComplianceMonitor.

(** ** The security monitor ([security-monitoring-implementation.py]) *)

Module SecurityMonitor.

Inductive AlertSeverity := LOW | MEDIUM | HIGH | CRITICAL.

Inductive EventType :=
| LOGIN_ATTEMPT | LOGIN_SUCCESS | LOGIN_FAILURE | DATA_ACCESS
| DATA_MODIFICATION | PRIVILEGE_ESCALATION | SYSTEM_ACCESS
| CONFIGURATION_CHANGE | SECURITY_VIOLATION | ANOMALY_DETECTED.

#[global] Instance AlertSeverity_eq_dec : EqDecision AlertSeverity.
Proof. solve_decision. Defined.

#[global] Instance EventType_eq_dec : EqDecision EventType.
Proof. solve_decision. Defined.

Definition event_type_value (t : EventType) : string :=
  match t with
  | LOGIN_ATTEMPT => "login_attempt" | LOGIN_SUCCESS => "login_success"
  | LOGIN_FAILURE => "login_failure" | DATA_ACCESS => "data_access"
  | DATA_MODIFICATION => "data_modification"
  | PRIVILEGE_ESCALATION => "privilege_escalation"
  | SYSTEM_ACCESS => "system_access"
  | CONFIGURATION_CHANGE => "configuration_change"
  | SECURITY_VIOLATION => "security_violation"
  | ANOMALY_DETECTED => "anomaly_detected"
  end.

Record SecurityEvent := mkSecurityEvent {
  event_id : string;
  event_type : EventType;
  timestamp : Z;
  user_id : option string;
  source_ip : string;
  user_agent : option string;
  resource : string;
  action : string;
  result : string;
  severity : AlertSeverity;
  details : Dict;
  risk_score : Q
}.

Record SecurityAlert := mkSecurityAlert {
  alert_id : string;
  title : string;
  description : string;
  a_severity : AlertSeverity;
  event_ids : list string;
  created_at : Z;
  acknowledged : bool;
  acknowledged_by : option string;
  acknowledged_at : option Z;
  resolved : bool;
  resolved_by : option string;
  resolved_at : option Z
}.

(** The same event at another time. *)
Definition with_timestamp (t : Z) (e : SecurityEvent) : SecurityEvent :=
  mkSecurityEvent (event_id e) (event_type e) t (user_id e) (source_ip e)
                  (user_agent e) (resource e) (action e) (result e)
                  (severity e) (details e) (risk_score e).

(** [timestamp.hour] of a UTC time. *)
Definition hour_of (t : Z) : Z := (t / (3600 * second_us)) mod 24.

Inductive Call :=
| IsSuspiciousIp (ip : string)
| GetUserRiskScore (user : string)
| CalculateFrequencyRisk (e : SecurityEvent)
| StoreAlert (a : SecurityAlert)
| SendEmailAlert (a : SecurityAlert)
| SendSlackAlert (a : SecurityAlert)
| SendSmsAlert (a : SecurityAlert)
| Log (level msg : string).

(** The fields of the [SecurityMonitor] object the modelled methods use,
    the clock, and the calls made so far with what each raised. *)
Record Monitor := mkMonitor {
  alert_suppression : gmap string Z;
  now : Z;                              (* what datetime.utcnow() reads *)
  trace : list (Call * option exn)
}.

(** [timedelta(minutes=15)] *)
Definition suppression_window : Z := 15 * minute_us.

(** The collaborators: Redis, the database and the transports behind
    [_is_suspicious_ip], [_get_user_risk_score], [_calculate_frequency_risk],
    [_store_alert], [_send_slack_alert] and [_send_sms_alert], which the
    class calls and the file does not define; the digest; the time a call
    takes. *)
Record Env := mkEnv {
  is_suspicious_ip : string -> Monitor -> Res bool;
  user_risk_score : string -> Monitor -> Res Q;
  frequency_risk : SecurityEvent -> Monitor -> Res Q;
  outcome : Call -> Monitor -> option exn;
  elapsed : Call -> Monitor -> Z;
  md5_hexdigest : string -> string;
  fresh_alert_id : Monitor -> string
}.

Abbreviation MM := (M Monitor).

(** The state once call [c] is over: the call is on record and the clock
    has moved by the time it took. *)
Definition after_call (env : Env) (c : Call) (raised : option exn)
    (w : Monitor) : Monitor :=
  mkMonitor (alert_suppression w) (now w + elapsed env c w)
            (trace w ++ [(c, raised)]).

Definition external (env : Env) (c : Call) : MM unit :=
  fun w => match outcome env c w with
           | None => (Ok tt, after_call env c None w)
           | Some e => (Raise e, after_call env c (Some e) w)
           end.

Definition external_result {A} (env : Env) (c : Call)
    (answer : Monitor -> Res A) : MM A :=
  fun w => match answer w with
           | Ok a => (Ok a, after_call env c None w)
           | Raise e => (Raise e, after_call env c (Some e) w)
           end.

Definition log (level msg : string) : MM unit :=
  modify (fun w => mkMonitor (alert_suppression w) (now w)
                             (trace w ++ [(Log level msg, None)])).

Definition utcnow : MM Z := gets now.

(** Time passing between two calls of the monitor. *)
Definition later (dt : Z) (w : Monitor) : Monitor :=
  mkMonitor (alert_suppression w) (now w + dt) (trace w).

(** *** Risk scoring *)

(** [event_risk_factors.get(event.event_type, 0.1)] *)
Definition event_risk_factor (t : EventType) : Q :=
  match t with
  | LOGIN_FAILURE => 3 # 10
  | LOGIN_SUCCESS => 1 # 10
  | DATA_ACCESS => 2 # 10
  | DATA_MODIFICATION => 4 # 10
  | PRIVILEGE_ESCALATION => 8 # 10
  | CONFIGURATION_CHANGE => 6 # 10
  | SECURITY_VIOLATION => 9 # 10
  | ANOMALY_DETECTED => 7 # 10
  | LOGIN_ATTEMPT | SYSTEM_ACCESS => 1 # 10
  end.

(** [current_hour < 6 or current_hour > 22] *)
Definition outside_business_hours (hour : Z) : bool :=
  bool_decide (hour < 6) || bool_decide (22 < hour).

(** [if event.user_id:] holds for a non-empty string only. *)
Definition truthy_user (u : option string) : option string :=
  match u with
  | Some "" => None
  | other => other
  end.

(** [_calculate_risk_score]. The source adds floats and returns
    [min(base_score, 1.0)]; the sum is kept exact here, with [Qmin]. What is
    stated of scores is either stated in a form that binary64 arithmetic
    keeps whatever the helpers return (no score is above 1.0, the
    off-hours score is not the lower one: rounding is monotone, and a
    comparison with nan is false), or stated for user and frequency terms
    that are not negative, which leaves nan out and lets a sum below 1.0
    be reached by small terms only, so that two sums that differ by the
    off-hours bonus stay apart after rounding. *)
Definition _calculate_risk_score (env : Env) (event : SecurityEvent) : MM Q :=
  let base_score := (1 # 10)%Q in
  (* Event type risk factors *)
  let base_score := (base_score + event_risk_factor (event_type event))%Q in
  (* Time-based risk factors *)
  let current_hour := hour_of (timestamp event) in
  let base_score :=
    if outside_business_hours current_hour
    then (base_score + (2 # 10))%Q else base_score in
  (* IP-based risk factors *)
  suspicious <- external_result env (IsSuspiciousIp (source_ip event))
                                (is_suspicious_ip env (source_ip event)) ;;
  let base_score :=
    if (suspicious : bool) then (base_score + (3 # 10))%Q else base_score in
  (* User-based risk factors *)
  base_score <- match truthy_user (user_id event) with
                | Some u =>
                    user_risk <- external_result env (GetUserRiskScore u)
                                                 (user_risk_score env u) ;;
                    ret (base_score + user_risk)%Q
                | None => ret base_score
                end ;;
  (* Frequency-based risk factors *)
  frequency <- external_result env (CalculateFrequencyRisk event)
                               (frequency_risk env event) ;;
  let base_score := (base_score + frequency)%Q in
  ret (Qmin base_score 1).

(** *** Alerts *)

Definition _send_email_alert (env : Env) (alert : SecurityAlert) : MM unit :=
  r <- attempt (external env (SendEmailAlert alert)) ;;
  match r with
  | inr _ => ret tt
  | inl e => log "error" ("Failed to send email alert: " +:+ str_exn e)
  end.

Definition _send_alert_notifications (env : Env) (alert : SecurityAlert)
  : MM unit :=
  (* Email notifications *)
  _send_email_alert env alert ;;;
  (* Slack notifications for high/critical alerts *)
  (if bool_decide (a_severity alert ∈ [HIGH; CRITICAL])
   then external env (SendSlackAlert alert) else ret tt) ;;;
  (* SMS notifications for critical alerts *)
  (if bool_decide (a_severity alert = CRITICAL)
   then external env (SendSmsAlert alert) else ret tt).

Definition alert_key_of (env : Env) (title description : string) : string :=
  md5_hexdigest env (title +:+ ":" +:+ description).

Definition set_alert_suppression (t : gmap string Z) (w : Monitor) : Monitor :=
  mkMonitor t (now w) (trace w).

Definition _create_alert (env : Env) (title description : string)
    (severity : AlertSeverity) (event_ids : list string) : MM unit :=
  (* Check for alert suppression *)
  let alert_key := alert_key_of env title description in
  table <- gets alert_suppression ;;
  suppress <- match table !! alert_key with
              | Some last_alert_time =>
                  t <- utcnow ;;
                  ret (bool_decide (t - last_alert_time < suppression_window))
              | None => ret false
              end ;;
  if (suppress : bool) then ret tt  (* Suppress duplicate alert *)
  else
    (* Create new alert *)
    aid <- gets (fresh_alert_id env) ;;
    created <- utcnow ;;
    let alert :=
      mkSecurityAlert aid title description severity event_ids created
                      false None None false None None in
    (* Store alert *)
    external env (StoreAlert alert) ;;;
    (* Send notifications *)
    _send_alert_notifications env alert ;;;
    (* Update suppression tracking *)
    t <- utcnow ;;
    modify (fun w => set_alert_suppression
                       (<[alert_key := t]> (alert_suppression w)) w) ;;;
    log "warning" ("Security alert created: " +:+ title).

(** The alerts the store accepted, oldest first. *)
Definition persisted_alerts (tr : list (Call * option exn))
  : list SecurityAlert :=
  omap (fun entry => match entry with
                     | (StoreAlert a, None) => Some a
                     | _ => None
                     end) tr.

(** The notifications attempted, oldest first. *)
Definition notifications (tr : list (Call * option exn)) : list Call :=
  omap (fun entry => match entry with
                     | (SendEmailAlert a, _) => Some (SendEmailAlert a)
                     | (SendSlackAlert a, _) => Some (SendSlackAlert a)
                     | (SendSmsAlert a, _) => Some (SendSmsAlert a)
                     | _ => None
                     end) tr.

End SecurityMonitor.

(** ** Sample environments and states *)

Module Samples.
Import ComplianceMonitor.

(** A world where every query answers, every call returns, and the built-in
    checks find nothing wrong. Three more attributes stand for check methods
    a deployment adds: one that passes, one that reports five offending
    records, one that raises. *)
Definition calm_env : Env :=
  mkEnv (fun _ _ _ => Ok (true, []))
        (fun name =>
           if String.eqb name "check_passes"
           then Some (fun _ _ => Ok (true, []))
           else if String.eqb name "check_counts_five"
           then Some (fun _ _ => Ok (false, [("count", PyInt 5)]))
           else if String.eqb name "check_raises"
           then Some (fun _ _ => Raise (PyError "RuntimeError" "boom"))
           else None)
        (fun _ _ => None)
        (fun _ _ => Ok [])
        (fun _ => "viol_0").

(** As [calm_env], with the database down for the built-in checks. *)
Definition db_down_env : Env :=
  mkEnv (fun _ _ _ => Raise (PyError "OperationalError" "connection refused"))
        (other_attr calm_env)
        (fun _ _ => None)
        (fun _ _ => Ok [])
        (fun _ => "viol_0").

(** As [calm_env], with every insert into [audit_logs] failing. *)
Definition insert_fails_env : Env :=
  mkEnv (check_query calm_env) (other_attr calm_env)
        (fun c _ => match c with
                    | InsertAuditLog _ =>
                        Some (PyError "OperationalError" "connection refused")
                    | _ => None
                    end)
        (fun _ _ => Ok [])
        (fun _ => "viol_0").



Definition hipaa_rule (id check freq : string) : ComplianceRule :=
  mkRule id HIPAA "Technical Safeguards" id id HIGH check [] true freq.

Definition monitor_with (rs : list ComplianceRule) (clock : Z) : Monitor :=
  mkMonitor rs (fun _ => 0) [] ∅ true false clock [].

(** Ten HIPAA rules of which the first [k] pass. *)
Definition ten_rules (k : nat) : list ComplianceRule :=
  map (fun i => hipaa_rule "r"
                  (if (i <? k)%nat then "check_passes" else "check_counts_five")
                  "daily")
      (seq 0 10).

(** The decimal digit [i], for [i] below ten. *)
Definition digit (i : nat) : string :=
  String (Ascii.ascii_of_nat (48 + i)) EmptyString.

(** [n] rules of framework [fw], named [prefix0], [prefix1], ..., of which
    the first [k] pass. *)
Definition numbered_rules (fw : ComplianceFramework) (prefix : string)
    (k n : nat) : list ComplianceRule :=
  map (fun i => mkRule (prefix +:+ digit i) fw "Sample" (prefix +:+ digit i)
                       (prefix +:+ digit i) HIGH
                       (if (i <? k)%nat then "check_passes"
                        else "check_counts_five")
                       [] true "daily")
      (seq 0 n).

(** A registry with rules under every framework: eight of ten HIPAA rules
    pass, the one SOX rule passes, seven of ten GDPR rules pass, the one
    ISO 27001 rule and the one NIST rule pass. *)
Definition mixed_registry : list ComplianceRule :=
  numbered_rules HIPAA "h" 8 10 ++ numbered_rules SOX "s" 1 1
  ++ numbered_rules GDPR "g" 7 10 ++ numbered_rules ISO27001 "i" 1 1
  ++ numbered_rules NIST "n" 1 1.

(** A registry whose only rule names a check the class does not have. *)
Definition misnamed_rule : ComplianceRule :=
  hipaa_rule "hipaa_009" "check_firewall" "daily".

(** A rule whose check method raises. *)
Definition raising_rule : ComplianceRule :=
  hipaa_rule "hipaa_011" "check_raises" "daily".

(** A rule with the fourth documented frequency. *)
Definition continuous_rule : ComplianceRule :=
  hipaa_rule "hipaa_010" "check_access_logging" "continuous".

Definition sample_violation : ComplianceViolation :=
  new_violation "viol_1700000000000_ab12cd34" (hipaa_rule "hipaa_001"
                "check_encryption_at_rest" "daily") HIPAA
                [("total_tables", PyInt 3)] 0.

Definition sample_event (id : string) : AuditEvent :=
  mkAuditEvent id "data_access" (Some "user123") "/api/patients" "read" 0
               "10.0.0.1" None "success" [].

End Samples.

Module SecuritySamples.
Import SecurityMonitor.

(** A world with no flagged address, no user history and no burst of similar
    events, where every call returns at once and the digest is the text
    itself. *)
Definition calm_env : Env :=
  mkEnv (fun _ _ => Ok false) (fun _ _ => Ok 0%Q) (fun _ _ => Ok 0%Q)
        (fun _ _ => None) (fun _ _ => 0) (fun s => s) (fun _ => "alt_0").

(** As [calm_env], each call taking two seconds. *)
Definition slow_env : Env :=
  mkEnv (fun _ _ => Ok false) (fun _ _ => Ok 0%Q) (fun _ _ => Ok 0%Q)
        (fun _ _ => None) (fun _ _ => 2 * second_us) (fun s => s)
        (fun _ => "alt_0").

(** As [calm_env], with a frequency helper that looks at the time of the
    event it is given: similar events abound by day (0.5) and are unknown
    by night (0). *)
Definition rush_hour_env : Env :=
  mkEnv (fun _ _ => Ok false) (fun _ _ => Ok 0%Q)
        (fun e _ => Ok (if outside_business_hours (hour_of (timestamp e))
                        then 0%Q else (5 # 10)%Q))
        (fun _ _ => None) (fun _ _ => 0) (fun s => s) (fun _ => "alt_0").

(** As [calm_env], with a user helper that answers below zero. *)
Definition credit_env : Env :=
  mkEnv (fun _ _ => Ok false) (fun _ _ => Ok (- (1))%Q) (fun _ _ => Ok 0%Q)
        (fun _ _ => None) (fun _ _ => 0) (fun s => s) (fun _ => "alt_0").

(** A login of user123. *)
Definition login_at (t : Z) : SecurityEvent :=
  mkSecurityEvent "evt_2" LOGIN_SUCCESS t (Some "user123") "192.168.1.100"
                  None "/api/auth/login" "login" "success" LOW [] 0%Q.

Definition event_at (ty : EventType) (t : Z) : SecurityEvent :=
  mkSecurityEvent "evt_1" ty t None "192.168.1.100" None "/api/auth/login"
                  "login" "failure" MEDIUM [] 0%Q.

(** 03:00 and 14:00 UTC on the first day of the epoch. *)
Definition three_am : Z := 3 * 3600 * second_us.
Definition two_pm : Z := 14 * 3600 * second_us.

Definition fresh_monitor (clock : Z) : Monitor := mkMonitor ∅ clock [].

(** The alert [_check_brute_force_attack] raises for 10.0.0.1. *)
Definition brute_force_title : string := "Potential Brute Force Attack".
Definition brute_force_description : string :=
  "Multiple failed login attempts from IP 10.0.0.1".

(** The monitor after that alert was first raised, at time 0, in the slow
    world. *)
Definition after_first_alert : Monitor :=
  snd (_create_alert slow_env brute_force_title brute_force_description HIGH
                     ["evt_1"] (fresh_monitor 0)).

End SecuritySamples.

(** ** More of the compliance monitor *)

Module ComplianceExtra.
Import ComplianceMonitor.

(** The calls handed to the mail and chat transports, oldest first. *)
Definition transport_calls (tr : list (Call * option exn)) : list Call :=
  omap (fun entry => match entry with
                     | (SendEmail v, _) => Some (SendEmail v)
                     | (SendSlack v, _) => Some (SendSlack v)
                     | _ => None
                     end) tr.

(** The violations handed to the store, oldest first, accepted or not. *)
Definition store_attempts (tr : list (Call * option exn))
  : list ComplianceViolation :=
  omap (fun entry => match entry with
                     | (StoreViolation v, _) => Some v
                     | _ => None
                     end) tr.

(** The statements sent to the audit database, oldest first. *)
Definition db_calls (tr : list (Call * option exn)) : list Call :=
  omap (fun entry => match entry with
                     | (OpenCursor, _) => Some OpenCursor
                     | (InsertAuditLog e, _) => Some (InsertAuditLog e)
                     | (Commit, _) => Some Commit
                     | _ => None
                     end) tr.

(** What a violation raised for [rule] in framework [fw] carries. *)
Definition violation_of_rule (fw : ComplianceFramework) (rule : ComplianceRule)
    (v : ComplianceViolation) : Prop :=
  v_rule_id v = rule_id rule /\ v_framework v = fw /\
  v_severity v = severity rule /\ v_title v = title rule /\
  v_description v = description rule /\
  status v = "open" /\ resolved_at v = None /\ resolved_by v = None.

End ComplianceExtra.


(** ** Event ingestion ([log_audit_event]) *)

Module ComplianceIngest.
Import ComplianceMonitor.

(** The Redis commands of [_cache_audit_event], and the call of
    [_check_privilege_escalation_compliance], a method the class calls and
    the file does not define. That call is put on record with the outcome
    the environment gives it, returning or raising; the model gives the
    absent method no hold on the monitor, so what is stated below about the
    store and the transports is stated for the other event types only. *)
Inductive CacheCall :=
| Setex (key : string) (ttl : Z) (value : string)
| Lpush (key value : string)
| Expire (key : string) (ttl : Z)
| CheckPrivilegeEscalation (e : AuditEvent).

(** The monitor together with the record of those calls. *)
Record Ingest := mkIngest {
  monitor : Monitor;
  cache_log : list (CacheCall * option exn)
}.

Record IngestEnv := mkIngestEnv {
  base : Env;
  (* [None]: the call returns; [Some e]: it raises [e] *)
  cache_outcome : CacheCall -> Ingest -> option exn;
  (* [json.dumps(event_data)] *)
  dumps : AuditEvent -> string;
  (* [datetime.isoformat()] *)
  isoformat : Z -> string
}.

Abbreviation IM := (M Ingest).

(** A method of the monitor, run on the monitor inside. *)
Definition lift {A} (m : MM A) : IM A :=
  fun s => let (r, w') := m (monitor s) in (r, mkIngest w' (cache_log s)).

Definition cache_call (ienv : IngestEnv) (c : CacheCall) : IM unit :=
  fun s => match cache_outcome ienv c s with
           | None => (Ok tt, mkIngest (monitor s) (cache_log s ++ [(c, None)]))
           | Some e =>
               (Raise e, mkIngest (monitor s) (cache_log s ++ [(c, Some e)]))
           end.

(** [if event.user_id:] holds for a non-empty string only. *)
Definition truthy (u : option string) : option string :=
  match u with
  | Some "" => None
  | other => other
  end.

Definition py_optional_str (u : option string) : PyVal :=
  match u with Some s => PyStr s | None => PyNone end.

(** [event.timestamp.hour < 6 or event.timestamp.hour > 22] *)
Definition after_hours (t : Z) : bool :=
  bool_decide (SecurityMonitor.hour_of t < 6)
  || bool_decide (22 < SecurityMonitor.hour_of t).

Definition after_hours_violation (ienv : IngestEnv) (vid : string)
    (event : AuditEvent) (detected : Z) : ComplianceViolation :=
  mkViolation vid "custom_001" HIPAA MEDIUM "After-hours Data Access"
              "Data access outside business hours detected"
              [ ("event_id", PyStr (event_id event));
                ("user_id", py_optional_str (user_id event));
                ("access_time", PyStr (isoformat ienv (timestamp event)));
                ("resource", PyStr (resource event)) ]
              detected None None "open".

Definition _check_data_access_compliance (ienv : IngestEnv)
    (event : AuditEvent) : IM unit :=
  (* Check if access is during business hours *)
  if after_hours (timestamp event) then
    vid <- lift (_generate_violation_id (base ienv)) ;;
    detected <- lift (gets now) ;;
    lift (_handle_violation (base ienv)
            (after_hours_violation ienv vid event detected))
  else ret tt.

Definition _check_event_compliance (ienv : IngestEnv) (event : AuditEvent)
  : IM unit :=
  r <- attempt (
         (* Check for suspicious patterns *)
         if String.eqb (event_type event) "data_access"
         then _check_data_access_compliance ienv event
         else if String.eqb (event_type event) "privilege_escalation"
         then cache_call ienv (CheckPrivilegeEscalation event)
         else ret tt) ;;
  match r with
  | inr _ => ret tt
  | inl e =>
      lift (log "error" ("Failed to check event compliance: " +:+ str_exn e))
  end.

Definition _cache_audit_event (ienv : IngestEnv) (event : AuditEvent)
  : IM unit :=
  r <- attempt (
         (* Cache with TTL *)
         cache_call ienv (Setex ("audit_event:" +:+ event_id event) 3600
                                (dumps ienv event)) ;;;
         (* Add to user activity timeline *)
         match truthy (user_id event) with
         | Some u =>
             cache_call ienv (Lpush ("user_audit:" +:+ u) (event_id event)) ;;;
             cache_call ienv (Expire ("user_audit:" +:+ u) 86400)
         | None => ret tt
         end) ;;
  match r with
  | inr _ => ret tt
  | inl e => lift (log "error" ("Failed to cache audit event: " +:+ str_exn e))
  end.

(** The event types that get an immediate check. *)
Definition immediate_check_types : list string :=
  ["data_access"; "data_modification"; "privilege_escalation"].

Definition log_audit_event (ienv : IngestEnv) (event : AuditEvent) : IM unit :=
  r <- attempt (
         (* Add to buffer *)
         lift (buffer_event event) ;;;
         (* Immediate compliance checks for critical events *)
         (if bool_decide (event_type event ∈ immediate_check_types)
          then _check_event_compliance ienv event else ret tt) ;;;
         (* Cache recent events for real-time analysis *)
         _cache_audit_event ienv event) ;;
  match r with
  | inr _ => ret tt
  | inl e => lift (log "error" ("Failed to log audit event: " +:+ str_exn e))
  end.

(** Computations that leave the part [f] of the monitor as it was. *)
Definition keeps {A B} (f : Monitor -> B) (m : IM A) : Prop :=
  forall s, f (monitor (snd (m s))) = f (monitor s).

End ComplianceIngest.


(** ** The backup check and the rule registry *)

Module ComplianceChecks.
Import ComplianceMonitor.

(** [needle in haystack] on strings. *)
Fixpoint contains (needle haystack : string) : bool :=
  String.prefix needle haystack
  || match haystack with
     | EmptyString => false
     | String _ rest => contains needle rest
     end.

(** [str.lower()]: the letters A to Z are the only characters whose
    lowering can produce a letter of "encrypted". *)
Definition lower_char (c : Ascii.ascii) : Ascii.ascii :=
  let n := Ascii.nat_of_ascii c in
  if (65 <=? n)%nat && (n <=? 90)%nat then Ascii.ascii_of_nat (n + 32) else c.

Fixpoint lower (s : string) : string :=
  match s with
  | EmptyString => EmptyString
  | String c rest => String (lower_char c) (lower rest)
  end.

(** [params.get(key)] on a dictionary whose keys are distinct. *)
Fixpoint dict_get (key : string) (d : Dict) : option PyVal :=
  match d with
  | [] => None
  | (k, v) :: rest => if String.eqb k key then Some v else dict_get key rest
  end.

(** Iterating over a string gives its characters, one string each. *)
Fixpoint characters (s : string) : list string :=
  match s with
  | EmptyString => []
  | String c rest => String c EmptyString :: characters rest
  end.

(** ['encrypted' not in location.lower()] *)
Definition lacks_encrypted (location : string) : bool :=
  negb (contains "encrypted" (lower location)).

(** A value found in [backup_locations], as far as the loop tells values
    apart: a string, or anything else. For a value of another built-in
    type the loop body raises, [location.lower()] for want of the method,
    or the [in] test on the bytes it gave; [raised] is the message. *)
Inductive Item :=
| Name (s : string)
| Other (raised : string).

(** What [params.get('backup_locations', [])] gives. *)
Inductive Locations :=
| Missing                                   (* no such key: the default [[]] *)
| Sized (items : list Item)                 (* a list, tuple, set or dict (its
                                               keys), in iteration order *)
| Unsized (items : list Item) (raised : string)
                                            (* an iterator: [len] raises *)
| Text (s : string)                         (* a str: its characters *)
| NotIterable (raised : string).            (* the [for] statement raises *)

(** The loop: the names without "encrypted" so far, or the message of what
    the body raised. *)
Fixpoint scan (items : list Item) (unencrypted_backups : list string)
  : string + list string :=
  match items with
  | [] => inr unencrypted_backups
  | Name location :: rest =>
      scan rest (if lacks_encrypted location
                 then unencrypted_backups ++ [location]
                 else unencrypted_backups)
  | Other raised :: _ => inl raised
  end.

(** [return False, {'error': str(e)}] *)
Definition error_evidence (msg : string) : bool * Dict :=
  (false, [("error", PyStr msg)]).

(** What follows the loop when [len(backup_locations)] is [total]. *)
Definition backup_verdict (isoformat : Z -> string) (now : Z) (total : nat)
    (unencrypted_backups : list string) : bool * Dict :=
  let is_compliant := Nat.eqb (length unencrypted_backups) 0 in
  (is_compliant,
   [ ("total_backup_locations", PyInt (Z.of_nat total));
     ("unencrypted_backups", PyStrList unencrypted_backups);
     ("check_timestamp", PyStr (isoformat now)) ]).

(** [check_data_backup_encryption(params)] at time [now], on what
    [params.get('backup_locations', [])] gave; [isoformat] is
    [datetime.isoformat]. Whatever is raised inside the [try:] comes back
    as error evidence. *)
Definition check_data_backup_encryption (isoformat : Z -> string)
    (backup_locations : Locations) (now : Z) : bool * Dict :=
  let looped (items : list Item) (len : string + nat) :=
    match scan items [] with
    | inl raised => error_evidence raised
    | inr unencrypted_backups =>
        match len with
        | inl raised => error_evidence raised
        | inr total => backup_verdict isoformat now total unencrypted_backups
        end
    end in
  match backup_locations with
  | Missing => looped [] (inr 0%nat)
  | Sized items => looped items (inr (length items))
  | Unsized items raised => looped items (inl raised)
  | Text s => looped (map Name (characters s)) (inr (String.length s))
  | NotIterable raised => error_evidence raised
  end.

(** The parameter as a rule's dictionary holds it. *)
Definition locations_of (params : Dict) : Locations :=
  match dict_get "backup_locations" params with
  | None => Missing
  | Some (PyStrList locations) => Sized (map Name locations)
  | Some (PyStr s) => Text s
  | Some PyNone => NotIterable "'NoneType' object is not iterable"
  | Some (PyBool _) => NotIterable "'bool' object is not iterable"
  | Some (PyInt _) => NotIterable "'int' object is not iterable"
  end.

(** [self.rules[rule.rule_id] = rule] on the registry's values: a rule
    whose id is already there takes the old rule's place, a new one goes to
    the end. *)
Fixpoint register (rule : ComplianceRule) (rs : list ComplianceRule)
  : list ComplianceRule :=
  match rs with
  | [] => [rule]
  | r :: rest =>
      if String.eqb (rule_id r) (rule_id rule) then rule :: rest
      else r :: register rule rest
  end.

(** [self.rules.get(rule_id)] *)
Fixpoint find_rule (id : string) (rs : list ComplianceRule)
  : option ComplianceRule :=
  match rs with
  | [] => None
  | r :: rest => if String.eqb (rule_id r) id then Some r else find_rule id rest
  end.

(** [for rule in all_rules: self.rules[rule.rule_id] = rule] *)
Definition register_all (new_rules rs : list ComplianceRule)
  : list ComplianceRule :=
  fold_left (fun acc rule => register rule acc) new_rules rs.

(** [_load_compliance_rules] on a registry holding [rs]. *)
Definition _load_compliance_rules (rs : list ComplianceRule)
  : list ComplianceRule :=
  register_all default_rules rs.

End ComplianceChecks.


(** ** Event analysis ([log_security_event]) *)

Module SecurityAnalysis.
Import SecurityMonitor.

(** What the analysis asks of Redis and the database, beside the calls of
    the scorer and the dispatcher: [_store_event], the commands of
    [_cache_event], and the helpers the class calls and the file does not
    define. *)
Inductive Query :=
| StoreEvent (e : SecurityEvent)
| Setex (key : string) (ttl : Z) (value : string)
| Lpush (key value : string)
| Expire (key : string) (ttl : Z)
| CountRecentEvents (ip : string) (ty : EventType) (window : Z)
| GetUserNormalResources (user : string)
| CheckRecentResourceAccess (user resource : string) (window : Z)
| CheckPrivilegeEscalation (e : SecurityEvent)
| GetUserNormalHours (user : string)
| DetectVolumeAnomalies (e : SecurityEvent)
| DetectBehavioralAnomalies (e : SecurityEvent).

(** The monitor together with the record of those queries. *)
Record Session := mkSession {
  monitor : Monitor;
  queries : list (Query * option exn)
}.

Record World := mkWorld {
  base : Env;
  count_recent_events : string -> EventType -> Z -> Session -> Res Z;
  user_normal_resources : string -> Session -> Res (list string);
  recent_resource_access : string -> string -> Z -> Session -> Res bool;
  user_normal_hours : string -> Session -> Res (list Z);
  (* [None]: the query returns; [Some e]: it raises [e] *)
  query_outcome : Query -> Session -> option exn;
  (* the time a query takes *)
  query_elapsed : Query -> Session -> Z;
  (* [json.dumps(event.to_dict())] *)
  to_json : SecurityEvent -> string
}.

Abbreviation SM := (M Session).

(** A method of the monitor, run on the monitor inside. *)
Definition lift {A} (m : MM A) : SM A :=
  fun s => let (r, w') := m (monitor s) in (r, mkSession w' (queries s)).

(** The session once query [q] is over. *)
Definition after_query (world : World) (q : Query) (raised : option exn)
    (s : Session) : Session :=
  mkSession (later (query_elapsed world q s) (monitor s))
            (queries s ++ [(q, raised)]).

Definition query (world : World) (q : Query) : SM unit :=
  fun s => match query_outcome world q s with
           | None => (Ok tt, after_query world q None s)
           | Some e => (Raise e, after_query world q (Some e) s)
           end.

Definition query_result {A} (world : World) (q : Query)
    (answer : Session -> Res A) : SM A :=
  fun s => match answer s with
           | Ok a => (Ok a, after_query world q None s)
           | Raise e => (Raise e, after_query world q (Some e) s)
           end.

(** Time passing between two calls of the monitor. *)
Definition wait (dt : Z) (s : Session) : Session :=
  mkSession (later dt (monitor s)) (queries s).

(** [event.risk_score = risk_score] *)
Definition with_risk_score (score : Q) (e : SecurityEvent) : SecurityEvent :=
  mkSecurityEvent (event_id e) (event_type e) (timestamp e) (user_id e)
                  (source_ip e) (user_agent e) (resource e) (action e)
                  (result e) (severity e) (details e) score.

Definition _store_event (world : World) (event : SecurityEvent) : SM unit :=
  query world (StoreEvent event).

Definition _cache_event (world : World) (event : SecurityEvent) : SM unit :=
  (* Store event data *)
  query world (Setex ("event:" +:+ event_id event) 3600
                     (to_json world event)) ;;;
  (* Add to user activity timeline *)
  match truthy_user (user_id event) with
  | Some u =>
      query world (Lpush ("user_activity:" +:+ u) (event_id event)) ;;;
      query world (Expire ("user_activity:" +:+ u) 86400)
  | None => ret tt
  end ;;;
  (* Add to IP activity timeline *)
  query world (Lpush ("ip_activity:" +:+ source_ip event) (event_id event)) ;;;
  query world (Expire ("ip_activity:" +:+ source_ip event) 86400).

Definition brute_force_alert_title : string := "Potential Brute Force Attack".

Definition brute_force_alert_description (ip : string) : string :=
  "Multiple failed login attempts from IP " +:+ ip.

Definition _check_brute_force_attack (world : World) (event : SecurityEvent)
  : SM unit :=
  (* Count failed logins from same IP in last 15 minutes *)
  recent_failures <-
    query_result world
      (CountRecentEvents (source_ip event) LOGIN_FAILURE (15 * minute_us))
      (count_recent_events world (source_ip event) LOGIN_FAILURE
                           (15 * minute_us)) ;;
  if bool_decide (5 <= recent_failures)
  then lift (_create_alert (base world) brute_force_alert_title
               (brute_force_alert_description (source_ip event)) HIGH
               [event_id event])
  else ret tt.

Definition _check_unusual_data_access (world : World) (event : SecurityEvent)
  : SM unit :=
  match truthy_user (user_id event) with
  | None => ret tt
  | Some u =>
      (* Check if user is accessing data outside normal patterns *)
      normal_resources <-
        query_result world (GetUserNormalResources u)
                     (user_normal_resources world u) ;;
      if bool_decide (resource event ∈ normal_resources) then ret tt
      else
        (* Check if this is a new resource for the user *)
        recent_access <-
          query_result world
            (CheckRecentResourceAccess u (resource event) (30 * day_us))
            (recent_resource_access world u (resource event) (30 * day_us)) ;;
        if (recent_access : bool) then ret tt
        else lift (_create_alert (base world) "Unusual Data Access Pattern"
                     ("User " +:+ u +:+ " accessing unusual resource "
                      +:+ resource event) MEDIUM [event_id event])
  end.

Definition _check_suspicious_patterns (world : World) (event : SecurityEvent)
  : SM unit :=
  (* Multiple failed logins *)
  (if bool_decide (event_type event = LOGIN_FAILURE)
   then _check_brute_force_attack world event else ret tt) ;;;
  (* Unusual data access patterns *)
  (if bool_decide (event_type event = DATA_ACCESS)
   then _check_unusual_data_access world event else ret tt) ;;;
  (* Privilege escalation attempts *)
  (if bool_decide (event_type event = PRIVILEGE_ESCALATION)
   then query world (CheckPrivilegeEscalation event) else ret tt).

(** [self.risk_thresholds['critical']] *)
Definition critical_threshold : Q := 95 # 100.

Definition critical_title : string := "Critical Security Event Detected".

Definition critical_description (ty : EventType) : string :=
  "High-risk security event: " +:+ event_type_value ty.

(** [_analyze_event] writes the score into the event it was given; the
    event so changed is the value returned here. *)
Definition _analyze_event (world : World) (event : SecurityEvent)
  : SM SecurityEvent :=
  (* Calculate risk score *)
  score <- lift (_calculate_risk_score (base world) event) ;;
  let event := with_risk_score score event in
  (* Check for immediate threats *)
  (if Qle_bool critical_threshold score
   then lift (_create_alert (base world) critical_title
                (critical_description (event_type event)) CRITICAL
                [event_id event])
   else ret tt) ;;;
  (* Check for suspicious patterns *)
  _check_suspicious_patterns world event ;;;
  ret event.

Definition _detect_time_anomalies (world : World) (event : SecurityEvent)
  : SM unit :=
  match truthy_user (user_id event) with
  | None => ret tt
  | Some u =>
      (* Get user's normal activity hours *)
      normal_hours <- query_result world (GetUserNormalHours u)
                                   (user_normal_hours world u) ;;
      if bool_decide (hour_of (timestamp event) ∈ normal_hours) then ret tt
      else lift (_create_alert (base world) "Unusual Activity Time"
                   ("User " +:+ u +:+ " active outside normal hours")
                   MEDIUM [event_id event])
  end.

Definition _detect_anomalies (world : World) (event : SecurityEvent)
  : SM unit :=
  (* Time-based anomaly detection *)
  _detect_time_anomalies world event ;;;
  (* Volume-based anomaly detection *)
  query world (DetectVolumeAnomalies event) ;;;
  (* Behavioral anomaly detection *)
  query world (DetectBehavioralAnomalies event).

(** [log_security_event]; the value returned is the caller's event as the
    method left it. *)
Definition log_security_event (world : World) (event : SecurityEvent)
  : SM SecurityEvent :=
  r <- attempt (
         (* Store event in database *)
         _store_event world event ;;;
         (* Cache recent events in Redis *)
         _cache_event world event ;;;
         (* Perform real-time analysis *)
         analyzed <- _analyze_event world event ;;
         (* Check for anomalies *)
         _detect_anomalies world analyzed ;;;
         lift (log "info" ("Security event logged: " +:+ event_id event)) ;;;
         ret analyzed) ;;
  match r with
  | inr analyzed => ret analyzed
  | inl e =>
      lift (log "error" ("Failed to log security event: " +:+ str_exn e)) ;;;
      raise e
  end.

(** The events handed to [_store_event], oldest first. *)
Definition stored_events (qs : list (Query * option exn))
  : list SecurityEvent :=
  omap (fun entry => match entry with
                     | (StoreEvent e, _) => Some e
                     | _ => None
                     end) qs.

(** Computations that leave the part [f] of the session as it was. *)
Definition keeps {A B} (f : Session -> B) (m : SM A) : Prop :=
  forall s, f (snd (m s)) = f s.

End SecurityAnalysis.


(** ** More sample data *)

Module MoreSamples.
Import ComplianceMonitor.

(** The violation [_check_data_access_compliance] raises. *)
Definition medium_violation : ComplianceViolation :=
  mkViolation "viol_2" "custom_001" HIPAA MEDIUM "After-hours Data Access"
              "Data access outside business hours detected" [] 0 None None
              "open".

(** A cache that takes every command, with the event id standing for the
    JSON text and one fixed time text. *)
Definition calm_ingest : ComplianceIngest.IngestEnv :=
  ComplianceIngest.mkIngestEnv Samples.calm_env (fun _ _ => None) event_id
                               (fun _ => "1970-01-01T00:00:00").

Definition fresh_ingest : ComplianceIngest.Ingest :=
  ComplianceIngest.mkIngest (Samples.monitor_with [] 0) [].

End MoreSamples.

Module MoreSecuritySamples.
Import SecurityMonitor.

(** As [SecuritySamples.calm_env], with the alert store refusing every
    insert. *)
Definition store_down_env : Env :=
  mkEnv (fun _ _ => Ok false) (fun _ _ => Ok 0%Q) (fun _ _ => Ok 0%Q)
        (fun c _ => match c with
                    | StoreAlert _ =>
                        Some (PyError "OperationalError" "connection refused")
                    | _ => None
                    end)
        (fun _ _ => 0) (fun s => s) (fun _ => "alt_0").

(** As [SecuritySamples.calm_env], with the chat transport raising. *)
Definition slack_down_env : Env :=
  mkEnv (fun _ _ => Ok false) (fun _ _ => Ok 0%Q) (fun _ _ => Ok 0%Q)
        (fun c _ => match c with
                    | SendSlackAlert _ =>
                        Some (PyError "ConnectionError" "webhook unreachable")
                    | _ => None
                    end)
        (fun _ _ => 0) (fun s => s) (fun _ => "alt_0").

(** A world in which seven failed logins are on record for every address,
    users have no history, and every query returns at once. *)
Definition busy_world : SecurityAnalysis.World :=
  SecurityAnalysis.mkWorld SecuritySamples.calm_env
    (fun _ _ _ _ => Ok 7) (fun _ _ => Ok []) (fun _ _ _ _ => Ok false)
    (fun _ _ => Ok []) (fun _ _ => None) (fun _ _ => 0) event_id.

(** As [busy_world], with the event store down. *)
Definition no_database_world : SecurityAnalysis.World :=
  SecurityAnalysis.mkWorld SecuritySamples.calm_env
    (fun _ _ _ _ => Ok 7) (fun _ _ => Ok []) (fun _ _ _ _ => Ok false)
    (fun _ _ => Ok [])
    (fun q _ => match q with
                | SecurityAnalysis.StoreEvent _ =>
                    Some (PyError "OperationalError" "connection refused")
                | _ => None
                end)
    (fun _ _ => 0) event_id.

Definition fresh_session : SecurityAnalysis.Session :=
  SecurityAnalysis.mkSession (SecuritySamples.fresh_monitor 0) [].

End MoreSecuritySamples.

(** * Properties *)

(** ** The monad *)

Section MonadFacts.
Context {St : Type}.

Lemma bind_ok {A B} (m : M St A) (k : A -> M St B) s a s' :
  m s = (Ok a, s') -> bind m k s = k a s'.
Proof. intros H. unfold bind. now rewrite H. Qed.

Lemma bind_raise {A B} (m : M St A) (k : A -> M St B) s e s' :
  m s = (Raise e, s') -> bind m k s = (Raise e, s').
Proof. intros H. unfold bind. now rewrite H. Qed.

Lemma attempt_ok {A} (m : M St A) s a s' :
  m s = (Ok a, s') -> attempt m s = (Ok (inr a), s').
Proof. intros H. unfold attempt. now rewrite H. Qed.

Lemma attempt_raise {A} (m : M St A) s e s' :
  m s = (Raise e, s') -> attempt m s = (Ok (inl e), s').
Proof. intros H. unfold attempt. now rewrite H. Qed.

(** [try ... except Exception] lets nothing through. *)
Lemma attempt_total {A} (m : M St A) s :
  exists r, fst (attempt m s) = Ok r.
Proof.
  unfold attempt. destruct (m s) as [[a|e] s']; simpl; eauto.
Qed.

(** [try: m  except Exception as e: h(e)] returns when the handler
    does. *)
Lemma guarded_returns {A} (m : M St A) (h : exn -> M St unit) s :
  (forall e s', fst (h e s') = Ok tt) ->
  fst ((r <- attempt m ;;
        match r with inr _ => ret tt | inl e => h e end) s) = Ok tt.
Proof.
  intros Hh. unfold bind, attempt.
  destruct (m s) as [[a|e] s']; [reflexivity | apply Hh].
Qed.

Lemma for_fold_app {A B} (body : B -> A -> M St B) xs ys acc s acc' s' :
  for_fold body xs acc s = (Ok acc', s') ->
  for_fold body (xs ++ ys) acc s = for_fold body ys acc' s'.
Proof.
  revert acc s. induction xs as [|x xs IH]; simpl; intros acc s H.
  - unfold ret in H. now inversion H.
  - unfold bind in *. destruct (body acc x s) as [[a|e] s1]; [|discriminate].
    now apply IH.
Qed.

(** A loop whose body always returns, and keeps an invariant, returns and
    ends within the invariant. *)
Lemma for_fold_invariant {A B} (body : B -> A -> M St B)
      (I : list A -> B -> St -> Prop) xs :
  (forall done_ x acc s, I done_ acc s ->
     exists acc' s', body acc x s = (Ok acc', s')
                     /\ I (done_ ++ [x]) acc' s') ->
  forall done_ acc s, I done_ acc s ->
    exists acc' s', for_fold body xs acc s = (Ok acc', s')
                    /\ I (done_ ++ xs) acc' s'.
Proof.
  intros Hbody. induction xs as [|x xs IH]; simpl; intros done_ acc s HI.
  - exists acc, s. rewrite app_nil_r. auto.
  - destruct (Hbody done_ x acc s HI) as (acc1 & s1 & E & HI1).
    destruct (IH _ _ _ HI1) as (acc2 & s2 & E2 & HI2).
    exists acc2, s2. split.
    + now rewrite (bind_ok _ _ _ _ _ E).
    + now rewrite <- app_assoc in HI2.
Qed.

(** The same for a loop that may stop on a raise: if it returned, it
    ended within the invariant. *)
Lemma for_fold_returned {A B} (body : B -> A -> M St B)
      (I : list A -> B -> St -> Prop) xs :
  (forall done_ x acc s acc' s',
      I done_ acc s -> body acc x s = (Ok acc', s') ->
      I (done_ ++ [x]) acc' s') ->
  forall done_ acc s acc' s',
    I done_ acc s -> for_fold body xs acc s = (Ok acc', s') ->
    I (done_ ++ xs) acc' s'.
Proof.
  intros Hbody. induction xs as [|x xs IH]; simpl;
    intros done_ acc s acc' s' HI E.
  - unfold ret in E. injection E as <- <-. now rewrite app_nil_r.
  - unfold bind in E. destruct (body acc x s) as [[a|e] s1] eqn:Eb;
      [|discriminate].
    replace (done_ ++ x :: xs) with ((done_ ++ [x]) ++ xs)
      by now rewrite <- app_assoc.
    eapply IH; [|exact E]. eapply Hbody; eassumption.
Qed.

End MonadFacts.

(** ** The compliance monitor *)

Module ComplianceFacts.
Import ComplianceMonitor.

Lemma extends_refl w : extends w w.
Proof. exists []. now rewrite app_nil_r. Qed.

Lemma extends_trans w1 w2 w3 : extends w1 w2 -> extends w2 w3 -> extends w1 w3.
Proof.
  intros [l1 H1] [l2 H2]. exists (l1 ++ l2).
  now rewrite H2, H1, app_assoc.
Qed.

Lemma extends_record c o w : extends w (record_call c o w).
Proof. now exists [(c, o)]. Qed.

Lemma extends_elem w w' entry :
  extends w w' -> entry ∈ trace w -> entry ∈ trace w'.
Proof. intros [l H] Hin. rewrite H. apply elem_of_app. now left. Qed.

Lemma monotone_ret {A} (a : A) : monotone (ret a).
Proof. intros w. apply extends_refl. Qed.

Lemma monotone_raise {A} e : monotone (@raise _ A e).
Proof. intros w. apply extends_refl. Qed.

Lemma monotone_gets {A} (f : Monitor -> A) : monotone (gets f).
Proof. intros w. apply extends_refl. Qed.

Lemma monotone_bind {A B} (m : MM A) (k : A -> MM B) :
  monotone m -> (forall a, monotone (k a)) -> monotone (bind m k).
Proof.
  intros Hm Hk w. unfold bind. specialize (Hm w).
  destruct (m w) as [[a|e] w1]; simpl in *; [|assumption].
  eapply extends_trans; [eassumption | apply Hk].
Qed.

Lemma monotone_attempt {A} (m : MM A) : monotone m -> monotone (attempt m).
Proof.
  intros Hm w. unfold attempt. specialize (Hm w).
  now destruct (m w) as [[a|e] w1].
Qed.

Lemma monotone_external env c : monotone (external env c).
Proof.
  intros w. unfold external.
  destruct (outcome env c w); simpl; apply extends_record.
Qed.

Lemma monotone_external_result {A} c (answer : Monitor -> Res A) :
  monotone (external_result c answer).
Proof.
  intros w. unfold external_result.
  destruct (answer w); simpl; apply extends_record.
Qed.

Lemma monotone_log level msg : monotone (log level msg).
Proof. intros w. apply extends_record. Qed.

Lemma monotone_modify f :
  (forall w, trace (f w) = trace w) -> monotone (modify f).
Proof. intros H w. exists []. simpl. now rewrite H, app_nil_r. Qed.

Lemma monotone_for_each {A} (body : A -> MM unit) xs :
  (forall x, monotone (body x)) -> monotone (for_each body xs).
Proof.
  intros H. induction xs; simpl.
  - apply monotone_ret.
  - apply monotone_bind; auto.
Qed.

Lemma monotone_for_fold {A B} (body : B -> A -> MM B) xs acc :
  (forall b x, monotone (body b x)) -> monotone (for_fold body xs acc).
Proof.
  intros H. revert acc. induction xs; simpl; intros acc.
  - apply monotone_ret.
  - apply monotone_bind; auto.
Qed.

Ltac monotone :=
  repeat first
    [ apply monotone_ret | apply monotone_raise | apply monotone_gets
    | apply monotone_log | apply monotone_external
    | apply monotone_external_result | apply monotone_attempt
    | apply monotone_modify; intros; reflexivity
    | apply monotone_for_each; intros
    | apply monotone_for_fold; intros
    | apply monotone_bind; [|intros]
    | match goal with
      | |- monotone (match ?x with _ => _ end) => destruct x
      | |- monotone (if ?x then _ else _) => destruct x
      end ].

Lemma monotone_execute_rule_check env rule :
  monotone (_execute_rule_check env rule).
Proof.
  unfold _execute_rule_check, getattr_check.
  destruct (bool_decide _).
  - unfold builtin_check. monotone.
  - destruct (other_attr env _); monotone.
Qed.

Lemma monotone_handle_violation env v : monotone (_handle_violation env v).
Proof.
  unfold _handle_violation, _send_violation_notification,
    _send_email_notification.
  monotone.
Qed.

Lemma monotone_check_rule_step env fw res rule :
  monotone (check_rule_step env fw res rule).
Proof.
  unfold check_rule_step, _generate_violation_id.
  apply monotone_bind.
  - apply monotone_attempt, monotone_execute_rule_check.
  - intros [e|[[] d]]; monotone.
Qed.

(** *** One rule of a framework check *)

Lemma check_rule_step_raise env fw res rule w e w1 :
  _execute_rule_check env rule w = (Raise e, w1) ->
  check_rule_step env fw res rule w
  = (Ok res, record_call (fst (check_failed_entry rule e)) None w1).
Proof.
  intros H. unfold check_rule_step.
  rewrite (bind_ok _ _ _ _ _ (attempt_raise _ _ _ _ H)).
  reflexivity.
Qed.

Lemma check_rule_step_pass env fw res rule w d w1 :
  _execute_rule_check env rule w = (Ok (true, d), w1) ->
  check_rule_step env fw res rule w = (Ok (add_compliant res), w1).
Proof.
  intros H. unfold check_rule_step.
  rewrite (bind_ok _ _ _ _ _ (attempt_ok _ _ _ _ H)).
  reflexivity.
Qed.

Lemma check_rule_step_fail env fw res rule w d w1 :
  _execute_rule_check env rule w = (Ok (false, d), w1) ->
  exists w2,
    check_rule_step env fw res rule w
    = (Ok (add_violation
             (new_violation (fresh_violation_id env w1) rule fw d (now w1))
             res), w2).
Proof.
  intros H. unfold check_rule_step.
  rewrite (bind_ok _ _ _ _ _ (attempt_ok _ _ _ _ H)).
  unfold _generate_violation_id, gets, bind at 1 2. 
  unfold bind, attempt.
  destruct (_handle_violation env _ w1) as [[[]|e] w2]; simpl; eauto.
Qed.

(** What a step can do to the tallies: the total stays, and the rule lands
    in at most one of the compliant count and the violation list. *)
Lemma check_rule_step_tally env fw res rule w :
  exists res' w',
    check_rule_step env fw res rule w = (Ok res', w') /\
    total_rules res' = total_rules res /\
    (compliant_rules res' + length (fr_violations res')
     <= S (compliant_rules res + length (fr_violations res)))%nat /\
    (exists more, fr_violations res' = fr_violations res ++ more).
Proof.
  destruct (_execute_rule_check env rule w) as [[[[] d]|e] w1] eqn:E.
  - rewrite (check_rule_step_pass _ _ _ _ _ _ _ E).
    do 2 eexists. split; [reflexivity|]. simpl.
    repeat split; [lia | exists []; now rewrite app_nil_r].
  - destruct (check_rule_step_fail _ fw res _ _ _ _ E) as [w2 ->].
    do 2 eexists. split; [reflexivity|]. simpl.
    repeat split; [rewrite length_app; simpl; lia | eauto].
  - rewrite (check_rule_step_raise _ _ _ _ _ _ _ E).
    do 2 eexists. split; [reflexivity|]. simpl.
    repeat split; [lia | exists []; now rewrite app_nil_r].
Qed.

(** The loop over the rules of a framework always runs to its end. *)
Lemma framework_loop_tally env fw rs res w :
  exists res' w',
    for_fold (check_rule_step env fw) rs res w = (Ok res', w') /\
    total_rules res' = total_rules res /\
    (compliant_rules res' + length (fr_violations res')
     <= compliant_rules res + length (fr_violations res) + length rs)%nat /\
    (exists more, fr_violations res' = fr_violations res ++ more).
Proof.
  destruct (for_fold_invariant (check_rule_step env fw)
              (fun done_ r _ =>
                 total_rules r = total_rules res /\
                 (compliant_rules r + length (fr_violations r)
                  <= compliant_rules res + length (fr_violations res)
                     + length done_)%nat /\
                 (exists more, fr_violations r = fr_violations res ++ more))
              rs) with (done_ := @nil ComplianceRule) (acc := res) (s := w)
    as (res' & w' & E & Ht & Hc & Hv).
  - intros done_ x acc s (Ht & Hc & [more Hv]).
    destruct (check_rule_step_tally env fw acc x s)
      as (acc' & s' & E & Ht' & Hc' & [more' Hv']).
    exists acc', s'. split; [assumption|].
    rewrite length_app. simpl. repeat split; [congruence | lia |].
    exists (more ++ more'). now rewrite Hv', Hv, app_assoc.
  - simpl. repeat split; [lia | exists []; now rewrite app_nil_r].
  - exists res', w'. simpl in Hc. auto.
Qed.

(** *** Classification *)

Lemma classify_compliant q : classify q = COMPLIANT <-> (q == 1)%Q.
Proof.
  unfold classify. destruct (Qeq_bool q 1) eqn:E.
  - apply Qeq_bool_iff in E. tauto.
  - split; [destruct (Qle_bool _ _); discriminate|].
    intros H. apply Qeq_bool_iff in H. congruence.
Qed.

Lemma classify_partial q :
  classify q = PARTIALLY_COMPLIANT <-> (~ q == 1 /\ 8 # 10 <= q)%Q.
Proof.
  unfold classify. destruct (Qeq_bool q 1) eqn:E.
  - apply Qeq_bool_iff in E. split; [discriminate | tauto].
  - assert (~ (q == 1)%Q) by (intros H; apply Qeq_bool_iff in H; congruence).
    destruct (Qle_bool (8 # 10) q) eqn:L.
    + apply Qle_bool_iff in L. tauto.
    + split; [discriminate|]. intros [_ L'].
      apply Qle_bool_iff in L'. congruence.
Qed.

Lemma classify_non q : classify q = NON_COMPLIANT <-> (q < 8 # 10)%Q.
Proof.
  unfold classify. destruct (Qeq_bool q 1) eqn:E.
  - apply Qeq_bool_iff in E. split; [discriminate|].
    intros H. rewrite E in H. discriminate.
  - destruct (Qle_bool (8 # 10) q) eqn:L.
    + apply Qle_bool_iff in L. split; [discriminate|].
      intros H. now apply Qlt_not_le in H.
    + split; [|reflexivity]. intros _. apply Qnot_le_lt.
      intros H. apply Qle_bool_iff in H. congruence.
Qed.

Lemma ratio_le_1 (c t : nat) :
  (c <= t)%nat -> (0 < t)%nat -> (Z.of_nat c # Pos.of_nat t <= 1)%Q.
Proof.
  intros Hc Ht. unfold Qle. simpl.
  rewrite Z.mul_1_r, Z.mul_1_l.
  rewrite <- (Nat2Pos.id t) in Hc by lia.
  rewrite <- positive_nat_Z. lia.
Qed.

(** [_check_framework_compliance], its loop set apart. *)
Lemma check_framework_run env fw w :
  _check_framework_compliance env fw w
  = match for_fold (check_rule_step env fw) (framework_rules fw (rules w))
                   (initial_results fw w) w with
    | (Ok results, w') =>
        match compliance_percentage results with
        | Raise e => (Raise e, w')
        | Ok pct => (Ok (set_status (classify pct) results), w')
        end
    | (Raise e, w') => (Raise e, w')
    end.
Proof.
  unfold _check_framework_compliance, bind, gets, initial_results.
  destruct (for_fold _ _ _ _) as [[r|e] w']; [|reflexivity].
  now destruct (compliance_percentage r).
Qed.

(** The loop counts as compliant exactly the rules whose check answered
    [True]. *)
Lemma framework_loop_count env fw rs : forall res w,
  exists res' w',
    for_fold (check_rule_step env fw) rs res w = (Ok res', w') /\
    total_rules res' = total_rules res /\
    compliant_rules res'
    = (compliant_rules res + count_true (loop_verdicts env fw rs res w))%nat.
Proof.
  induction rs as [|rule rest IH]; intros res w.
  - exists res, w. cbn. repeat split. unfold count_true. cbn. lia.
  - cbn [for_fold loop_verdicts].
    destruct (_execute_rule_check env rule w) as [[[[] d]|e] w1] eqn:E.
    + rewrite (bind_ok _ _ _ _ _ (check_rule_step_pass _ fw res _ _ _ _ E)).
      rewrite (check_rule_step_pass _ fw res _ _ _ _ E).
      destruct (IH (add_compliant res) w1) as (res' & w' & E' & Ht & Hc).
      exists res', w'. split; [exact E'|]. split; [exact Ht|].
      rewrite Hc. unfold count_true. cbn. lia.
    + destruct (check_rule_step_fail _ fw res _ _ _ _ E) as [w2 E2].
      rewrite (bind_ok _ _ _ _ _ E2), E2.
      destruct (IH (add_violation
                      (new_violation (fresh_violation_id env w1) rule fw d
                                     (now w1)) res) w2)
        as (res' & w' & E' & Ht & Hc).
      exists res', w'. split; [exact E'|]. split; [exact Ht|].
      rewrite Hc. unfold count_true. cbn. lia.
    + rewrite (bind_ok _ _ _ _ _ (check_rule_step_raise _ fw res _ _ _ _ E)).
      rewrite (check_rule_step_raise _ fw res _ _ _ _ E).
      destruct (IH res (record_call (fst (check_failed_entry rule e)) None w1))
        as (res' & w' & E' & Ht & Hc).
      exists res', w'. split; [exact E'|]. split; [exact Ht|].
      rewrite Hc. unfold count_true. cbn. lia.
Qed.

Lemma loop_verdicts_length env fw rs : forall res w,
  length (loop_verdicts env fw rs res w) = length rs.
Proof.
  induction rs as [|rule rest IH]; intros res w; [reflexivity|].
  cbn [loop_verdicts length]. f_equal.
  destruct (check_rule_step_tally env fw res rule w) as (res' & w' & E & _).
  rewrite E. apply IH.
Qed.

Lemma count_true_le vs : (count_true vs <= length vs)%nat.
Proof. unfold count_true. apply List.filter_length_le. Qed.

(** When each rule's check answers the same in every state, the count is
    that of the rules whose check answers [True]. *)
Lemma count_true_steady env fw (passes : ComplianceRule -> bool) rs :
  (forall rule s, rule ∈ rs ->
     exists d, fst (_execute_rule_check env rule s) = Ok (passes rule, d)) ->
  forall res w,
    count_true (loop_verdicts env fw rs res w)
    = length (List.filter passes rs).
Proof.
  induction rs as [|rule rest IH]; intros Hsteady res w; [reflexivity|].
  cbn [loop_verdicts List.filter].
  destruct (Hsteady rule w) as [d Hd]; [apply list_elem_of_here|].
  destruct (check_rule_step_tally env fw res rule w) as (res' & w' & E & _).
  rewrite E. unfold count_true in *. cbn [List.filter]. rewrite Hd.
  cbn [answered_true].
  specialize (IH (fun r s Hin => Hsteady r s (list_elem_of_further _ _ _ Hin))
                 res' w').
  destruct (passes rule); cbn [length]; now rewrite IH.
Qed.

(** C2: a framework with at least one enabled rule is classified from the
    ratio of the rules whose check answered [True] to its enabled rules: a
    ratio of 1 gives COMPLIANT, a ratio of at least 0.8 and below 1 gives
    PARTIALLY_COMPLIANT, a ratio below 0.8 gives NON_COMPLIANT. The count
    the result reports is that number, and where every check answers the
    same whenever asked it is the number of rules whose check answers
    [True]. *)
Theorem framework_status_by_ratio env fw w :
  framework_rules fw (rules w) <> [] ->
  let todo := framework_rules fw (rules w) in
  let passed :=
    count_true (loop_verdicts env fw todo (initial_results fw w) w) in
  let ratio := (Z.of_nat passed # Pos.of_nat (length todo))%Q in
  exists res w',
    _check_framework_compliance env fw w = (Ok res, w') /\
    total_rules res = length todo /\
    compliant_rules res = passed /\
    (passed <= length todo)%nat /\
    (fr_status res = COMPLIANT <-> ratio == 1)%Q /\
    (fr_status res = PARTIALLY_COMPLIANT <-> 8 # 10 <= ratio /\ ratio < 1)%Q /\
    (fr_status res = NON_COMPLIANT <-> ratio < 8 # 10)%Q /\
    (forall passes : ComplianceRule -> bool,
        (forall rule s, rule ∈ todo ->
           exists d,
             fst (_execute_rule_check env rule s) = Ok (passes rule, d)) ->
        passed = length (List.filter passes todo)).
Proof.
  intros Hne todo passed ratio. rewrite check_framework_run. fold todo.
  destruct (framework_loop_count env fw todo (initial_results fw w) w)
    as (res & w' & E & Ht & Hc).
  cbn [initial_results total_rules compliant_rules] in Ht, Hc.
  fold todo in Ht. rewrite Nat.add_0_l in Hc. fold passed in Hc.
  assert (Hle : (passed <= length todo)%nat).
  { unfold passed.
    rewrite <- (loop_verdicts_length env fw todo (initial_results fw w) w).
    apply count_true_le. }
  assert (0 < length todo)%nat.
  { unfold todo. destruct (framework_rules fw (rules w));
      [congruence | simpl; lia]. }
  rewrite E. unfold compliance_percentage. rewrite Ht, Hc.
  destruct (length todo) as [|n] eqn:L; [lia|].
  exists (set_status (classify ratio) res), w'.
  split; [reflexivity|]. cbn [set_status total_rules compliant_rules fr_status].
  split; [exact Ht|]. split; [exact Hc|]. split; [exact Hle|].
  assert (ratio <= 1)%Q by (apply ratio_le_1; lia).
  split; [apply classify_compliant|].
  split; [|split; [apply classify_non|]].
  - rewrite classify_partial. split; intros [A B]; split; try assumption.
    + apply Qle_lteq in H0. tauto.
    + intros Heq. rewrite Heq in B. now apply Qlt_irrefl in B.
  - intros passes Hsteady. apply count_true_steady. exact Hsteady.
Qed.

Lemma framework_status_by_ratio_witness :
  exists res w',
    _check_framework_compliance Samples.calm_env HIPAA
      (Samples.monitor_with (Samples.numbered_rules HIPAA "r" 8 10) 0)
    = (Ok res, w') /\
    total_rules res = 10%nat /\
    compliant_rules res = 8%nat /\
    fr_status res = PARTIALLY_COMPLIANT /\
    length (List.filter
              (fun rule => String.eqb (check_function rule) "check_passes")
              (Samples.numbered_rules HIPAA "r" 8 10)) = 8%nat.
Proof.
  destruct (framework_status_by_ratio Samples.calm_env HIPAA
              (Samples.monitor_with (Samples.numbered_rules HIPAA "r" 8 10) 0))
    as (res & w' & E & Ht & Hc & _ & _ & Hp & _ & Hsteady);
    [vm_compute; discriminate|].
  exists res, w'. split; [exact E|]. split; [exact Ht|].
  split; [exact Hc|]. split.
  - apply Hp. split; vm_compute; [discriminate | reflexivity].
  - change (length
              (List.filter
                 (fun rule => String.eqb (check_function rule) "check_passes")
                 (framework_rules HIPAA
                    (rules (Samples.monitor_with
                              (Samples.numbered_rules HIPAA "r" 8 10) 0))))
            = 8%nat).
    rewrite <- (Hsteady
                  (fun rule => String.eqb (check_function rule) "check_passes")).
    + vm_compute. reflexivity.
    + intros rule s Hin. vm_compute in Hin.
      repeat (apply elem_of_cons in Hin; destruct Hin as [->|Hin];
              [eexists; reflexivity|]).
      apply elem_of_nil in Hin. contradiction.
Defined.

Example ten_of_ten :
  status_of (_check_framework_compliance Samples.calm_env HIPAA
               (Samples.monitor_with
                  (Samples.numbered_rules HIPAA "r" 10 10) 0))
  = Some (10%nat, 10%nat, COMPLIANT).
Proof. vm_compute. reflexivity. Qed.

Example eight_of_ten :
  status_of (_check_framework_compliance Samples.calm_env HIPAA
               (Samples.monitor_with
                  (Samples.numbered_rules HIPAA "r" 8 10) 0))
  = Some (8%nat, 10%nat, PARTIALLY_COMPLIANT).
Proof. vm_compute. reflexivity. Qed.

Example seven_of_ten :
  status_of (_check_framework_compliance Samples.calm_env HIPAA
               (Samples.monitor_with
                  (Samples.numbered_rules HIPAA "r" 7 10) 0))
  = Some (7%nat, 10%nat, NON_COMPLIANT).
Proof. vm_compute. reflexivity. Qed.

(** *** Checks that raise *)

(** A built-in check turns whatever its query raises into a failed verdict
    carrying the message. *)
Lemma builtin_check_catches env rule w e :
  check_function rule ∈ builtin_checks ->
  check_query env (check_function rule) (parameters rule) w = Raise e ->
  _execute_rule_check env rule w
  = (Ok (false, [("error", PyStr (str_exn e))]),
     record_call (QueryCheck (check_function rule) (parameters rule))
                 (Some e) w).
Proof.
  intros Hin Hq. unfold _execute_rule_check, getattr_check.
  rewrite bool_decide_eq_true_2 by assumption.
  unfold builtin_check, bind, attempt, external_result. now rewrite Hq.
Qed.

(** A name the object does not have makes [_execute_rule_check] raise. *)
Lemma unknown_check_raises env rule w :
  check_function rule ∉ builtin_checks ->
  other_attr env (check_function rule) = None ->
  _execute_rule_check env rule w
  = (Raise (ValueError ("Check function " +:+ check_function rule
                        +:+ " not found")), w).
Proof.
  intros Hin Hq. unfold _execute_rule_check, getattr_check.
  rewrite bool_decide_eq_false_2 by assumption. now rewrite Hq.
Qed.

Lemma ratio_1_inv (c t : nat) :
  (0 < t)%nat -> (Z.of_nat c # Pos.of_nat t == 1)%Q -> c = t.
Proof.
  intros Ht H. unfold Qeq in H. simpl in H.
  rewrite Z.mul_1_r, Z.mul_1_l in H.
  rewrite <- (Nat2Pos.id t) by lia.
  rewrite <- positive_nat_Z in H. lia.
Qed.

(** C1 (as the code has it): when the turn of an enabled rule comes and
    [_execute_rule_check] raises, the rule is counted neither as compliant
    nor as a violation, the failure is logged, and the framework cannot come
    out COMPLIANT; when the query of a built-in check raises, the check
    itself answers (False, {"error": message}) and the rule is reported as a
    violation with the rule's severity and that evidence. *)
Theorem raising_check_fails_closed env fw w pre rule post :
  framework_rules fw (rules w) = pre ++ rule :: post ->
  exists res1 w1 res w',
    for_fold (check_rule_step env fw) pre (initial_results fw w) w
    = (Ok res1, w1) /\
    _check_framework_compliance env fw w = (Ok res, w') /\
    (forall e w2,
        _execute_rule_check env rule w1 = (Raise e, w2) ->
        (compliant_rules res + length (fr_violations res)
         < total_rules res)%nat /\
        fr_status res <> COMPLIANT /\
        check_failed_entry rule e ∈ trace w') /\
    (forall e,
        check_function rule ∈ builtin_checks ->
        check_query env (check_function rule) (parameters rule) w1 = Raise e ->
        exists v, v ∈ fr_violations res /\
                  v_rule_id v = rule_id rule /\
                  v_framework v = fw /\
                  v_severity v = severity rule /\
                  details v = [("error", PyStr (str_exn e))]).
Proof.
  intros Hrules. rewrite check_framework_run, Hrules.
  set (res0 := initial_results fw w).
  assert (Htotal : total_rules res0 = length (pre ++ rule :: post))
    by (unfold res0, initial_results; simpl; now rewrite Hrules).
  destruct (framework_loop_tally env fw pre res0 w)
    as (res1 & w1 & E1 & Ht1 & Hc1 & _).
  destruct (check_rule_step_tally env fw res1 rule w1)
    as (res2 & w2 & E2 & Ht2 & Hc2 & Hv2).
  destruct (framework_loop_tally env fw post res2 w2)
    as (res3 & w3 & E3 & Ht3 & Hc3 & [more3 Hv3]).
  assert (Hw : extends w2 w3).
  { pose proof (monotone_for_fold (check_rule_step env fw) post res2
                  (monotone_check_rule_step env fw) w2) as Hm.
    now rewrite E3 in Hm. }
  rewrite (for_fold_app _ _ _ _ _ _ _ E1). simpl for_fold.
  rewrite (bind_ok _ _ _ _ _ E2), E3.
  assert (Hlen : total_rules res3 = S (length pre + length post)).
  { rewrite Ht3, Ht2, Ht1, Htotal, length_app. simpl. lia. }
  unfold compliance_percentage.
  destruct (total_rules res3) as [|n] eqn:Ltot; [lia|].
  set (q := (Z.of_nat (compliant_rules res3) # Pos.of_nat (S n))%Q).
  exists res1, w1, (set_status (classify q) res3), w3.
  split; [exact E1|]. split; [reflexivity|]. simpl. rewrite Ltot. split.
  - intros e w2' Hraise.
    rewrite (check_rule_step_raise _ _ _ _ _ _ _ Hraise) in E2.
    inversion E2; subst res2 w2. clear E2.
    simpl in Hc1. split; [lia|]. split.
    + intros Hc. apply classify_compliant in Hc.
      apply ratio_1_inv in Hc; lia.
    + eapply extends_elem; [exact Hw|]. simpl.
      apply elem_of_app. right. apply list_elem_of_singleton. reflexivity.
  - intros e Hin Hq.
    pose proof (builtin_check_catches env rule w1 e Hin Hq) as Hrun.
    destruct (check_rule_step_fail env fw res1 _ _ _ _ Hrun) as [w2' E2'].
    rewrite E2' in E2. inversion E2; subst res2 w2. clear E2.
    eexists. split.
    + rewrite Hv3. simpl. apply elem_of_app. left.
      apply elem_of_app. right. apply list_elem_of_singleton. reflexivity.
    + simpl. auto.
Qed.

Lemma raising_check_fails_closed_witness :
  (exists res w',
      _check_framework_compliance Samples.calm_env HIPAA
        (Samples.monitor_with [Samples.misnamed_rule] 0) = (Ok res, w') /\
      (compliant_rules res + length (fr_violations res)
       < total_rules res)%nat /\
      fr_status res <> COMPLIANT) /\
  (exists res w' v,
      _check_framework_compliance Samples.db_down_env HIPAA
        (initial_monitor true false 0) = (Ok res, w') /\
      v ∈ fr_violations res /\
      v_rule_id v = "hipaa_001" /\
      v_severity v = HIGH /\
      details v = [("error", PyStr "connection refused")]).
Proof.
  split.
  - destruct (raising_check_fails_closed Samples.calm_env HIPAA
                (Samples.monitor_with [Samples.misnamed_rule] 0)
                [] Samples.misnamed_rule [] eq_refl)
      as (res1 & w1 & res & w' & E1 & E & Hraise & _).
    injection E1 as <- <-.
    destruct (Hraise _ _ eq_refl) as (Hc & Hs & _).
    exists res, w'. auto.
  - destruct (raising_check_fails_closed Samples.db_down_env HIPAA
                (initial_monitor true false 0)
                [] (hd Samples.misnamed_rule default_rules)
                (tl (framework_rules HIPAA default_rules)) eq_refl)
      as (res1 & w1 & res & w' & E1 & E & _ & Hcatch).
    injection E1 as <- <-.
    destruct (Hcatch (PyError "OperationalError" "connection refused"))
      as (v & Hv & Hid & _ & Hsev & Hd).
    + vm_compute. apply list_elem_of_here.
    + reflexivity.
    + exists res, w', v. auto.
Defined.

(** C1, as stated, fails: a rule whose check raises (the method is missing,
    or it raises itself) is not reported as a violation. *)
Lemma raising_check_not_reported :
  fst (_execute_rule_check Samples.calm_env Samples.misnamed_rule
         (Samples.monitor_with [Samples.misnamed_rule] 0))
  = Raise (ValueError "Check function check_firewall not found") /\
  violations_of (_check_framework_compliance Samples.calm_env HIPAA
                   (Samples.monitor_with [Samples.misnamed_rule] 0))
  = Some [] /\
  fst (_execute_rule_check Samples.calm_env Samples.raising_rule
         (Samples.monitor_with [Samples.raising_rule] 0))
  = Raise (PyError "RuntimeError" "boom") /\
  violations_of (_check_framework_compliance Samples.calm_env HIPAA
                   (Samples.monitor_with [Samples.raising_rule] 0))
  = Some [].
Proof. vm_compute. auto. Qed.

(** *** [check_compliance] *)

(** C3 fails on the code: with the rules the class registers, SOX has no
    enabled rule, the percentage divides by zero, and [check_compliance]
    logs the exception and raises it again, whether SOX is asked for or all
    frameworks are. *)
Theorem check_compliance_without_rules_raises :
  framework_rules SOX default_rules = [] /\
  fst (check_compliance Samples.calm_env (Some SOX)
         (initial_monitor true false 0)) = Raise ZeroDivisionError /\
  fst (check_compliance Samples.calm_env None
         (initial_monitor true false 0)) = Raise ZeroDivisionError /\
  (Log "error" "Compliance check failed: division by zero", None)
  ∈ trace (snd (check_compliance Samples.calm_env (Some SOX)
                  (initial_monitor true false 0))).
Proof.
  repeat split; try (vm_compute; reflexivity).
  vm_compute. apply list_elem_of_here.
Qed.

(** Whatever the collaborators do, a framework without enabled rules makes
    [check_compliance] raise. *)
Lemma check_compliance_zero_rules env fw w :
  framework_rules fw (rules w) = [] ->
  fst (check_compliance env (Some fw) w) = Raise ZeroDivisionError.
Proof.
  intros H.
  assert (E : _check_framework_compliance env fw w
              = (Raise ZeroDivisionError, w)).
  { rewrite check_framework_run. unfold initial_results.
    rewrite H. reflexivity. }
  unfold check_compliance, attempt, bind, gets. simpl.
  unfold check_compliance_step at 1, bind. rewrite E. reflexivity.
Qed.

Lemma check_compliance_step_returned env r fw r' w w' :
  check_compliance_step env r fw w = (Ok r', w') ->
  exists fr,
    (fr_status fr = COMPLIANT \/ fr_status fr = PARTIALLY_COMPLIANT
     \/ fr_status fr = NON_COMPLIANT) /\
    frameworks r' = frameworks r ++ [(framework_value fw, fr)] /\
    violations r' = violations r ++ fr_violations fr /\
    overall_status r'
    = (if decide (fr_status fr = NON_COMPLIANT) then NON_COMPLIANT
       else if decide (fr_status fr = PARTIALLY_COMPLIANT)
            then (if decide (overall_status r = COMPLIANT)
                  then PARTIALLY_COMPLIANT else overall_status r)
            else overall_status r).
Proof.
  unfold check_compliance_step, bind. rewrite check_framework_run.
  destruct (for_fold _ _ _ _) as [[res|e] w1]; [|discriminate].
  destruct (compliance_percentage res) as [pct|e]; [|discriminate].
  unfold ret. intros E. injection E as <- <-.
  exists (set_status (classify pct) res). simpl.
  split; [|auto]. unfold classify.
  destruct (Qeq_bool pct 1); [auto|]. destruct (Qle_bool _ _); auto.
Qed.

Lemma aggregate_status_snoc sts st :
  st <> UNKNOWN ->
  aggregate_status (sts ++ [st])
  = (if decide (st = NON_COMPLIANT) then NON_COMPLIANT
     else if decide (st = PARTIALLY_COMPLIANT)
          then (if decide (aggregate_status sts = COMPLIANT)
                then PARTIALLY_COMPLIANT else aggregate_status sts)
          else aggregate_status sts).
Proof.
  intros Hst. unfold aggregate_status.
  repeat case_bool_decide; repeat case_decide;
    rewrite ?elem_of_app, ?list_elem_of_singleton in *;
    try congruence; try tauto; destruct st; intuition congruence.
Qed.

(** [check_compliance], its loop set apart. *)
Lemma check_compliance_run env fw w :
  check_compliance env fw w
  = let failed e w :=
      (Raise e, record_call (Log "error" ("Compliance check failed: "
                                          +:+ str_exn e)) None w) in
    match for_fold (check_compliance_step env) (frameworks_to_check fw)
                   (mkComplianceResults (now w) [] COMPLIANT [] []) w with
    | (Ok r, w1) =>
        match recommend env r w1 with
        | Ok recs =>
            let w2 := record_call (GenerateRecommendations r) None w1 in
            let r' := set_recommendations recs r in
            match outcome env (StoreComplianceResults r') w2 with
            | None => (Ok r', record_call (StoreComplianceResults r') None w2)
            | Some e =>
                failed e (record_call (StoreComplianceResults r') (Some e) w2)
            end
        | Raise e =>
            failed e (record_call (GenerateRecommendations r) (Some e) w1)
        end
    | (Raise e, w1) => failed e w1
    end.
Proof.
  unfold check_compliance, frameworks_to_check, bind, attempt, gets,
    external_result, external, log, modify, raise, ret.
  destruct (for_fold _ _ _ _) as [[r|e] w1]; [|reflexivity].
  destruct (recommend env r w1) as [recs|e]; [|reflexivity].
  now destruct (outcome env _ _).
Qed.

(** The step hands on what the framework check returned. *)
Lemma check_compliance_step_result env r fw r' w w' :
  check_compliance_step env r fw w = (Ok r', w') ->
  exists fr,
    _check_framework_compliance env fw w = (Ok fr, w') /\
    frameworks r' = frameworks r ++ [(framework_value fw, fr)].
Proof.
  unfold check_compliance_step, bind.
  destruct (_check_framework_compliance env fw w) as [[fr|e] w1];
    [|discriminate].
  unfold ret. intros E. injection E as <- <-. exists fr. auto.
Qed.

(** C10: the overall status of a returned [check_compliance] is
    NON_COMPLIANT if any checked framework is, else PARTIALLY_COMPLIANT if
    any is, else COMPLIANT; its violations are those of the checked
    frameworks, concatenated in the order checked. The result holds one
    entry per framework asked for, in order, each being what the check of
    that framework returned. *)
Theorem overall_status_aggregates env fw w results w' :
  check_compliance env fw w = (Ok results, w') ->
  Forall2 (fun f entry =>
             fst entry = framework_value f /\
             exists s, fst (_check_framework_compliance env f s)
                       = Ok (snd entry))
          (frameworks_to_check fw) (frameworks results) /\
  map fst (frameworks results)
  = map framework_value (frameworks_to_check fw) /\
  overall_status results
  = aggregate_status (map (fun p => fr_status (snd p)) (frameworks results)) /\
  violations results
  = concat (map (fun p => fr_violations (snd p)) (frameworks results)).
Proof.
  intros Hrun.
  set (I := fun (done_ : list ComplianceFramework) (r : ComplianceResults)
                (_ : Monitor) =>
              Forall2 (fun f entry =>
                         fst entry = framework_value f /\
                         exists s, fst (_check_framework_compliance env f s)
                                   = Ok (snd entry))
                      done_ (frameworks r) /\
              map fst (frameworks r) = map framework_value done_ /\
              overall_status r
              = aggregate_status
                  (map (fun p => fr_status (snd p)) (frameworks r)) /\
              violations r
              = concat (map (fun p => fr_violations (snd p)) (frameworks r))).
  assert (Hstep : forall done_ x acc s acc' s',
             I done_ acc s -> check_compliance_step env acc x s = (Ok acc', s')
             -> I (done_ ++ [x]) acc' s').
  { intros done_ x acc s acc' s' (Hf & Hk & Ho & Hv) E.
    destruct (check_compliance_step_returned _ _ _ _ _ _ E)
      as (fr & Hfr & Hf' & Hv' & Ho').
    destruct (check_compliance_step_result _ _ _ _ _ _ E)
      as (fr2 & Erun & Hf2).
    assert (fr2 = fr).
    { rewrite Hf' in Hf2. apply app_inv_head in Hf2. congruence. }
    subst fr2.
    unfold I. rewrite Hf', Hv', Ho'. rewrite !map_app, concat_app. simpl.
    rewrite app_nil_r. split; [|split; [now rewrite Hk|]].
    - apply Forall2_app; [exact Hf|]. constructor; [|constructor].
      split; [reflexivity|]. exists s. simpl. now rewrite Erun.
    - split; [|now rewrite Hv].
      rewrite aggregate_status_snoc, <- Ho; [reflexivity|].
      intros Hu. rewrite Hu in Hfr. intuition discriminate. }
  rewrite check_compliance_run in Hrun. cbv zeta in Hrun.
  destruct (for_fold _ _ _ _) as [[r|e] w1] eqn:Eloop; [|discriminate].
  assert (I0 : I [] (mkComplianceResults (now w) [] COMPLIANT [] []) w)
    by (unfold I; simpl; repeat split; constructor).
  destruct (for_fold_returned _ I _ Hstep [] _ _ _ _ I0 Eloop)
    as (Hf & Hk & Ho & Hv).
  destruct (recommend env r w1) as [recs|e]; [|discriminate].
  destruct (outcome env _ _); [discriminate|].
  injection Hrun as <- <-. simpl. auto.
Qed.

Lemma overall_status_aggregates_witness :
  exists results w',
    check_compliance Samples.calm_env None
      (Samples.monitor_with Samples.mixed_registry 0) = (Ok results, w') /\
    map fst (frameworks results) = ["hipaa"; "sox"; "gdpr"; "iso27001"; "nist"] /\
    map (fun p => fr_status (snd p)) (frameworks results)
    = [PARTIALLY_COMPLIANT; COMPLIANT; NON_COMPLIANT; COMPLIANT; COMPLIANT] /\
    overall_status results = NON_COMPLIANT /\
    map (fun p => map v_rule_id (fr_violations (snd p))) (frameworks results)
    = [["h8"; "h9"]; []; ["g7"; "g8"; "g9"]; []; []] /\
    map v_rule_id (violations results) = ["h8"; "h9"; "g7"; "g8"; "g9"].
Proof.
  destruct (check_compliance Samples.calm_env None
              (Samples.monitor_with Samples.mixed_registry 0))
    as [[results|e] w'] eqn:E.
  - exists results, w'. split; [reflexivity|].
    destruct (overall_status_aggregates _ _ _ _ _ E) as (_ & Hk & Ho & Hv).
    vm_compute in E. injection E as E1 E2. subst results w'.
    split; [exact Hk|]. split; [reflexivity|]. split; [exact Ho|].
    split; [reflexivity|]. rewrite Hv. reflexivity.
  - vm_compute in E. discriminate.
Defined.

(** *** Parts of the state a computation leaves alone *)

Section Preserves.
Context {B : Type} (f : Monitor -> B).
Hypothesis f_record : forall c o w, f (record_call c o w) = f w.

Lemma preserves_ret {A} (a : A) : preserves f (ret a).
Proof. intros w. reflexivity. Qed.

Lemma preserves_raise {A} e : preserves f (@raise _ A e).
Proof. intros w. reflexivity. Qed.

Lemma preserves_gets {A} (g : Monitor -> A) : preserves f (gets g).
Proof. intros w. reflexivity. Qed.

Lemma preserves_bind {A C} (m : MM A) (k : A -> MM C) :
  preserves f m -> (forall a, preserves f (k a)) -> preserves f (bind m k).
Proof.
  intros Hm Hk w. unfold bind. specialize (Hm w).
  destruct (m w) as [[a|e] w1]; simpl in *; [|assumption].
  now rewrite Hk.
Qed.

Lemma preserves_attempt {A} (m : MM A) :
  preserves f m -> preserves f (attempt m).
Proof.
  intros Hm w. unfold attempt. specialize (Hm w).
  now destruct (m w) as [[a|e] w1].
Qed.

Lemma preserves_external env c : preserves f (external env c).
Proof.
  intros w. unfold external. destruct (outcome env c w); apply f_record.
Qed.

Lemma preserves_external_result {A} c (answer : Monitor -> Res A) :
  preserves f (external_result c answer).
Proof.
  intros w. unfold external_result. destruct (answer w); apply f_record.
Qed.

Lemma preserves_log level msg : preserves f (log level msg).
Proof. intros w. apply f_record. Qed.

Lemma preserves_for_each {A} (body : A -> MM unit) xs :
  (forall x, preserves f (body x)) -> preserves f (for_each body xs).
Proof.
  intros H. induction xs; simpl.
  - apply preserves_ret.
  - apply preserves_bind; auto.
Qed.

Lemma preserves_execute_rule_check env rule :
  preserves f (_execute_rule_check env rule).
Proof.
  unfold _execute_rule_check, getattr_check.
  destruct (bool_decide _).
  - unfold builtin_check. apply preserves_bind.
    + apply preserves_attempt, preserves_external_result.
    + intros [e|v]; apply preserves_ret.
  - destruct (other_attr env _).
    + apply preserves_external_result.
    + apply preserves_raise.
Qed.

Lemma preserves_send_violation_notification env v :
  preserves f (_send_violation_notification env v).
Proof.
  unfold _send_violation_notification, _send_email_notification.
  apply preserves_bind.
  - apply preserves_attempt, preserves_bind.
    + apply preserves_bind; [apply preserves_gets|].
      intros []; [|apply preserves_ret].
      apply preserves_bind;
        [apply preserves_attempt, preserves_external|].
      intros [e|[]]; [apply preserves_log | apply preserves_ret].
    + intros _. apply preserves_bind; [apply preserves_gets|].
      intros []; [apply preserves_external | apply preserves_ret].
  - intros [e|[]]; [apply preserves_log | apply preserves_ret].
Qed.

(** [_handle_violation] changes [violation_counts] and nothing else of the
    object. *)
Lemma preserves_handle_violation env v :
  (forall g w, f (set_violation_counts g w) = f w) ->
  preserves f (_handle_violation env v).
Proof.
  intros Hcounts. unfold _handle_violation.
  apply preserves_bind; [apply preserves_external|]. intros _.
  apply preserves_bind.
  - destruct (bool_decide _);
      [apply preserves_send_violation_notification | apply preserves_ret].
  - intros _. apply preserves_bind; [|intros _; apply preserves_log].
    intros w. apply Hcounts.
Qed.

End Preserves.

(** *** The scheduler *)

Lemma days_at_least (n delta : Z) :
  n <= timedelta_days delta <-> n * day_us <= delta.
Proof.
  unfold timedelta_days.
  assert (0 < day_us) by (unfold day_us, second_us; lia).
  split; intros Hn.
  - pose proof (Z.mul_div_le delta day_us ltac:(lia)). nia.
  - apply Z.div_le_lower_bound; lia.
Qed.

(** For the three frequencies the scheduler knows, a rule is due exactly
    when it was never checked or the interval has elapsed since the last
    check. *)
Lemma check_due_interval rule last t days :
  interval_days (frequency rule) = Some days ->
  check_due rule last t = true
  <-> last = None \/ exists l, last = Some l /\ days * day_us <= t - l.
Proof.
  unfold interval_days, check_due. intros Hfreq.
  destruct last as [l|]; [|intuition].
  assert (Hiff : bool_decide (days <= timedelta_days (t - l)) = true
                 <-> Some l = None
                     \/ exists l0, Some l = Some l0 /\ days * day_us <= t - l0).
  { rewrite bool_decide_eq_true, days_at_least. split.
    - intros H. right. eauto.
    - intros [H|(l0 & E & H)]; [discriminate | congruence]. }
  destruct (String.eqb _ "daily"); [injection Hfreq as <-; exact Hiff|].
  destruct (String.eqb _ "weekly"); [injection Hfreq as <-; exact Hiff|].
  destruct (String.eqb _ "monthly"); [injection Hfreq as <-; exact Hiff|].
  discriminate.
Qed.

(** Any other frequency, "continuous" among them, falls through the chain:
    such a rule is due until its first check and never after. *)
Lemma check_due_other rule last t :
  interval_days (frequency rule) = None ->
  check_due rule last t = match last with None => true | Some _ => false end.
Proof.
  unfold interval_days, check_due. intros Hfreq. destruct last; [|reflexivity].
  destruct (String.eqb _ "daily"); [discriminate|].
  destruct (String.eqb _ "weekly"); [discriminate|].
  destruct (String.eqb _ "monthly"); [discriminate|reflexivity].
Qed.

(** C6 fails on the code for the continuous frequency: once a continuous
    rule has been checked it is never due again, however much time passes.
    On the sample registry the first tick runs the check; a tick 400 days
    later runs nothing and only sleeps. *)
Theorem continuous_rule_checked_once :
  (forall last t, check_due Samples.continuous_rule (Some last) t = false) /\
  checks_run (trace (snd (scheduled_tick Samples.calm_env
                            (Samples.monitor_with [Samples.continuous_rule] 0))))
  = ["check_access_logging"] /\
  trace (snd (scheduled_tick Samples.calm_env
                (at_time (400 * day_us)
                   (snd (scheduled_tick Samples.calm_env
                           (Samples.monitor_with [Samples.continuous_rule] 0))))))
  = trace (snd (scheduled_tick Samples.calm_env
                  (Samples.monitor_with [Samples.continuous_rule] 0)))
    ++ [(Sleep 300, None)].
Proof.
  split; [|split].
  - intros last t. now rewrite check_due_other.
  - vm_compute. reflexivity.
  - vm_compute. reflexivity.
Qed.

(** The body of the scheduler's loop for an enabled rule that is due. *)
Lemma scheduled_rule_step_run env t rule w :
  enabled rule = true ->
  check_due rule (last_check_times w !! rule_id rule) t = true ->
  scheduled_rule_step env t rule w
  = match _execute_rule_check env rule w with
    | (Raise e, w1) =>
        (Ok tt, record_call (fst (scheduled_check_failed_entry rule e)) None w1)
    | (Ok (is_compliant, d), w1) =>
        let w2 := set_last_check_times
                    (<[rule_id rule := t]> (last_check_times w1)) w1 in
        if is_compliant then (Ok tt, w2)
        else
          match _handle_violation env
                  (new_violation (fresh_violation_id env w2) rule
                                 (framework rule) d t) w2 with
          | (Ok _, w3) => (Ok tt, w3)
          | (Raise e, w3) =>
              (Ok tt,
               record_call (fst (scheduled_check_failed_entry rule e)) None w3)
          end
    end.
Proof.
  intros Hen Hdue. unfold scheduled_rule_step. rewrite Hen.
  unfold _generate_violation_id, log.
  unfold bind, gets, attempt, modify, ret.
  cbv beta iota zeta delta [negb]. rewrite Hdue.
  destruct (_execute_rule_check env rule w) as [[[[] d]|e] w1];
    [reflexivity| |reflexivity].
  destruct (_handle_violation env _ _) as [[[]|e] w3]; reflexivity.
Qed.

(** C9 (as the code has it): for an enabled rule that is due, the step of
    the scheduler returns; the check runs with [last_check_times] untouched;
    when the check returns, the rule's entry is set to the tick's
    [current_time], and when the check raises the table is left as it was. *)
Theorem last_check_time_set_on_return env t rule w :
  enabled rule = true ->
  check_due rule (last_check_times w !! rule_id rule) t = true ->
  fst (scheduled_rule_step env t rule w) = Ok tt /\
  last_check_times (snd (_execute_rule_check env rule w))
  = last_check_times w /\
  last_check_times (snd (scheduled_rule_step env t rule w))
  = match fst (_execute_rule_check env rule w) with
    | Ok _ => <[rule_id rule := t]> (last_check_times w)
    | Raise _ => last_check_times w
    end.
Proof.
  intros Hen Hdue. rewrite (scheduled_rule_step_run _ _ _ _ Hen Hdue).
  pose proof (preserves_execute_rule_check last_check_times
                (fun _ _ _ => eq_refl) env rule w) as Hcheck.
  destruct (_execute_rule_check env rule w) as [[[[] d]|e] w1];
    simpl in Hcheck |- *.
  - rewrite Hcheck. auto.
  - pose proof (preserves_handle_violation last_check_times
                  (fun _ _ _ => eq_refl) env
                  (new_violation
                     (fresh_violation_id env
                        (set_last_check_times
                           (<[rule_id rule := t]> (last_check_times w1)) w1))
                     rule (framework rule) d t)
                  (fun _ _ => eq_refl)
                  (set_last_check_times
                     (<[rule_id rule := t]> (last_check_times w1)) w1))
      as Hhandle.
    destruct (_handle_violation env _ _) as [[[]|e] w3];
      simpl in Hhandle |- *; rewrite Hhandle, Hcheck; auto.
  - auto.
Qed.

Lemma last_check_time_set_on_return_witness :
  last_check_times
    (snd (scheduled_rule_step Samples.calm_env 7
            (Samples.hipaa_rule "hipaa_001" "check_counts_five" "daily")
            (Samples.monitor_with [] 7))) !! "hipaa_001" = Some 7 /\
  last_check_times
    (snd (scheduled_rule_step Samples.calm_env 7 Samples.raising_rule
            (Samples.monitor_with [] 7))) = ∅.
Proof.
  split.
  - destruct (last_check_time_set_on_return Samples.calm_env 7
                (Samples.hipaa_rule "hipaa_001" "check_counts_five" "daily")
                (Samples.monitor_with [] 7) eq_refl eq_refl)
      as (_ & _ & ->).
    reflexivity.
  - destruct (last_check_time_set_on_return Samples.calm_env 7
                Samples.raising_rule (Samples.monitor_with [] 7)
                eq_refl eq_refl)
      as (_ & _ & ->).
    reflexivity.
Defined.

(** C9, as stated, fails: a due rule whose check raises (the method is
    missing, or it raises itself) keeps no [last_check_time], and so is due
    again at the next tick. *)
Lemma raising_check_keeps_last_check_time :
  fst (_execute_rule_check Samples.calm_env Samples.raising_rule
         (Samples.monitor_with [Samples.raising_rule] 7))
  = Raise (PyError "RuntimeError" "boom") /\
  last_check_times
    (snd (scheduled_tick Samples.calm_env
            (Samples.monitor_with [Samples.raising_rule] 7)))
  !! "hipaa_011" = None /\
  fst (_execute_rule_check Samples.calm_env Samples.misnamed_rule
         (Samples.monitor_with [Samples.misnamed_rule] 7))
  = Raise (ValueError "Check function check_firewall not found") /\
  last_check_times
    (snd (scheduled_tick Samples.calm_env
            (Samples.monitor_with [Samples.misnamed_rule] 7)))
  !! "hipaa_009" = None /\
  checks_run
    (trace (snd (scheduled_tick Samples.calm_env
                   (at_time 300000007
                      (snd (scheduled_tick Samples.calm_env
                              (Samples.monitor_with
                                 [Samples.raising_rule] 7)))))))
  = ["check_raises"; "check_raises"].
Proof. vm_compute. auto. Qed.

(** *** Handling a violation *)










(** *** The audit buffer *)

Lemma take_app_take {A} (n : nat) (l m : list A) :
  take n (l ++ take n m) = take n (l ++ m).
Proof.
  rewrite !take_app, take_take. do 2 f_equal. lia.
Qed.

Lemma extendleft_fold {A} (maxlen : nat) (xs d : list A) :
  (length d <= maxlen)%nat ->
  Deque.extendleft maxlen xs d = take maxlen (rev xs ++ d).
Proof.
  unfold Deque.extendleft. revert d.
  induction xs as [|x xs IH]; intros d Hd; simpl.
  - now rewrite take_ge.
  - rewrite IH by (unfold Deque.appendleft; rewrite length_take; lia).
    unfold Deque.appendleft. rewrite take_app_take.
    now rewrite <- app_assoc.
Qed.

(** [extendleft(reversed(events))] puts [events] back at the front in their
    original order; a deque that would overflow loses from its right end. *)
Lemma extendleft_reversed {A} (maxlen : nat) (events d : list A) :
  (length d <= maxlen)%nat ->
  Deque.extendleft maxlen (rev events) d = take maxlen (events ++ d).
Proof.
  intros Hd. rewrite extendleft_fold by assumption.
  now rewrite rev_involutive.
Qed.

(** [append] on a deque with room keeps everything. *)
Lemma append_with_room {A} (maxlen : nat) (x : A) (d : list A) :
  (length d < maxlen)%nat -> Deque.append maxlen x d = d ++ [x].
Proof.
  intros H. unfold Deque.append. rewrite length_app. simpl.
  replace (length d + 1 - maxlen)%nat with 0%nat by lia. reflexivity.
Qed.

(** The batch loop takes the first [n] events, or all of them. *)
Lemma pop_batch_take n acc buffer :
  pop_batch n acc buffer = (acc ++ take n buffer, drop n buffer).
Proof.
  revert acc buffer. induction n as [|n IH]; intros acc buffer; simpl.
  - now rewrite app_nil_r.
  - destruct buffer as [|e buffer]; simpl.
    + now rewrite app_nil_r.
    + rewrite IH. now rewrite <- app_assoc.
Qed.

Lemma write_audit_events_keeps_buffer env events :
  preserves audit_buffer (write_audit_events env events).
Proof.
  unfold write_audit_events.
  repeat first
    [ apply preserves_external | apply preserves_log
    | apply preserves_for_each; intros
    | apply preserves_bind; [|intros] ];
    intros; reflexivity.
Qed.

(** A flush that fails is caught: the events go back to the front of the
    buffer and nothing is raised. *)
Lemma flush_failure_requeues env events w e w1 :
  write_audit_events env events w = (Raise e, w1) ->
  (length (audit_buffer w) <= audit_buffer_maxlen)%nat ->
  fst (_flush_audit_events env events w) = Ok tt /\
  audit_buffer (snd (_flush_audit_events env events w))
  = take audit_buffer_maxlen (events ++ audit_buffer w).
Proof.
  intros Hfail Hlen.
  pose proof (write_audit_events_keeps_buffer env events w) as Hkeep.
  rewrite Hfail in Hkeep. simpl in Hkeep.
  unfold _flush_audit_events.
  rewrite (bind_ok _ _ _ _ _ (attempt_raise _ _ _ _ Hfail)).
  unfold bind, log, modify. simpl. split; [reflexivity|].
  rewrite Hkeep. now apply extendleft_reversed.
Qed.

(** A turn of the flusher returns, whatever happens in it. *)
Lemma audit_log_flusher_turn_returns env w :
  fst (audit_log_flusher_turn env w) = Ok tt.
Proof.
  unfold audit_log_flusher_turn. apply guarded_returns. reflexivity.
Qed.

(** Events logged while there is room go to the back of the buffer. *)
Lemma buffer_events_with_room more w :
  (length (audit_buffer w) + length more <= audit_buffer_maxlen)%nat ->
  audit_buffer (snd (for_each buffer_event more w)) = audit_buffer w ++ more.
Proof.
  revert w. induction more as [|x more IH]; intros w Hlen; simpl.
  - now rewrite app_nil_r.
  - simpl in Hlen. unfold bind, buffer_event at 1, modify. simpl.
    rewrite IH; simpl; rewrite append_with_room by lia.
    + now rewrite <- app_assoc.
    + rewrite length_app. simpl. lia.
Qed.

(** C5: when the flush of a batch fails, the turn of the flusher raises
    nothing and leaves the buffer as it was before the batch was taken: the
    whole batch is back at the front in its original order, so the next turn
    takes the same batch; and events logged meanwhile, as long as the buffer
    does not overflow, queue up behind it. *)
Theorem failed_flush_keeps_batch env w e w1 :
  audit_buffer w <> [] ->
  (length (audit_buffer w) <= audit_buffer_maxlen)%nat ->
  write_audit_events env (take flush_batch_size (audit_buffer w))
    (set_audit_buffer (drop flush_batch_size (audit_buffer w)) w)
  = (Raise e, w1) ->
  fst (audit_log_flusher_turn env w) = Ok tt /\
  audit_buffer (snd (audit_log_flusher_turn env w))
  = take flush_batch_size (audit_buffer w)
    ++ drop flush_batch_size (audit_buffer w) /\
  fst (pop_batch flush_batch_size []
         (audit_buffer (snd (audit_log_flusher_turn env w))))
  = take flush_batch_size (audit_buffer w) /\
  (forall more,
      (length (audit_buffer w) + length more <= audit_buffer_maxlen)%nat ->
      audit_buffer (snd (for_each buffer_event more
                           (snd (audit_log_flusher_turn env w))))
      = audit_buffer w ++ more /\
      take flush_batch_size (audit_buffer w)
      `prefix_of`
      fst (pop_batch flush_batch_size []
             (audit_buffer (snd (for_each buffer_event more
                                   (snd (audit_log_flusher_turn env w))))))).
Proof.
  intros Hne Hlen Hfail.
  split; [apply audit_log_flusher_turn_returns|].
  assert (Hbuf : audit_buffer (snd (audit_log_flusher_turn env w))
                 = audit_buffer w).
  { destruct (flush_failure_requeues env _ _ _ _ Hfail) as [Hok Hq].
    { simpl. rewrite length_drop. lia. }
    simpl in Hq. rewrite take_drop in Hq.
    rewrite (take_ge _ audit_buffer_maxlen) in Hq by exact Hlen.
    unfold audit_log_flusher_turn, bind, attempt, gets, modify.
    destruct (audit_buffer w) as [|x buffer] eqn:Eb; [congruence|].
    rewrite pop_batch_take. rewrite app_nil_l. cbv beta iota.
    destruct (_flush_audit_events env _ _) as [[[]|e'] w2];
      simpl in Hok, Hq; [|discriminate].
    unfold external, log, modify.
    destruct (outcome env (Sleep 60) w2); simpl; exact Hq. }
  rewrite Hbuf, take_drop, pop_batch_take. cbn [fst app].
  split; [reflexivity|]. split; [reflexivity|].
  intros more Hroom.
  rewrite buffer_events_with_room by (rewrite Hbuf; exact Hroom).
  rewrite Hbuf. split; [reflexivity|].
  rewrite pop_batch_take. cbn [fst app]. rewrite take_app.
  apply prefix_app_r. reflexivity.
Qed.

Lemma failed_flush_keeps_batch_witness :
  audit_buffer
    (snd (audit_log_flusher_turn Samples.insert_fails_env
            (snd (for_each buffer_event
                    [Samples.sample_event "e1"; Samples.sample_event "e2";
                     Samples.sample_event "e3"]
                    (Samples.monitor_with [] 0)))))
  = [Samples.sample_event "e1"; Samples.sample_event "e2";
     Samples.sample_event "e3"] /\
  fst (audit_log_flusher_turn Samples.insert_fails_env
         (snd (for_each buffer_event
                 [Samples.sample_event "e1"; Samples.sample_event "e2";
                  Samples.sample_event "e3"]
                 (Samples.monitor_with [] 0)))) = Ok tt.
Proof.
  destruct (failed_flush_keeps_batch Samples.insert_fails_env
              (snd (for_each buffer_event
                      [Samples.sample_event "e1"; Samples.sample_event "e2";
                       Samples.sample_event "e3"]
                      (Samples.monitor_with [] 0)))
              (PyError "OperationalError" "connection refused")
              _ ltac:(discriminate) ltac:(vm_compute; lia) eq_refl)
    as (Hok & Hbuf & _).
  split; [exact Hbuf | exact Hok].
Defined.

(** The lossy boundary: a full buffer gives up its oldest event for a new
    one, whether or not that event was ever flushed. *)
Example full_buffer_evicts_oldest :
  Deque.append 3 (Samples.sample_event "e4")
    [Samples.sample_event "e1"; Samples.sample_event "e2";
     Samples.sample_event "e3"]
  = [Samples.sample_event "e2"; Samples.sample_event "e3";
     Samples.sample_event "e4"].
Proof. reflexivity. Qed.

End ComplianceFacts.

(** ** The security monitor *)

Module SecurityFacts.
Import SecurityMonitor.

(** *** Risk scoring *)

Lemma event_risk_factor_floor ty : (1 # 10 <= event_risk_factor ty)%Q.
Proof. destruct ty; vm_compute; discriminate. Qed.

(** Two sums that differ by the off-hours bonus, once clamped. *)
Lemma clamp_off_hours (b b' : Q) :
  (b' == b + (2 # 10))%Q ->
  (Qmin b 1 <= Qmin b' 1 /\
   (Qmin b 1 < 1 -> Qmin b 1 < Qmin b' 1) /\
   (1 <= b -> Qmin b' 1 == Qmin b 1) /\
   Qmin b 1 <= 1 /\ Qmin b' 1 <= 1)%Q.
Proof.
  intros Hb.
  destruct (Q.min_spec b 1) as [[H1 E1]|[H1 E1]];
    destruct (Q.min_spec b' 1) as [[H2 E2]|[H2 E2]];
    rewrite E1, E2; repeat split; intros; lra.
Qed.
(** C8 (as the code has it): of two events that differ in their timestamp
    only, scored in the same state with the same frequency term, the one at
    hour 3 never scores lower than the one at hour 14 and no score exceeds
    1, whatever the helpers answer. When the user and frequency terms are
    not negative, every score lies in [0, 1], and the score at hour 3 is
    strictly higher unless the score at hour 14 is already 1, where the
    clamp makes the two tie. *)
Theorem off_hours_score_not_lower env e t3 t14 w s14 :
  hour_of t3 = 3 -> hour_of t14 = 14 ->
  (forall s, frequency_risk env (with_timestamp t3 e) s
             = frequency_risk env (with_timestamp t14 e) s) ->
  fst (_calculate_risk_score env (with_timestamp t14 e) w) = Ok s14 ->
  exists s3,
    fst (_calculate_risk_score env (with_timestamp t3 e) w) = Ok s3 /\
    (~ s3 < s14 /\ ~ 1 < s14 /\ ~ 1 < s3)%Q /\
    ((forall u s r, user_risk_score env u s = Ok r -> 0 <= r)%Q ->
     (forall ev s r, frequency_risk env ev s = Ok r -> 0 <= r)%Q ->
     (0 <= s14 <= 1 /\ 0 <= s3 <= 1 /\
      (s14 < 1 -> s14 < s3) /\ (s14 == 1 -> s3 == 1))%Q).
Proof.
  intros H3 H14 Hfreq.
  unfold _calculate_risk_score, bind, external_result, ret.
  cbn [source_ip user_id timestamp event_type with_timestamp].
  rewrite H3, H14.
  change (outside_business_hours 3) with true.
  change (outside_business_hours 14) with false.
  cbv iota.
  destruct (is_suspicious_ip env (source_ip e) w) as [susp|ex];
    [|discriminate].
  pose proof (event_risk_factor_floor (event_type e)) as Hfloor.
  destruct (truthy_user (user_id e)) as [u|].
  - destruct (user_risk_score env u _) as [ur|ex] eqn:Eu; [|discriminate].
    rewrite Hfreq.
    destruct (frequency_risk env (with_timestamp t14 e) _) as [fr|ex] eqn:Ef;
      [|discriminate].
    cbn [fst]. intros H. injection H as <-.
    eexists. split; [reflexivity|].
    match goal with
    | |- context [(Qmin ?b' 1 < Qmin ?b 1)%Q] =>
        destruct (clamp_off_hours b b') as (C1 & C2 & C3 & C4 & C5);
          [destruct susp; ring|]
    end.
    split; [repeat split; intros ?; lra|].
    intros Hu Hf. specialize (Hu _ _ _ Eu). specialize (Hf _ _ _ Ef).
    match goal with
    | |- context [(Qmin ?b' 1 < Qmin ?b 1)%Q] =>
        assert (0 <= Qmin b 1)%Q by (apply Q.min_glb; destruct susp; lra);
        assert (0 <= Qmin b' 1)%Q by (apply Q.min_glb; destruct susp; lra)
    end.
    repeat split; try assumption; intros; lra.
  - rewrite Hfreq.
    destruct (frequency_risk env (with_timestamp t14 e) _) as [fr|ex] eqn:Ef;
      [|discriminate].
    cbn [fst]. intros H. injection H as <-.
    eexists. split; [reflexivity|].
    match goal with
    | |- context [(Qmin ?b' 1 < Qmin ?b 1)%Q] =>
        destruct (clamp_off_hours b b') as (C1 & C2 & C3 & C4 & C5);
          [destruct susp; ring|]
    end.
    split; [repeat split; intros ?; lra|].
    intros Hu Hf. specialize (Hf _ _ _ Ef).
    match goal with
    | |- context [(Qmin ?b' 1 < Qmin ?b 1)%Q] =>
        assert (0 <= Qmin b 1)%Q by (apply Q.min_glb; destruct susp; lra);
        assert (0 <= Qmin b' 1)%Q by (apply Q.min_glb; destruct susp; lra)
    end.
    repeat split; try assumption; intros; lra.
Qed.

Lemma off_hours_score_not_lower_witness :
  exists s14 s3,
    fst (_calculate_risk_score SecuritySamples.calm_env
           (with_timestamp SecuritySamples.two_pm
              (SecuritySamples.event_at LOGIN_FAILURE 0))
           (SecuritySamples.fresh_monitor 0)) = Ok s14 /\
    fst (_calculate_risk_score SecuritySamples.calm_env
           (with_timestamp SecuritySamples.three_am
              (SecuritySamples.event_at LOGIN_FAILURE 0))
           (SecuritySamples.fresh_monitor 0)) = Ok s3 /\
    (s14 == 4 # 10 /\ s14 < s3 /\ 0 <= s3 <= 1)%Q.
Proof.
  destruct (off_hours_score_not_lower SecuritySamples.calm_env
              (SecuritySamples.event_at LOGIN_FAILURE 0)
              SecuritySamples.three_am SecuritySamples.two_pm
              (SecuritySamples.fresh_monitor 0) _
              eq_refl eq_refl (fun _ => eq_refl) eq_refl)
    as (s3 & E & _ & Hrange).
  destruct Hrange as (_ & H3 & Hlt & _).
  - intros u s r H. injection H as <-. vm_compute. discriminate.
  - intros ev s r H. injection H as <-. vm_compute. discriminate.
  - eexists _, s3. split; [reflexivity|]. split; [exact E|].
    split; [vm_compute; reflexivity|]. split; [|exact H3].
    apply Hlt. vm_compute. reflexivity.
Defined.

(** C8, as stated, fails. A security violation with no flagged address, no
    user and no burst of similar events already scores 0.1 + 0.9 = 1.0 at
    14:00, and the clamp holds the 03:00 score at 1.0 too. The frequency
    helper is handed the whole event, timestamp included: where it finds
    similar events by day and none by night, a failed login scores 0.9 at
    14:00 and less at 03:00. And the clamp is from above only: where the
    user helper answers below zero, so does the scorer. *)
Lemma off_hours_not_strictly_higher :
  (exists s14 s3,
      SecuritySamples.event_at SECURITY_VIOLATION SecuritySamples.three_am
      = with_timestamp SecuritySamples.three_am
          (SecuritySamples.event_at SECURITY_VIOLATION
             SecuritySamples.two_pm) /\
      hour_of SecuritySamples.three_am = 3 /\
      hour_of SecuritySamples.two_pm = 14 /\
      fst (_calculate_risk_score SecuritySamples.calm_env
             (SecuritySamples.event_at SECURITY_VIOLATION
                SecuritySamples.two_pm)
             (SecuritySamples.fresh_monitor 0)) = Ok s14 /\
      fst (_calculate_risk_score SecuritySamples.calm_env
             (SecuritySamples.event_at SECURITY_VIOLATION
                SecuritySamples.three_am)
             (SecuritySamples.fresh_monitor 0)) = Ok s3 /\
      (s14 == 1 /\ s3 == 1 /\ ~ s14 < s3)%Q) /\
  (exists s14 s3,
      fst (_calculate_risk_score SecuritySamples.rush_hour_env
             (SecuritySamples.event_at LOGIN_FAILURE SecuritySamples.two_pm)
             (SecuritySamples.fresh_monitor 0)) = Ok s14 /\
      fst (_calculate_risk_score SecuritySamples.rush_hour_env
             (SecuritySamples.event_at LOGIN_FAILURE SecuritySamples.three_am)
             (SecuritySamples.fresh_monitor 0)) = Ok s3 /\
      (s14 == 9 # 10 /\ s3 < s14)%Q) /\
  (exists s14,
      fst (_calculate_risk_score SecuritySamples.credit_env
             (SecuritySamples.login_at SecuritySamples.two_pm)
             (SecuritySamples.fresh_monitor 0)) = Ok s14 /\
      (s14 < 0)%Q).
Proof.
  split; [|split].
  - eexists _, _. do 3 (split; [reflexivity|]).
    split; [vm_compute; reflexivity|]. split; [vm_compute; reflexivity|].
    split; [reflexivity|]. split; [reflexivity|].
    intros H. vm_compute in H. discriminate.
  - eexists _, _.
    split; [vm_compute; reflexivity|]. split; [vm_compute; reflexivity|].
    split; reflexivity.
  - eexists. split; [vm_compute; reflexivity|]. reflexivity.
Qed.

(** *** Alerts *)

Lemma persisted_alerts_app l l' :
  persisted_alerts (l ++ l') = persisted_alerts l ++ persisted_alerts l'.
Proof. apply omap_app. Qed.

Lemma later_later dt dt' w : later dt' (later dt w) = later (dt + dt') w.
Proof. unfold later. simpl. f_equal. lia. Qed.

(** Within the window the call changes nothing: no alert is stored, no
    notification is sent, the table is left alone. *)
Lemma create_alert_suppressed env title description sev ids w last :
  alert_suppression w !! alert_key_of env title description = Some last ->
  now w - last < suppression_window ->
  _create_alert env title description sev ids w = (Ok tt, w).
Proof.
  intros Hkey Hwin. unfold _create_alert, utcnow, bind, gets, ret.
  rewrite Hkey. cbv beta iota.
  rewrite bool_decide_eq_true_2 by assumption. reflexivity.
Qed.

(** Outside it, a call that returns has stored one alert, created at the
    time the call began, and has put the time it ended in the table. *)
Lemma create_alert_creates env title description sev ids w w1 :
  (forall c s, 0 <= elapsed env c s) ->
  match alert_suppression w !! alert_key_of env title description with
  | Some last => suppression_window <= now w - last
  | None => True
  end ->
  _create_alert env title description sev ids w = (Ok tt, w1) ->
  persisted_alerts (trace w1)
  = persisted_alerts (trace w)
    ++ [mkSecurityAlert (fresh_alert_id env w) title description sev ids
                        (now w) false None None false None None] /\
  alert_suppression w1
  = <[alert_key_of env title description := now w1]> (alert_suppression w) /\
  now w <= now w1.
Proof.
  intros Hel Hfree.
  unfold _create_alert, _send_alert_notifications, _send_email_alert,
    external, log, utcnow.
  unfold bind, attempt, gets, modify, ret.
  assert (Hcheck :
            match alert_suppression w !! alert_key_of env title description
            with
            | Some last => bool_decide (now w - last < suppression_window)
            | None => false
            end = false).
  { destruct (alert_suppression w !! _); [|reflexivity].
    apply bool_decide_eq_false_2. lia. }
  destruct (alert_suppression w !! alert_key_of env title description)
    as [last|]; cbv beta iota; rewrite ?Hcheck;
    repeat (cbv beta iota;
            match goal with
            | |- context [match outcome ?e ?c ?s with _ => _ end] =>
                destruct (outcome e c s) eqn:?
            | |- context [if bool_decide ?P then _ else _] =>
                destruct (bool_decide P) eqn:?
            end);
    cbv beta iota; try discriminate;
    intros H; injection H as <-; simpl;
    rewrite ?persisted_alerts_app; simpl; rewrite ?app_nil_r;
    (split; [reflexivity|]); (split; [reflexivity|]);
    repeat match goal with
           | |- context [elapsed env ?c ?s] =>
               lazymatch goal with
               | _ : 0 <= elapsed env c s |- _ => fail
               | _ => pose proof (Hel c s)
               end
           end; lia.
Qed.

(** C4 (as the code has it): after a call of [create_alert] that was not
    suppressed and ran to its end, a call with the same title and
    description less than 15 minutes after the first call ended, and so
    every call within 15 minutes of the alert's creation, changes nothing
    (no alert stored, no notification sent), and one alert stands; a call 15
    minutes or more after the first call ended, if it runs to its end,
    stores a second alert. The window runs from the time the first call
    ended, which is the time the table holds. *)
Theorem alert_suppression_window env ttl desc sev1 ids1 w w1 :
  (forall c s, 0 <= elapsed env c s) ->
  match alert_suppression w !! alert_key_of env ttl desc with
  | Some last => suppression_window <= now w - last
  | None => True
  end ->
  _create_alert env ttl desc sev1 ids1 w = (Ok tt, w1) ->
  exists alert,
    title alert = ttl /\ description alert = desc /\
    created_at alert = now w /\ created_at alert <= now w1 /\
    alert_suppression w1 !! alert_key_of env ttl desc = Some (now w1) /\
    persisted_alerts (trace w1) = persisted_alerts (trace w) ++ [alert] /\
    (forall dt sev2 ids2,
        dt < suppression_window ->
        _create_alert env ttl desc sev2 ids2 (later dt w1)
        = (Ok tt, later dt w1)) /\
    (forall dt sev2 ids2,
        now w1 + dt - created_at alert < suppression_window ->
        _create_alert env ttl desc sev2 ids2 (later dt w1)
        = (Ok tt, later dt w1)) /\
    (forall dt sev3 ids3 w3,
        suppression_window <= dt ->
        _create_alert env ttl desc sev3 ids3 (later dt w1) = (Ok tt, w3) ->
        exists alert',
          title alert' = ttl /\ description alert' = desc /\
          created_at alert' = now w1 + dt /\
          persisted_alerts (trace w3)
          = persisted_alerts (trace w) ++ [alert; alert']).
Proof.
  intros Hel Hfree Hrun.
  destruct (create_alert_creates _ _ _ _ _ _ _ Hel Hfree Hrun)
    as (Hp & Hs & Ht).
  assert (Hnear : forall dt sev2 ids2,
             dt < suppression_window ->
             _create_alert env ttl desc sev2 ids2 (later dt w1)
             = (Ok tt, later dt w1)).
  { intros dt sev2 ids2 Hwin.
    apply create_alert_suppressed with (last := now w1).
    - cbn [alert_suppression later]. rewrite Hs. apply lookup_insert_eq.
    - cbn [now later]. lia. }
  exists (mkSecurityAlert (fresh_alert_id env w) ttl desc sev1 ids1 (now w)
                          false None None false None None).
  do 3 (split; [reflexivity|]). split; [exact Ht|].
  split; [rewrite Hs; apply lookup_insert_eq|].
  split; [exact Hp|]. split; [exact Hnear|]. split.
  - intros dt sev2 ids2 Hwin. cbn [created_at] in Hwin.
    apply Hnear. lia.
  - intros dt sev3 ids3 w3 Hdt Hrun3.
    assert (Hfree3 :
              match alert_suppression (later dt w1)
                    !! alert_key_of env ttl desc with
              | Some last => suppression_window <= now (later dt w1) - last
              | None => True
              end).
    { cbn [alert_suppression now later].
      rewrite Hs, lookup_insert_eq. lia. }
    destruct (create_alert_creates _ _ _ _ _ _ _ Hel Hfree3 Hrun3)
      as (Hp3 & _ & _).
    exists (mkSecurityAlert (fresh_alert_id env (later dt w1)) ttl desc sev3
                            ids3 (now (later dt w1))
                            false None None false None None).
    do 3 (split; [reflexivity|]).
    rewrite Hp3. cbn [trace later]. rewrite Hp. now rewrite <- app_assoc.
Qed.

Lemma alert_suppression_window_witness :
  length (persisted_alerts (trace SecuritySamples.after_first_alert)) = 1%nat /\
  _create_alert SecuritySamples.slow_env SecuritySamples.brute_force_title
    SecuritySamples.brute_force_description HIGH ["evt_2"]
    (later (10 * minute_us) SecuritySamples.after_first_alert)
  = (Ok tt, later (10 * minute_us) SecuritySamples.after_first_alert) /\
  length (persisted_alerts
            (trace (snd (_create_alert SecuritySamples.slow_env
                           SecuritySamples.brute_force_title
                           SecuritySamples.brute_force_description HIGH
                           ["evt_3"]
                           (later (16 * minute_us)
                              SecuritySamples.after_first_alert)))))
  = 2%nat.
Proof.
  destruct (alert_suppression_window SecuritySamples.slow_env
              SecuritySamples.brute_force_title
              SecuritySamples.brute_force_description HIGH ["evt_1"]
              (SecuritySamples.fresh_monitor 0)
              SecuritySamples.after_first_alert
              ltac:(intros; vm_compute; discriminate)
              ltac:(cbn; rewrite lookup_empty; exact I)
              eq_refl)
    as (alert & _ & _ & Hc & _ & _ & Hp & Hsecond & _ & Hthird).
  split; [rewrite Hp; reflexivity|]. split.
  - apply Hsecond. vm_compute. reflexivity.
  - destruct (Hthird (16 * minute_us) HIGH ["evt_3"]
                (snd (_create_alert SecuritySamples.slow_env
                        SecuritySamples.brute_force_title
                        SecuritySamples.brute_force_description HIGH
                        ["evt_3"]
                        (later (16 * minute_us)
                           SecuritySamples.after_first_alert)))
                ltac:(vm_compute; discriminate) eq_refl)
      as (alert' & _ & _ & _ & Hp3).
    rewrite Hp3. reflexivity.
Defined.

(** C4, as stated, fails in two ways. The window does not run from the
    alert's creation: in a world where each call to the store and the
    transports takes two seconds, an alert created at 0:00 has its
    suppression time written at 0:06, and an identical call at 15:03,
    after the window since creation has passed, is still dropped. And a
    second call within the window is not always dropped: when the chat
    transport raises, the first call has stored its alert and written no
    suppression time, so an identical call a minute later stores a second
    alert. *)
Lemma suppression_window_not_from_creation :
  (map created_at (persisted_alerts (trace SecuritySamples.after_first_alert))
   = [0] /\
   now SecuritySamples.after_first_alert = 6 * second_us /\
   let w3 := later (15 * minute_us - 3 * second_us)
                   SecuritySamples.after_first_alert in
   now w3 = 15 * minute_us + 3 * second_us /\
   suppression_window <= now w3 - 0 /\
   _create_alert SecuritySamples.slow_env SecuritySamples.brute_force_title
     SecuritySamples.brute_force_description HIGH ["evt_3"] w3
   = (Ok tt, w3)) /\
  (let first :=
     _create_alert MoreSecuritySamples.slack_down_env
       SecuritySamples.brute_force_title
       SecuritySamples.brute_force_description HIGH ["evt_1"]
       (SecuritySamples.fresh_monitor 0) in
   let second :=
     _create_alert MoreSecuritySamples.slack_down_env
       SecuritySamples.brute_force_title
       SecuritySamples.brute_force_description HIGH ["evt_2"]
       (later (1 * minute_us) (snd first)) in
   fst first = Raise (PyError "ConnectionError" "webhook unreachable") /\
   length (persisted_alerts (trace (snd first))) = 1%nat /\
   alert_suppression (snd first) = ∅ /\
   map event_ids (persisted_alerts (trace (snd second)))
   = [["evt_1"]; ["evt_2"]]).
Proof.
  split.
  - split; [reflexivity|]. split; [reflexivity|].
    cbv zeta. split; [reflexivity|].
    split; [vm_compute; discriminate|]. reflexivity.
  - cbv zeta. split; [reflexivity|]. split; [reflexivity|].
    split; [reflexivity|]. reflexivity.
Qed.

End SecurityFacts.

(** ** More of the compliance monitor *)

Module ComplianceMore.
Import ComplianceMonitor ComplianceExtra ComplianceFacts.

(** *** Handling a violation *)

Lemma transport_calls_app l l' :
  transport_calls (l ++ l') = transport_calls l ++ transport_calls l'.
Proof. apply omap_app. Qed.

Lemma store_attempts_app l l' :
  store_attempts (l ++ l') = store_attempts l ++ store_attempts l'.
Proof. apply omap_app. Qed.

(** Case analysis on every collaborator the handler consults. *)
Ltac handler_cases :=
  repeat (cbv beta iota; simpl email_enabled; simpl slack_enabled;
          match goal with
          | |- context [match outcome ?e ?c ?s with _ => _ end] =>
              destruct (outcome e c s) eqn:?
          | |- context [if email_enabled ?s then _ else _] =>
              destruct (email_enabled s) eqn:?
          | |- context [if slack_enabled ?s then _ else _] =>
              destruct (slack_enabled s) eqn:?
          end);
  cbv beta iota.


(** X2: a LOW or MEDIUM violation reaches no transport, and neither does
    any violation while mail and chat are both switched off. *)
Theorem quiet_violations_reach_no_transport env v w :
  v_severity v ∈ [LOW; MEDIUM]
  \/ (email_enabled w = false /\ slack_enabled w = false) ->
  transport_calls (trace (snd (_handle_violation env v w)))
  = transport_calls (trace w).
Proof.
  intros Hquiet.
  unfold _handle_violation, _send_violation_notification,
    _send_email_notification, external, log.
  unfold bind, attempt, gets, modify, ret.
  destruct (bool_decide (v_severity v ∈ [HIGH; CRITICAL])) eqn:Esev;
    handler_cases; simpl;
    rewrite ?transport_calls_app; simpl; rewrite ?app_nil_r;
    try reflexivity;
    exfalso; apply bool_decide_eq_true in Esev;
    (destruct Hquiet as [Hlow|[Hmail Hchat]];
     [ destruct (v_severity v);
       repeat match goal with
              | H : _ ∈ _ :: _ |- _ =>
                  apply elem_of_cons in H; destruct H as [H|H];
                  try discriminate
              | H : _ ∈ [] |- _ => apply elem_of_nil in H; contradiction
              end
     | simpl in *; congruence ]).
Qed.

Lemma quiet_violations_reach_no_transport_witness :
  transport_calls
    (trace (snd (_handle_violation Samples.calm_env
                   MoreSamples.medium_violation
                   (Samples.monitor_with [] 0)))) = [] /\
  transport_calls
    (trace (snd (_handle_violation Samples.calm_env Samples.sample_violation
                   (initial_monitor false false 0)))) = [].
Proof.
  split.
  - rewrite (quiet_violations_reach_no_transport Samples.calm_env
               MoreSamples.medium_violation (Samples.monitor_with [] 0));
      [reflexivity|].
    left. vm_compute. apply list_elem_of_further, list_elem_of_here.
  - rewrite (quiet_violations_reach_no_transport Samples.calm_env
               Samples.sample_violation (initial_monitor false false 0));
      [reflexivity|].
    right. split; reflexivity.
Defined.

(** *** Framework checks *)

(** The handler hands the violation to the store before anything else. *)
Lemma handler_attempts_store env v w :
  exists calls,
    trace (snd (_handle_violation env v w))
    = trace w ++ (StoreViolation v, outcome env (StoreViolation v) w) :: calls.
Proof.
  unfold _handle_violation. unfold bind at 1, external at 1.
  destruct (outcome env (StoreViolation v) w) as [e|] eqn:Es; simpl.
  - exists []. reflexivity.
  - match goal with
    | |- context [snd (?m (record_call ?c ?o w))] =>
        assert (Hm : monotone m)
    end.
    { monotone. }
    match goal with
    | |- context [snd (?m (record_call ?c ?o w))] =>
        destruct (Hm (record_call c o w)) as [calls Hc]
    end.
    exists calls. rewrite Hc. simpl. now rewrite <- app_assoc.
Qed.

(** A failed verdict: the violation is in the results and was handed to the
    store, whatever the handler did next. *)
Lemma check_rule_step_fail_handled env fw res rule w d w1 :
  _execute_rule_check env rule w = (Ok (false, d), w1) ->
  exists w2,
    check_rule_step env fw res rule w
    = (Ok (add_violation
             (new_violation (fresh_violation_id env w1) rule fw d (now w1))
             res), w2) /\
    new_violation (fresh_violation_id env w1) rule fw d (now w1)
    ∈ store_attempts (trace w2).
Proof.
  intros H. unfold check_rule_step.
  rewrite (bind_ok _ _ _ _ _ (attempt_ok _ _ _ _ H)).
  unfold _generate_violation_id, gets, bind at 1 2.
  set (v := new_violation (fresh_violation_id env w1) rule fw d (now w1)).
  destruct (handler_attempts_store env v w1) as [calls Hc].
  unfold bind, attempt, log, modify.
  destruct (_handle_violation env v w1) as [[[]|e] w2]; simpl in Hc |- *;
    eexists; (split; [reflexivity|]); simpl; rewrite Hc;
    rewrite ?store_attempts_app; simpl;
    rewrite ?elem_of_app, ?elem_of_cons; auto.
Qed.

(** The run of a framework check, seen from the turn of one of its rules. *)
Lemma framework_run_at_turn env fw w pre rule post :
  framework_rules fw (rules w) = pre ++ rule :: post ->
  exists res1 w1 res2 w2 res w',
    for_fold (check_rule_step env fw) pre (initial_results fw w) w
    = (Ok res1, w1) /\
    check_rule_step env fw res1 rule w1 = (Ok res2, w2) /\
    _check_framework_compliance env fw w = (Ok res, w') /\
    (exists more, fr_violations res = fr_violations res2 ++ more) /\
    extends w2 w'.
Proof.
  intros Hrules. rewrite check_framework_run, Hrules.
  set (res0 := initial_results fw w).
  assert (Htotal : total_rules res0 = length (pre ++ rule :: post))
    by (unfold res0, initial_results; simpl; now rewrite Hrules).
  destruct (framework_loop_tally env fw pre res0 w)
    as (res1 & w1 & E1 & Ht1 & _ & _).
  destruct (check_rule_step_tally env fw res1 rule w1)
    as (res2 & w2 & E2 & Ht2 & _ & _).
  destruct (framework_loop_tally env fw post res2 w2)
    as (res3 & w3 & E3 & Ht3 & _ & Hv3).
  assert (Hw : extends w2 w3).
  { pose proof (monotone_for_fold (check_rule_step env fw) post res2
                  (monotone_check_rule_step env fw) w2) as Hm.
    now rewrite E3 in Hm. }
  rewrite (for_fold_app _ _ _ _ _ _ _ E1). simpl for_fold.
  rewrite (bind_ok _ _ _ _ _ E2), E3.
  assert (Hlen : total_rules res3 = S (length pre + length post)).
  { rewrite Ht3, Ht2, Ht1, Htotal, length_app. simpl. lia. }
  unfold compliance_percentage. rewrite Hlen.
  do 6 eexists. split; [exact E1|]. split; [exact E2|].
  split; [reflexivity|]. split; [exact Hv3 | exact Hw].
Qed.

(** X3: a check that finds the rule non-compliant always shows in the
    result: when its turn comes and the check answers (False, details), the
    results list a violation carrying those details and the rule's data,
    and that violation was handed to the store, even if the store or a
    transport raised afterwards. *)
Theorem failed_verdict_is_reported env fw w pre rule post :
  framework_rules fw (rules w) = pre ++ rule :: post ->
  exists res1 w1 res w',
    for_fold (check_rule_step env fw) pre (initial_results fw w) w
    = (Ok res1, w1) /\
    _check_framework_compliance env fw w = (Ok res, w') /\
    forall d w2,
      _execute_rule_check env rule w1 = (Ok (false, d), w2) ->
      exists v,
        v ∈ fr_violations res /\ v ∈ store_attempts (trace w') /\
        details v = d /\ detected_at v = now w2 /\
        violation_of_rule fw rule v.
Proof.
  intros Hrules.
  destruct (framework_run_at_turn env fw w pre rule post Hrules)
    as (res1 & w1 & res2 & w2 & res & w' & E1 & E2 & E & [more Hv] & Hw).
  exists res1, w1, res, w'. split; [exact E1|]. split; [exact E|].
  intros d w2' Hcheck.
  destruct (check_rule_step_fail_handled env fw res1 rule w1 d w2' Hcheck)
    as (w3 & E3 & Hs).
  rewrite E3 in E2. injection E2 as <- <-.
  eexists. split; [|split; [|split; [|split]]].
  - rewrite Hv. simpl. apply elem_of_app. left.
    apply elem_of_app. right. apply list_elem_of_here.
  - destruct Hw as [calls Hc]. rewrite Hc, store_attempts_app.
    apply elem_of_app. left. exact Hs.
  - reflexivity.
  - reflexivity.
  - repeat split.
Qed.

Lemma failed_verdict_is_reported_witness :
  exists res w' v,
    _check_framework_compliance Samples.calm_env HIPAA
      (Samples.monitor_with (Samples.ten_rules 9) 0) = (Ok res, w') /\
    v ∈ fr_violations res /\ v ∈ store_attempts (trace w') /\
    details v = [("count", PyInt 5)].
Proof.
  destruct (failed_verdict_is_reported Samples.calm_env HIPAA
              (Samples.monitor_with (Samples.ten_rules 9) 0)
              (take 9 (Samples.ten_rules 9))
              (Samples.hipaa_rule "r" "check_counts_five" "daily") []
              eq_refl)
    as (res1 & w1 & res & w' & E1 & E & H).
  vm_compute in E1. injection E1 as <- <-.
  destruct (H _ _ eq_refl) as (v & Hv & Hs & Hd & _).
  exists res, w', v. auto.
Defined.

(** X4: every violation a framework check returns was raised for an enabled
    rule of that framework, and carries that rule's id, severity, title and
    description, with status "open": disabled rules and rules of other
    frameworks never show in the result. *)
Theorem violations_come_from_enabled_rules env fw w res w' :
  _check_framework_compliance env fw w = (Ok res, w') ->
  Forall (fun v => exists rule,
              rule ∈ rules w /\ enabled rule = true /\ framework rule = fw /\
              violation_of_rule fw rule v)
         (fr_violations res).
Proof.
  rewrite check_framework_run.
  set (todo := framework_rules fw (rules w)).
  set (P := fun (done_ : list ComplianceRule) (v : ComplianceViolation) =>
              exists rule, rule ∈ done_ /\ violation_of_rule fw rule v).
  destruct (for_fold_invariant (check_rule_step env fw)
              (fun done_ r _ => Forall (P done_) (fr_violations r)) todo)
    with (done_ := @nil ComplianceRule) (acc := initial_results fw w) (s := w)
    as (res1 & w1 & E & Hall).
  - intros done_ x acc s Hacc.
    assert (Hweak : Forall (P (done_ ++ [x])) (fr_violations acc)).
    { eapply Forall_impl; [exact Hacc|]. intros v (rule & Hin & Hv).
      exists rule. split; [apply elem_of_app; now left | exact Hv]. }
    destruct (_execute_rule_check env x s) as [[[[] d]|e] s1] eqn:Ex.
    + rewrite (check_rule_step_pass _ _ _ _ _ _ _ Ex). eauto.
    + destruct (check_rule_step_fail _ fw acc _ _ _ _ Ex) as [s2 ->].
      do 2 eexists. split; [reflexivity|]. simpl.
      apply Forall_app. split; [exact Hweak|].
      apply Forall_cons. split; [|apply Forall_nil; exact I].
      exists x. split; [apply elem_of_app; right; apply list_elem_of_here|].
      repeat split.
    + rewrite (check_rule_step_raise _ _ _ _ _ _ _ Ex). eauto.
  - apply Forall_nil. exact I.
  - rewrite E. destruct (compliance_percentage res1); [|discriminate].
    intros H. injection H as <- <-. simpl.
    eapply Forall_impl; [exact Hall|]. intros v (rule & Hin & Hv).
    simpl in Hin. apply list_elem_of_In, filter_In in Hin.
    destruct Hin as [Hin Hsel]. apply andb_prop in Hsel.
    destruct Hsel as [Hfw Hen]. apply bool_decide_eq_true in Hfw.
    exists rule. split; [now apply list_elem_of_In|]. auto.
Qed.

Lemma violations_come_from_enabled_rules_witness :
  exists res w',
    _check_framework_compliance Samples.calm_env HIPAA
      (Samples.monitor_with (Samples.ten_rules 8) 0) = (Ok res, w') /\
    length (fr_violations res) = 2%nat /\
    Forall (fun v => v_severity v = HIGH /\ v_rule_id v = "r")
           (fr_violations res).
Proof.
  destruct (_check_framework_compliance Samples.calm_env HIPAA
              (Samples.monitor_with (Samples.ten_rules 8) 0))
    as [[res|e] w'] eqn:E; [|vm_compute in E; discriminate].
  exists res, w'. split; [reflexivity|].
  pose proof (violations_come_from_enabled_rules _ _ _ _ _ E) as Hall.
  split.
  - vm_compute in E. injection E as <- _. reflexivity.
  - eapply Forall_impl; [exact Hall|].
    intros v (rule & Hin & _ & _ & Hid & _ & Hsev & _).
    rewrite Hid, Hsev. clear -Hin. simpl in Hin.
    repeat (apply elem_of_cons in Hin; destruct Hin as [->|Hin];
            [split; reflexivity|]).
    apply elem_of_nil in Hin. contradiction.
Defined.

(** X5: a framework reported COMPLIANT has every enabled rule counted as
    compliant and carries no violation. *)
Theorem compliant_framework_has_no_violations env fw w res w' :
  _check_framework_compliance env fw w = (Ok res, w') ->
  fr_status res = COMPLIANT ->
  compliant_rules res = total_rules res /\ fr_violations res = [].
Proof.
  rewrite check_framework_run.
  destruct (framework_loop_tally env fw (framework_rules fw (rules w))
              (initial_results fw w) w)
    as (res1 & w1 & E & Ht & Hc & _).
  rewrite E. unfold compliance_percentage.
  destruct (total_rules res1) as [|n] eqn:Ltot; [discriminate|].
  intros H. injection H as <- <-. simpl. intros Hst.
  apply classify_compliant, ratio_1_inv in Hst; [|lia].
  simpl in Ht, Hc. split; [congruence|].
  destruct (fr_violations res1); [reflexivity|]. simpl in Hc. lia.
Qed.

Lemma compliant_framework_has_no_violations_witness :
  exists res w',
    _check_framework_compliance Samples.calm_env GDPR
      (initial_monitor true false 0) = (Ok res, w') /\
    compliant_rules res = 2%nat /\ fr_violations res = [].
Proof.
  destruct (_check_framework_compliance Samples.calm_env GDPR
              (initial_monitor true false 0))
    as [[res|e] w'] eqn:E; [|vm_compute in E; discriminate].
  exists res, w'. split; [reflexivity|].
  destruct (compliant_framework_has_no_violations _ _ _ _ _ E) as [Hc Hv].
  - vm_compute in E. injection E as <- _. reflexivity.
  - split; [|exact Hv]. rewrite Hc.
    vm_compute in E. injection E as <- _. reflexivity.
Defined.

(** *** [check_compliance] *)

Lemma preserves_for_fold {A B C} (f : Monitor -> C) (body : B -> A -> MM B)
      xs acc :
  (forall b x, preserves f (body b x)) -> preserves f (for_fold body xs acc).
Proof.
  intros H. revert acc. induction xs as [|x xs IH]; intros acc w; simpl.
  - reflexivity.
  - unfold bind. specialize (H acc x w).
    destruct (body acc x w) as [[b|e] w1]; simpl in *; [|assumption].
    now rewrite IH.
Qed.

(** The registry is read, never written, by a framework check. *)
Lemma framework_check_keeps_rules env fw :
  preserves rules (_check_framework_compliance env fw).
Proof.
  assert (Hrec : forall c o w, rules (record_call c o w) = rules w)
    by reflexivity.
  unfold _check_framework_compliance.
  apply preserves_bind; [apply preserves_gets|]. intros rs.
  apply preserves_bind.
  - apply preserves_for_fold. intros b x. unfold check_rule_step.
    apply preserves_bind.
    + apply preserves_attempt.
      apply preserves_execute_rule_check; exact Hrec.
    + intros [e|[[] d]].
      * apply preserves_bind; [apply preserves_log; exact Hrec|].
        intros _. apply preserves_ret.
      * apply preserves_ret.
      * unfold _generate_violation_id.
        apply preserves_bind; [apply preserves_gets|]. intros vid.
        apply preserves_bind; [apply preserves_gets|]. intros t.
        apply preserves_bind.
        -- apply preserves_attempt.
           apply preserves_handle_violation; [exact Hrec | reflexivity].
        -- intros [e|[]]; [|apply preserves_ret].
           apply preserves_bind; [apply preserves_log; exact Hrec|].
           intros _. apply preserves_ret.
  - intros r. destruct (compliance_percentage r);
      [apply preserves_ret | apply preserves_raise].
Qed.

(** A framework check returns exactly when the framework has an enabled
    rule; otherwise the percentage divides by zero. *)
Lemma framework_check_outcome env fw w :
  match framework_rules fw (rules w) with
  | [] => fst (_check_framework_compliance env fw w) = Raise ZeroDivisionError
  | _ :: _ => exists res, fst (_check_framework_compliance env fw w) = Ok res
  end.
Proof.
  rewrite check_framework_run.
  destruct (framework_loop_tally env fw (framework_rules fw (rules w))
              (initial_results fw w) w)
    as (res1 & w1 & E & Ht & _ & _).
  rewrite E. unfold compliance_percentage. rewrite Ht. simpl.
  destruct (framework_rules fw (rules w)); simpl; eauto.
Qed.

(** One framework of [check_compliance]. *)
Lemma check_compliance_step_outcome env acc f w :
  match framework_rules f (rules w) with
  | [] => exists w',
      check_compliance_step env acc f w = (Raise ZeroDivisionError, w')
  | _ :: _ => exists r w',
      check_compliance_step env acc f w = (Ok r, w') /\
      rules w' = rules w /\
      map fst (frameworks r) = map fst (frameworks acc) ++ [framework_value f]
  end.
Proof.
  pose proof (framework_check_outcome env f w) as Hf.
  pose proof (framework_check_keeps_rules env f w) as Hk.
  unfold check_compliance_step, bind, ret.
  destruct (_check_framework_compliance env f w) as [[fr|e] w1];
    simpl in Hf, Hk; destruct (framework_rules f (rules w)).
  - discriminate.
  - do 2 eexists. split; [reflexivity|]. split; [exact Hk|].
    simpl. now rewrite map_app.
  - injection Hf as ->. eauto.
  - destruct Hf as [res Hres]. discriminate.
Qed.

(** The loop of [check_compliance] over the frameworks to check. *)
Lemma frameworks_loop_returns env fws acc w :
  Forall (fun f => framework_rules f (rules w) <> []) fws ->
  exists r w',
    for_fold (check_compliance_step env) fws acc w = (Ok r, w') /\
    map fst (frameworks r)
    = map fst (frameworks acc) ++ map framework_value fws.
Proof.
  revert acc w. induction fws as [|f fws IH]; intros acc w Hall.
  - exists acc, w. simpl. now rewrite app_nil_r.
  - inversion Hall as [|? ? Hne Hrest]; subst.
    pose proof (check_compliance_step_outcome env acc f w) as Hstep.
    destruct (framework_rules f (rules w)); [congruence|].
    destruct Hstep as (r1 & w1 & E1 & Hr1 & Hm1).
    rewrite <- Hr1 in Hrest.
    destruct (IH r1 w1 Hrest) as (r & w' & E & Hm).
    exists r, w'. simpl. rewrite (bind_ok _ _ _ _ _ E1).
    split; [exact E|]. rewrite Hm, Hm1. now rewrite <- app_assoc.
Qed.

Lemma frameworks_loop_raises env fws acc w :
  Exists (fun f => framework_rules f (rules w) = []) fws ->
  exists w',
    for_fold (check_compliance_step env) fws acc w
    = (Raise ZeroDivisionError, w').
Proof.
  revert acc w. induction fws as [|f fws IH]; intros acc w Hex.
  - inversion Hex.
  - pose proof (check_compliance_step_outcome env acc f w) as Hstep.
    simpl. destruct (framework_rules f (rules w)) eqn:Ef.
    + destruct Hstep as [w' E]. exists w'.
      now rewrite (bind_raise _ _ _ _ _ E).
    + destruct Hstep as (r1 & w1 & E1 & Hr1 & _).
      rewrite (bind_ok _ _ _ _ _ E1). apply IH.
      inversion Hex as [? ? Hnil|? ? Hrest]; subst; [congruence|].
      now rewrite Hr1.
Qed.

(** X6: [check_compliance] returns a result covering every framework asked
    for, in order, whenever each of them has an enabled rule and the
    recommendation and storage steps return; what the checks, the violation
    store and the transports do cannot make it raise. *)
Theorem check_compliance_returns env fw w :
  Forall (fun f => framework_rules f (rules w) <> []) (frameworks_to_check fw) ->
  (forall r s, exists recs, recommend env r s = Ok recs) ->
  (forall r s, outcome env (StoreComplianceResults r) s = None) ->
  exists results w',
    check_compliance env fw w = (Ok results, w') /\
    map fst (frameworks results)
    = map framework_value (frameworks_to_check fw) /\
    last (trace w') = Some (StoreComplianceResults results, None).
Proof.
  intros Hall Hrec Hstore. rewrite check_compliance_run. cbv zeta.
  destruct (frameworks_loop_returns env (frameworks_to_check fw)
              (mkComplianceResults (now w) [] COMPLIANT [] []) w Hall)
    as (r & w1 & E & Hm).
  rewrite E. destruct (Hrec r w1) as [recs ->]. rewrite Hstore.
  do 2 eexists. split; [reflexivity|]. split; [exact Hm|].
  simpl. apply last_snoc.
Qed.

Lemma check_compliance_returns_witness :
  exists results w',
    check_compliance Samples.calm_env (Some GDPR)
      (initial_monitor true false 0) = (Ok results, w') /\
    map fst (frameworks results) = ["gdpr"].
Proof.
  destruct (check_compliance_returns Samples.calm_env (Some GDPR)
              (initial_monitor true false 0))
    as (results & w' & E & Hm & _).
  - apply Forall_cons. split; [discriminate | apply Forall_nil; exact I].
  - intros r s. exists []. reflexivity.
  - reflexivity.
  - exists results, w'. split; [exact E | exact Hm].
Defined.

(** X7: [check_compliance] raises ZeroDivisionError whenever one of the
    frameworks it is to check has no enabled rule, whatever the world does,
    and the last thing it does is log that error. *)
Theorem check_compliance_needs_rules_everywhere env fw w :
  Exists (fun f => framework_rules f (rules w) = []) (frameworks_to_check fw) ->
  fst (check_compliance env fw w) = Raise ZeroDivisionError /\
  last (trace (snd (check_compliance env fw w)))
  = Some (Log "error" "Compliance check failed: division by zero", None).
Proof.
  intros Hex. rewrite check_compliance_run. cbv zeta.
  destruct (frameworks_loop_raises env (frameworks_to_check fw)
              (mkComplianceResults (now w) [] COMPLIANT [] []) w Hex)
    as (w1 & E).
  rewrite E. simpl. split; [reflexivity | apply last_snoc].
Qed.

Lemma check_compliance_needs_rules_everywhere_witness :
  fst (check_compliance Samples.db_down_env None
         (initial_monitor true true 0)) = Raise ZeroDivisionError.
Proof.
  apply (check_compliance_needs_rules_everywhere Samples.db_down_env None
           (initial_monitor true true 0)).
  apply Exists_cons_tl, Exists_cons_hd. reflexivity.
Defined.

(** *** The scheduler *)

(** After a step in which the check of a due rule returned, the rule's
    entry holds the tick's time. *)
Lemma last_check_recorded env t rule w verdict :
  enabled rule = true ->
  check_due rule (last_check_times w !! rule_id rule) t = true ->
  fst (_execute_rule_check env rule w) = Ok verdict ->
  last_check_times (snd (scheduled_rule_step env t rule w)) !! rule_id rule
  = Some t.
Proof.
  intros Hen Hdue Hok. rewrite (scheduled_rule_step_run _ _ _ _ Hen Hdue).
  destruct (_execute_rule_check env rule w) as [[[[] d]|e] w1];
    simpl in Hok; [| |discriminate].
  - simpl. apply lookup_insert_eq.
  - cbv zeta iota. match goal with
    | |- context [_handle_violation env ?v ?s] =>
        pose proof (preserves_handle_violation last_check_times
                      (fun _ _ _ => eq_refl) env v (fun _ _ => eq_refl) s)
          as Hh;
        destruct (_handle_violation env v s) as [[[]|e] w3]
    end; simpl in Hh |- *; rewrite Hh; simpl; apply lookup_insert_eq.
Qed.

(** X8: once the check of a daily, weekly or monthly rule has returned at a
    tick, a step for that rule at any time less than the interval later
    does nothing at all: no check is run and the state is left as it was. *)
Theorem check_not_repeated_within_interval env env' t t' rule w days verdict :
  enabled rule = true ->
  interval_days (frequency rule) = Some days ->
  check_due rule (last_check_times w !! rule_id rule) t = true ->
  fst (_execute_rule_check env rule w) = Ok verdict ->
  t' - t < days * day_us ->
  scheduled_rule_step env' t' rule (snd (scheduled_rule_step env t rule w))
  = (Ok tt, snd (scheduled_rule_step env t rule w)).
Proof.
  intros Hen Hfreq Hdue Hok Hsoon.
  pose proof (last_check_recorded env t rule w verdict Hen Hdue Hok) as Hlast.
  set (w' := snd (scheduled_rule_step env t rule w)) in *.
  assert (Hnot : check_due rule (Some t) t' = false).
  { destruct (check_due rule (Some t) t') eqn:E; [|reflexivity].
    apply (check_due_interval _ _ _ _ Hfreq) in E.
    destruct E as [E|(l & E & Hl)]; [discriminate|].
    injection E as <-. lia. }
  unfold scheduled_rule_step. rewrite Hen. unfold bind, gets. simpl.
  rewrite Hlast, Hnot. reflexivity.
Qed.

Lemma check_not_repeated_within_interval_witness :
  scheduled_rule_step Samples.db_down_env (7 + 23 * 3600 * second_us)
    (Samples.hipaa_rule "R1" "check_counts_five" "daily")
    (snd (scheduled_rule_step Samples.calm_env 7
            (Samples.hipaa_rule "R1" "check_counts_five" "daily")
            (Samples.monitor_with [] 7)))
  = (Ok tt,
     snd (scheduled_rule_step Samples.calm_env 7
            (Samples.hipaa_rule "R1" "check_counts_five" "daily")
            (Samples.monitor_with [] 7))).
Proof.
  apply (check_not_repeated_within_interval Samples.calm_env
           Samples.db_down_env 7 (7 + 23 * 3600 * second_us)
           (Samples.hipaa_rule "R1" "check_counts_five" "daily")
           (Samples.monitor_with [] 7) 1 (false, [("count", PyInt 5)])
           eq_refl eq_refl eq_refl eq_refl).
  vm_compute. reflexivity.
Defined.

(** X9: when the scheduled check of a due rule answers (False, details),
    the step hands the store a violation carrying those details, the rule's
    data and the tick's time as [detected_at], and returns whatever the
    store and the transports do. *)
Theorem scheduled_violation_carries_details env t rule w d w1 :
  enabled rule = true ->
  check_due rule (last_check_times w !! rule_id rule) t = true ->
  _execute_rule_check env rule w = (Ok (false, d), w1) ->
  fst (scheduled_rule_step env t rule w) = Ok tt /\
  exists v,
    v ∈ store_attempts (trace (snd (scheduled_rule_step env t rule w))) /\
    details v = d /\ detected_at v = t /\
    violation_of_rule (framework rule) rule v.
Proof.
  intros Hen Hdue Hcheck.
  rewrite (scheduled_rule_step_run _ _ _ _ Hen Hdue), Hcheck. cbv zeta.
  match goal with
  | |- context [_handle_violation env ?v ?s] =>
      destruct (handler_attempts_store env v s) as [calls Hc];
      destruct (_handle_violation env v s) as [[[]|e] w3];
      simpl in Hc |- *; (split; [reflexivity|]); exists v
  end;
    (split; [|split; [reflexivity|split; [reflexivity|repeat split]]]);
    rewrite Hc, ?store_attempts_app; simpl;
    rewrite ?elem_of_app, ?elem_of_cons; auto.
Qed.

Lemma scheduled_violation_carries_details_witness :
  exists v,
    v ∈ store_attempts
          (trace (snd (scheduled_rule_step Samples.calm_env 7
                         (Samples.hipaa_rule "R1" "check_counts_five" "daily")
                         (Samples.monitor_with [] 7)))) /\
    v_rule_id v = "R1" /\ details v = [("count", PyInt 5)] /\
    detected_at v = 7.
Proof.
  destruct (scheduled_violation_carries_details Samples.calm_env 7
              (Samples.hipaa_rule "R1" "check_counts_five" "daily")
              (Samples.monitor_with [] 7) _ _ eq_refl eq_refl eq_refl)
    as (_ & v & Hin & Hd & Ht & Hid & _).
  exists v. auto.
Defined.

(** *** The audit flusher *)

Lemma db_calls_app l l' : db_calls (l ++ l') = db_calls l ++ db_calls l'.
Proof. apply omap_app. Qed.

Lemma db_calls_inserts events :
  db_calls (map (fun e => (InsertAuditLog e, @None exn)) events)
  = map InsertAuditLog events.
Proof. induction events as [|e events IH]; simpl; [|rewrite <- IH]; reflexivity. Qed.

(** With a database that takes every insert, the inserts run in the order
    of the events. *)
Lemma inserts_in_order env events w :
  (forall e s, outcome env (InsertAuditLog e) s = None) ->
  exists w',
    for_each (fun e => external env (InsertAuditLog e)) events w = (Ok tt, w')
    /\ audit_buffer w' = audit_buffer w
    /\ trace w' = trace w ++ map (fun e => (InsertAuditLog e, None)) events.
Proof.
  intros Hins. revert w. induction events as [|e events IH]; intros w; simpl.
  - exists w. now rewrite app_nil_r.
  - unfold bind, external at 1. rewrite Hins.
    destruct (IH (record_call (InsertAuditLog e) None w))
      as (w' & E & Hb & Ht).
    exists w'. split; [exact E|]. split; [exact Hb|].
    rewrite Ht. simpl. now rewrite <- app_assoc.
Qed.

(** A turn of the flusher on a non-empty buffer, its flush set apart. *)
Lemma audit_log_flusher_turn_run env w :
  audit_buffer w <> [] ->
  audit_log_flusher_turn env w
  = let failed e s :=
      (Ok tt, record_call (Log "error" ("Error flushing audit logs: "
                                        +:+ str_exn e)) None s) in
    match _flush_audit_events env (take flush_batch_size (audit_buffer w))
            (set_audit_buffer (drop flush_batch_size (audit_buffer w)) w) with
    | (Ok _, w2) =>
        match outcome env (Sleep 60) w2 with
        | None => (Ok tt, record_call (Sleep 60) None w2)
        | Some e => failed e (record_call (Sleep 60) (Some e) w2)
        end
    | (Raise e, w2) => failed e w2
    end.
Proof.
  intros Hne. unfold audit_log_flusher_turn, bind, attempt, gets, modify.
  destruct (audit_buffer w) as [|x buffer] eqn:Eb; [congruence|].
  rewrite pop_batch_take, app_nil_l. cbv beta iota zeta.
  destruct (_flush_audit_events env _ _) as [[[]|e] w2]; [|reflexivity].
  unfold external, log, modify, ret.
  destruct (outcome env (Sleep 60) w2); reflexivity.
Qed.

(** With a database that takes every statement, the flush is one cursor,
    the inserts in order and one commit; the buffer is not touched. *)
Lemma flush_succeeds env events w :
  (forall s, outcome env OpenCursor s = None) ->
  (forall e s, outcome env (InsertAuditLog e) s = None) ->
  (forall s, outcome env Commit s = None) ->
  exists w1,
    _flush_audit_events env events w = (Ok tt, w1) /\
    audit_buffer w1 = audit_buffer w /\
    db_calls (trace w1)
    = db_calls (trace w) ++ OpenCursor :: map InsertAuditLog events
      ++ [Commit].
Proof.
  intros Hcur Hins Hcom.
  destruct (inserts_in_order env events (record_call OpenCursor None w) Hins)
    as (w1 & E & Hb & Ht).
  assert (Hw : write_audit_events env events w
               = (Ok tt, record_call (Log "debug"
                                          "Flushed audit events to database")
                           None (record_call Commit None w1))).
  { unfold write_audit_events.
    unfold bind at 1, external at 1. rewrite Hcur.
    rewrite (bind_ok _ _ _ _ _ E).
    unfold bind, external. rewrite Hcom. reflexivity. }
  eexists. unfold _flush_audit_events.
  rewrite (bind_ok _ _ _ _ _ (attempt_ok _ _ _ _ Hw)).
  split; [reflexivity|]. split; [exact Hb|].
  cbn [trace record_call]. rewrite Ht. cbn [trace record_call].
  rewrite !db_calls_app, db_calls_inserts. simpl.
  rewrite ?app_nil_r, <- ?app_assoc. reflexivity.
Qed.

(** X10: when the database takes every statement, a turn of the flusher on
    a non-empty buffer removes the first hundred events (or all of them, if
    fewer) and sends the database one cursor, one insert per removed event
    in the order the events were logged, and one commit. *)
Theorem flush_sends_oldest_first env w :
  audit_buffer w <> [] ->
  (forall s, outcome env OpenCursor s = None) ->
  (forall e s, outcome env (InsertAuditLog e) s = None) ->
  (forall s, outcome env Commit s = None) ->
  audit_buffer (snd (audit_log_flusher_turn env w))
  = drop flush_batch_size (audit_buffer w) /\
  db_calls (trace (snd (audit_log_flusher_turn env w)))
  = db_calls (trace w)
    ++ OpenCursor
       :: map InsertAuditLog (take flush_batch_size (audit_buffer w))
    ++ [Commit].
Proof.
  intros Hne Hcur Hins Hcom.
  rewrite (audit_log_flusher_turn_run env w Hne). cbv zeta.
  destruct (flush_succeeds env (take flush_batch_size (audit_buffer w))
              (set_audit_buffer (drop flush_batch_size (audit_buffer w)) w)
              Hcur Hins Hcom)
    as (w1 & E & Hb & Hd).
  rewrite E.
  destruct (outcome env (Sleep 60) w1); simpl; rewrite ?db_calls_app; simpl;
    rewrite ?app_nil_r; split; assumption.
Qed.

Lemma flush_sends_oldest_first_witness :
  db_calls
    (trace (snd (audit_log_flusher_turn Samples.calm_env
                   (snd (for_each buffer_event
                           [Samples.sample_event "e1";
                            Samples.sample_event "e2"]
                           (Samples.monitor_with [] 0))))))
  = [OpenCursor; InsertAuditLog (Samples.sample_event "e1");
     InsertAuditLog (Samples.sample_event "e2"); Commit] /\
  audit_buffer
    (snd (audit_log_flusher_turn Samples.calm_env
            (snd (for_each buffer_event
                    [Samples.sample_event "e1"; Samples.sample_event "e2"]
                    (Samples.monitor_with [] 0))))) = [].
Proof.
  destruct (flush_sends_oldest_first Samples.calm_env
              (snd (for_each buffer_event
                      [Samples.sample_event "e1"; Samples.sample_event "e2"]
                      (Samples.monitor_with [] 0))))
    as [Hb Hd]; try reflexivity; [discriminate|].
  split; [rewrite Hd | rewrite Hb]; reflexivity.
Defined.

(** The inserts of a batch that holds an event the database refuses: the
    loop raises, having sent inserts only. *)
Lemma inserts_stop_at_refusal env events ev w :
  ev ∈ events ->
  (forall s, outcome env (InsertAuditLog ev) s <> None) ->
  exists e w' calls,
    for_each (fun e => external env (InsertAuditLog e)) events w
    = (Raise e, w') /\
    trace w' = trace w ++ calls /\ Commit ∉ db_calls calls.
Proof.
  intros Hin Hbad. revert w.
  induction events as [|x events IH]; intros w.
  - apply elem_of_nil in Hin. contradiction.
  - simpl. unfold bind, external at 1.
    destruct (outcome env (InsertAuditLog x) w) as [e|] eqn:Ex.
    + exists e, (record_call (InsertAuditLog x) (Some e) w),
        [(InsertAuditLog x, Some e)].
      split; [reflexivity|]. split; [reflexivity|]. simpl.
      rewrite elem_of_cons, elem_of_nil. intros [H|H]; [discriminate|exact H].
    + apply elem_of_cons in Hin. destruct Hin as [->|Hin].
      { exfalso. now apply (Hbad w). }
      destruct (IH Hin (record_call (InsertAuditLog x) None w))
        as (e & w' & calls & E & Ht & Hc).
      exists e, w', ((InsertAuditLog x, None) :: calls).
      split; [exact E|]. split.
      * rewrite Ht. simpl. now rewrite <- app_assoc.
      * simpl. rewrite elem_of_cons. intros [H|H]; [discriminate|auto].
Qed.

(** X11: a batch holding an event the database refuses is never committed:
    the flush sends no commit, raises nothing, and puts the whole batch back
    at the front of the buffer. *)
Theorem refused_insert_prevents_commit env events ev w :
  ev ∈ events ->
  (forall s, outcome env (InsertAuditLog ev) s <> None) ->
  (length events + length (audit_buffer w) <= audit_buffer_maxlen)%nat ->
  fst (_flush_audit_events env events w) = Ok tt /\
  audit_buffer (snd (_flush_audit_events env events w))
  = events ++ audit_buffer w /\
  exists calls,
    trace (snd (_flush_audit_events env events w)) = trace w ++ calls /\
    Commit ∉ db_calls calls.
Proof.
  intros Hin Hbad Hroom.
  assert (Hw : exists e w1 calls,
             write_audit_events env events w = (Raise e, w1) /\
             trace w1 = trace w ++ calls /\ Commit ∉ db_calls calls).
  { unfold write_audit_events. unfold bind at 1, external at 1.
    destruct (outcome env OpenCursor w) as [e|].
    - exists e, (record_call OpenCursor (Some e) w), [(OpenCursor, Some e)].
      split; [reflexivity|]. split; [reflexivity|]. simpl.
      rewrite elem_of_cons, elem_of_nil. intros [H|H]; [discriminate|exact H].
    - destruct (inserts_stop_at_refusal env events ev
                  (record_call OpenCursor None w) Hin Hbad)
        as (e & w1 & calls & E & Ht & Hc).
      exists e, w1, ((OpenCursor, None) :: calls).
      rewrite (bind_raise _ _ _ _ _ E). split; [reflexivity|]. split.
      + rewrite Ht. simpl. now rewrite <- app_assoc.
      + simpl. rewrite elem_of_cons. intros [H|H]; [discriminate|auto]. }
  destruct Hw as (e & w1 & calls & Hw & Ht & Hc).
  destruct (flush_failure_requeues env events w e w1 Hw) as [Hok Hbuf];
    [lia|].
  split; [exact Hok|]. split.
  - rewrite Hbuf. apply take_ge. rewrite length_app. lia.
  - unfold _flush_audit_events.
    rewrite (bind_ok _ _ _ _ _ (attempt_raise _ _ _ _ Hw)).
    unfold bind, log, modify. simpl. rewrite Ht.
    eexists. rewrite <- app_assoc. split; [reflexivity|].
    rewrite db_calls_app. simpl. now rewrite app_nil_r.
Qed.

Lemma refused_insert_prevents_commit_witness :
  audit_buffer
    (snd (_flush_audit_events Samples.insert_fails_env
            [Samples.sample_event "e1"; Samples.sample_event "e2"]
            (Samples.monitor_with [] 0)))
  = [Samples.sample_event "e1"; Samples.sample_event "e2"] /\
  db_calls
    (trace (snd (_flush_audit_events Samples.insert_fails_env
                   [Samples.sample_event "e1"; Samples.sample_event "e2"]
                   (Samples.monitor_with [] 0))))
  = [OpenCursor; InsertAuditLog (Samples.sample_event "e1")].
Proof.
  destruct (refused_insert_prevents_commit Samples.insert_fails_env
              [Samples.sample_event "e1"; Samples.sample_event "e2"]
              (Samples.sample_event "e2") (Samples.monitor_with [] 0))
    as (_ & Hb & _).
  - apply list_elem_of_further, list_elem_of_here.
  - intros s. discriminate.
  - vm_compute. lia.
  - split; [exact Hb | reflexivity].
Defined.

(** X12: a turn of the flusher either takes the first batch out of the
    buffer or leaves the buffer exactly as it was; it never drops an event
    it did not flush, and never reorders what stays. *)
Theorem flusher_turn_takes_batch_or_nothing env w :
  (length (audit_buffer w) <= audit_buffer_maxlen)%nat ->
  audit_buffer (snd (audit_log_flusher_turn env w)) = audit_buffer w
  \/ audit_buffer (snd (audit_log_flusher_turn env w))
     = drop flush_batch_size (audit_buffer w).
Proof.
  intros Hlen.
  destruct (audit_buffer w) as [|x buffer] eqn:Eb.
  - left. unfold audit_log_flusher_turn, bind, attempt, gets, external,
      log, modify, ret.
    rewrite Eb. destruct (outcome env (Sleep 60) w); simpl; exact Eb.
  - rewrite <- Eb in *.
    rewrite (audit_log_flusher_turn_run env w) by congruence. cbv zeta.
    set (batch := take flush_batch_size (audit_buffer w)).
    set (rest := drop flush_batch_size (audit_buffer w)).
    assert (Hflush :
              audit_buffer (snd (_flush_audit_events env batch
                                   (set_audit_buffer rest w)))
              = audit_buffer w
              \/ audit_buffer (snd (_flush_audit_events env batch
                                      (set_audit_buffer rest w))) = rest).
    { destruct (write_audit_events env batch (set_audit_buffer rest w))
        as [[[]|e] w1] eqn:Ew.
      - right. unfold _flush_audit_events.
        rewrite (bind_ok _ _ _ _ _ (attempt_ok _ _ _ _ Ew)).
        pose proof (write_audit_events_keeps_buffer env batch
                      (set_audit_buffer rest w)) as Hk.
        rewrite Ew in Hk. exact Hk.
      - left.
        destruct (flush_failure_requeues env batch _ e w1 Ew) as [_ Hq].
        { simpl. unfold rest. rewrite length_drop. lia. }
        rewrite Hq. simpl. unfold batch, rest.
        rewrite take_drop. now apply take_ge. }
    destruct (_flush_audit_events env batch (set_audit_buffer rest w))
      as [[[]|e] w2]; simpl in Hflush |- *;
      [destruct (outcome env (Sleep 60) w2); simpl|]; exact Hflush.
Qed.

Lemma flusher_turn_takes_batch_or_nothing_witness :
  audit_buffer
    (snd (audit_log_flusher_turn Samples.calm_env
            (snd (buffer_event (Samples.sample_event "e1")
                    (Samples.monitor_with [] 0))))) = [].
Proof.
  destruct (flusher_turn_takes_batch_or_nothing Samples.calm_env
              (snd (buffer_event (Samples.sample_event "e1")
                      (Samples.monitor_with [] 0))))
    as [H|H]; [vm_compute; lia | |exact H].
  vm_compute. reflexivity.
Defined.

(** *** Event ingestion *)

Import ComplianceIngest.

(** What one call of the handler leaves behind: the violation handed to the
    store once, the audit buffer as it was, and no transport touched unless
    the severity is HIGH or CRITICAL. *)
Lemma handler_footprint env v w :
  store_attempts (trace (snd (_handle_violation env v w)))
  = store_attempts (trace w) ++ [v] /\
  audit_buffer (snd (_handle_violation env v w)) = audit_buffer w /\
  (v_severity v ∉ [HIGH; CRITICAL] ->
   transport_calls (trace (snd (_handle_violation env v w)))
   = transport_calls (trace w)).
Proof.
  unfold _handle_violation, _send_violation_notification,
    _send_email_notification, external, log.
  unfold bind, attempt, gets, modify, ret.
  destruct (bool_decide (v_severity v ∈ [HIGH; CRITICAL])) eqn:Esev;
    handler_cases; simpl;
    rewrite ?store_attempts_app, ?transport_calls_app; simpl;
    rewrite ?app_nil_r;
    (split; [reflexivity|]); (split; [reflexivity|]);
    intros Hs; try reflexivity;
    apply bool_decide_eq_true in Esev; contradiction.
Qed.

Section Keeps.
Context {B : Type} (f : Monitor -> B).
Hypothesis f_log :
  forall level msg w, f (record_call (Log level msg) None w) = f w.

Lemma keeps_ret {A} (a : A) : keeps f (ret a).
Proof. intros s. reflexivity. Qed.

Lemma keeps_bind {A C} (m : IM A) (k : A -> IM C) :
  keeps f m -> (forall a, keeps f (k a)) -> keeps f (bind m k).
Proof.
  intros Hm Hk s. unfold bind. specialize (Hm s).
  destruct (m s) as [[a|e] s1]; simpl in *; [|assumption].
  now rewrite Hk.
Qed.

Lemma keeps_attempt {A} (m : IM A) : keeps f m -> keeps f (attempt m).
Proof.
  intros Hm s. unfold attempt. specialize (Hm s).
  now destruct (m s) as [[a|e] s1].
Qed.

Lemma keeps_lift {A} (m : MM A) : preserves f m -> keeps f (lift m).
Proof.
  intros Hm s. unfold lift. specialize (Hm (monitor s)).
  now destruct (m (monitor s)).
Qed.

Lemma keeps_cache_call ienv c : keeps f (cache_call ienv c).
Proof.
  intros s. unfold cache_call. now destruct (cache_outcome ienv c s).
Qed.

Lemma keeps_log level msg : keeps f (lift (log level msg)).
Proof. apply keeps_lift. intros w. apply f_log. Qed.

Lemma keeps_cache_audit_event ienv event :
  keeps f (_cache_audit_event ienv event).
Proof.
  unfold _cache_audit_event. apply keeps_bind.
  - apply keeps_attempt, keeps_bind; [apply keeps_cache_call|]. intros _.
    destruct (truthy (user_id event)); [|apply keeps_ret].
    apply keeps_bind; [apply keeps_cache_call|]. intros _.
    apply keeps_cache_call.
  - intros [e|[]]; [apply keeps_log | apply keeps_ret].
Qed.

Lemma keeps_check_event_compliance ienv event :
  (forall v, preserves f (_handle_violation (base ienv) v)) ->
  keeps f (_check_event_compliance ienv event).
Proof.
  intros Hhandle. unfold _check_event_compliance. apply keeps_bind.
  - apply keeps_attempt.
    destruct (String.eqb _ "data_access").
    + unfold _check_data_access_compliance.
      destruct (after_hours _); [|apply keeps_ret].
      apply keeps_bind; [apply keeps_lift; intros w; reflexivity|].
      intros vid.
      apply keeps_bind; [apply keeps_lift; intros w; reflexivity|].
      intros t. apply keeps_lift. apply Hhandle.
    + destruct (String.eqb _ "privilege_escalation");
        [apply keeps_cache_call | apply keeps_ret].
  - intros [e|[]]; [apply keeps_log | apply keeps_ret].
Qed.

End Keeps.

Lemma append_bounded {A} (maxlen : nat) (x : A) (d : list A) :
  (0 < maxlen)%nat ->
  (length (Deque.append maxlen x d) <= maxlen)%nat /\
  last (Deque.append maxlen x d) = Some x.
Proof.
  intros Hpos. unfold Deque.append. rewrite length_drop, length_app. simpl.
  split; [lia|].
  rewrite drop_app_le by lia. apply last_snoc.
Qed.

Lemma append_when_full {A} (maxlen : nat) (x : A) (d : list A) :
  (0 < maxlen)%nat -> length d = maxlen ->
  Deque.append maxlen x d = drop 1 d ++ [x].
Proof.
  intros Hpos H. unfold Deque.append. rewrite length_app. simpl.
  replace (length d + 1 - maxlen)%nat with 1%nat by lia.
  destruct d; simpl; [simpl in H; lia|].
  now rewrite drop_0.
Qed.

(** X13: [log_audit_event] never raises, whatever the checks, the store and
    the cache do, and always leaves the event at the back of the buffer:
    appended when there is room, in place of the oldest event when the
    buffer already holds 1000. *)
Theorem log_audit_event_always_buffers ienv event s :
  fst (log_audit_event ienv event s) = Ok tt /\
  audit_buffer (monitor (snd (log_audit_event ienv event s)))
  = Deque.append audit_buffer_maxlen event (audit_buffer (monitor s)) /\
  last (audit_buffer (monitor (snd (log_audit_event ienv event s))))
  = Some event /\
  (length (audit_buffer (monitor (snd (log_audit_event ienv event s))))
   <= audit_buffer_maxlen)%nat /\
  ((length (audit_buffer (monitor s)) < audit_buffer_maxlen)%nat ->
   audit_buffer (monitor (snd (log_audit_event ienv event s)))
   = audit_buffer (monitor s) ++ [event]) /\
  (length (audit_buffer (monitor s)) = audit_buffer_maxlen ->
   audit_buffer (monitor (snd (log_audit_event ienv event s)))
   = drop 1 (audit_buffer (monitor s)) ++ [event]).
Proof.
  assert (Hrec : forall c o w, audit_buffer (record_call c o w)
                               = audit_buffer w) by reflexivity.
  assert (Hlog : forall level msg w,
             audit_buffer (record_call (Log level msg) None w)
             = audit_buffer w) by reflexivity.
  split.
  { unfold log_audit_event. apply guarded_returns.
    intros e s'. unfold lift. reflexivity. }
  assert (Hbuf : audit_buffer (monitor (snd (log_audit_event ienv event s)))
                 = Deque.append audit_buffer_maxlen event
                     (audit_buffer (monitor s))).
  { unfold log_audit_event.
    match goal with
    | |- context [lift (buffer_event event) ;;; ?rest] =>
        assert (Hrest : keeps audit_buffer rest)
    end.
    { apply keeps_bind.
      - destruct (bool_decide _); [|apply keeps_ret].
        apply keeps_check_event_compliance; [exact Hlog|].
        intros v. apply preserves_handle_violation; [exact Hrec|reflexivity].
      - intros _. apply keeps_cache_audit_event. exact Hlog. }
    unfold bind at 1, attempt at 1, bind at 1, lift at 1, buffer_event,
      modify. simpl.
    match goal with
    | |- context [?rest (mkIngest ?w ?c)] =>
        specialize (Hrest (mkIngest w c));
        destruct (rest (mkIngest w c)) as [[[]|e] s1]
    end; simpl in Hrest |- *; exact Hrest. }
  split; [exact Hbuf|]. rewrite Hbuf.
  destruct (append_bounded audit_buffer_maxlen event
              (audit_buffer (monitor s))) as [Hlen Hlast];
    [unfold audit_buffer_maxlen; lia|].
  split; [exact Hlast|]. split; [exact Hlen|]. split.
  - intros Hroom. now apply append_with_room.
  - intros Hfull. apply append_when_full; [|exact Hfull].
    unfold audit_buffer_maxlen. lia.
Qed.

(** What the immediate check leaves on the record. *)
Lemma check_event_footprint ienv event s :
  store_attempts (trace (monitor (snd (_check_event_compliance ienv event s))))
  = store_attempts (trace (monitor s))
    ++ (if String.eqb (event_type event) "data_access"
           && after_hours (timestamp event)
        then [after_hours_violation ienv
                (fresh_violation_id (base ienv) (monitor s)) event
                (now (monitor s))]
        else []) /\
  transport_calls
    (trace (monitor (snd (_check_event_compliance ienv event s))))
  = transport_calls (trace (monitor s)).
Proof.
  unfold _check_event_compliance, _check_data_access_compliance.
  destruct (String.eqb (event_type event) "data_access");
    [destruct (after_hours (timestamp event))|]; simpl andb; cbv iota.
  - unfold bind, attempt, lift, _generate_violation_id, gets, ret, log,
      modify. simpl.
    match goal with
    | |- context [_handle_violation ?e ?v ?w] =>
        destruct (handler_footprint e v w) as (Hs & _ & Ht);
        destruct (_handle_violation e v w) as [[[]|ex] w2]
    end; simpl in Hs, Ht |- *;
      rewrite ?store_attempts_app, ?transport_calls_app; simpl;
      rewrite ?app_nil_r; (split; [exact Hs|]); apply Ht;
      intros Hin; repeat (apply elem_of_cons in Hin;
                          destruct Hin as [Hin|Hin]; [discriminate|]);
      apply elem_of_nil in Hin; contradiction.
  - unfold bind, attempt, ret. simpl. now rewrite app_nil_r.
  - destruct (String.eqb (event_type event) "privilege_escalation").
    + unfold bind, attempt, cache_call, lift, log, modify, ret.
      destruct (cache_outcome ienv _ s); simpl;
        rewrite ?store_attempts_app, ?transport_calls_app; simpl;
        rewrite ?app_nil_r; auto.
    + unfold bind, attempt, ret. simpl. now rewrite app_nil_r.
Qed.

(** X14: of the events [log_audit_event] checks with code of the file,
    which is every type but "privilege_escalation" (handed to a method the
    file does not define), only a data access before 06:00 or from 23:00
    on raises a violation: one MEDIUM violation of rule "custom_001" naming
    the event, its user, time and resource is handed to the store. Every
    other such event, "data_modification" included, reaches neither the
    store nor a transport. *)
Theorem only_after_hours_access_is_flagged ienv event s :
  event_type event <> "privilege_escalation" ->
  transport_calls (trace (monitor (snd (log_audit_event ienv event s))))
  = transport_calls (trace (monitor s)) /\
  store_attempts (trace (monitor (snd (log_audit_event ienv event s))))
  = store_attempts (trace (monitor s))
    ++ (if String.eqb (event_type event) "data_access"
           && after_hours (timestamp event)
        then [after_hours_violation ienv
                (fresh_violation_id (base ienv)
                   (set_audit_buffer
                      (Deque.append audit_buffer_maxlen event
                         (audit_buffer (monitor s))) (monitor s)))
                event (now (monitor s))]
        else []).
Proof.
  intros _.
  set (f := fun w => (store_attempts (trace w), transport_calls (trace w))).
  assert (Hlog : forall level msg w,
             f (record_call (Log level msg) None w) = f w).
  { intros level msg w. unfold f. simpl.
    rewrite store_attempts_app, transport_calls_app. simpl.
    now rewrite !app_nil_r. }
  set (w1 := set_audit_buffer
               (Deque.append audit_buffer_maxlen event
                  (audit_buffer (monitor s))) (monitor s)).
  set (s1 := mkIngest w1 (cache_log s)).
  destruct (check_event_footprint ienv event s1) as [Hs Ht].
  pose proof (keeps_cache_audit_event f Hlog ienv event) as Hcache.
  assert (Hin : String.eqb (event_type event) "data_access" = true ->
                bool_decide (event_type event ∈ immediate_check_types) = true).
  { intros E. apply String.eqb_eq in E. rewrite E. reflexivity. }
  assert (Hgoal : f (monitor (snd (log_audit_event ienv event s)))
                  = (store_attempts (trace (monitor s))
                     ++ (if String.eqb (event_type event) "data_access"
                            && after_hours (timestamp event)
                         then [after_hours_violation ienv
                                 (fresh_violation_id (base ienv) w1) event
                                 (now (monitor s))]
                         else []),
                     transport_calls (trace (monitor s)))).
  { unfold log_audit_event.
    unfold bind at 1, attempt at 1, bind at 1, lift at 1, buffer_event,
      modify. simpl. fold w1. fold s1.
    unfold bind at 1.
    destruct (bool_decide (event_type event ∈ immediate_check_types)) eqn:Ei.
    - pose proof (guarded_returns
                    (if String.eqb (event_type event) "data_access"
                     then _check_data_access_compliance ienv event
                     else if String.eqb (event_type event)
                                        "privilege_escalation"
                          then cache_call ienv (CheckPrivilegeEscalation event)
                          else ret tt)
                    (fun e => lift (log "error"
                                      ("Failed to check event compliance: "
                                       +:+ str_exn e)))
                    s1 (fun _ _ => eq_refl)) as Hok.
      change (fst (_check_event_compliance ienv event s1) = Ok tt) in Hok.
      destruct (_check_event_compliance ienv event s1) as [r s2].
      simpl in Hok, Hs, Ht. subst r.
      specialize (Hcache s2).
      destruct (_cache_audit_event ienv event s2) as [[[]|e] s3];
        simpl in Hcache |- *; try rewrite Hlog; rewrite Hcache;
        unfold f; now rewrite Hs, Ht.
    - assert (Hno : String.eqb (event_type event) "data_access" = false).
      { destruct (String.eqb (event_type event) "data_access"); [|reflexivity].
        specialize (Hin eq_refl). congruence. }
      rewrite Hno. simpl andb. cbv iota. rewrite app_nil_r.
      unfold ret at 1. specialize (Hcache s1).
      destruct (_cache_audit_event ienv event s1) as [[[]|e] s3];
        simpl in Hcache |- *; try rewrite Hlog; rewrite Hcache;
        reflexivity. }
  unfold f in Hgoal. injection Hgoal as H1 H2. split; assumption.
Qed.

Lemma only_after_hours_access_is_flagged_witness :
  SecurityMonitor.hour_of (timestamp (Samples.sample_event "evt_1")) = 0 /\
  map (fun v => (v_rule_id v, v_severity v, details v))
      (store_attempts
         (trace (monitor
                   (snd (log_audit_event MoreSamples.calm_ingest
                           (Samples.sample_event "evt_1")
                           MoreSamples.fresh_ingest)))))
  = [("custom_001", MEDIUM,
      [ ("event_id", PyStr "evt_1"); ("user_id", PyStr "user123");
        ("access_time", PyStr "1970-01-01T00:00:00");
        ("resource", PyStr "/api/patients") ])] /\
  transport_calls
    (trace (monitor
              (snd (log_audit_event MoreSamples.calm_ingest
                      (Samples.sample_event "evt_1")
                      MoreSamples.fresh_ingest)))) = [].
Proof.
  destruct (only_after_hours_access_is_flagged MoreSamples.calm_ingest
              (Samples.sample_event "evt_1") MoreSamples.fresh_ingest)
    as [Ht Hs]; [discriminate|].
  split; [reflexivity|]. rewrite Hs, Ht. split; reflexivity.
Defined.

(** ** The backup check *)

Import ComplianceChecks.

Lemma one_character_lacks_encrypted c :
  lacks_encrypted (String c EmptyString) = true.
Proof.
  unfold lacks_encrypted. cbn [lower contains String.prefix].
  destruct (Ascii.ascii_dec _ _); reflexivity.
Qed.

Lemma filter_characters s :
  List.filter lacks_encrypted (characters s) = characters s.
Proof.
  induction s as [|c s IH]; [reflexivity|].
  cbn [characters List.filter]. rewrite one_character_lacks_encrypted.
  now rewrite IH.
Qed.

Lemma filter_nil_iff {A} (f : A -> bool) l :
  List.filter f l = [] <-> Forall (fun x => f x = false) l.
Proof.
  induction l as [|x l IH]; cbn [List.filter].
  - split; [constructor | reflexivity].
  - destruct (f x) eqn:E; split; intro H.
    + discriminate.
    + inversion H; subst. congruence.
    + constructor; [assumption | now apply IH].
    + inversion H; subst. now apply IH.
Qed.

Lemma length_zero_nil {A} (l : list A) :
  Nat.eqb (length l) 0 = true <-> l = [].
Proof. destruct l; cbn; split; intro H; congruence. Qed.

(** The loop over strings collects, in order, those without the word. *)
Lemma scan_names l : forall acc,
  scan (map Name l) acc = inr (acc ++ List.filter lacks_encrypted l).
Proof.
  induction l as [|s l IH]; intros acc; cbn [map scan List.filter].
  - now rewrite app_nil_r.
  - rewrite IH. destruct (lacks_encrypted s); [|reflexivity].
    now rewrite <- app_assoc.
Qed.

(** The first value that is not a string ends the loop. *)
Lemma scan_other pre raised post : forall acc,
  scan (map Name pre ++ Other raised :: post) acc = inl raised.
Proof.
  induction pre as [|s pre IH]; intros acc; cbn [map app scan];
    [reflexivity | apply IH].
Qed.

Lemma items_cases (items : list Item) :
  (exists l, items = map Name l)
  \/ (exists pre raised post, items = map Name pre ++ Other raised :: post).
Proof.
  induction items as [|[s|raised] items IH].
  - left. now exists [].
  - destruct IH as [[l ->]|(pre & r & post & ->)].
    + left. now exists (s :: l).
    + right. now exists (s :: pre), r, post.
  - right. now exists [], raised, items.
Qed.

Lemma map_Name_inj l : forall l', map Name l = map Name l' -> l = l'.
Proof.
  induction l as [|s l IH]; intros [|s' l'] H; try discriminate;
    [reflexivity|].
  cbn in H. injection H as -> H. f_equal. now apply IH.
Qed.

Lemma characters_length s : length (characters s) = String.length s.
Proof. induction s; cbn; congruence. Qed.

(** X21: the backup check looks at the names of the locations only. Given
    a list, tuple, set or dict of values, it passes exactly when every
    value is a string whose lowered text contains "encrypted"; when all are
    strings its evidence counts them and lists the others in order, and
    the first value that is not a string turns the answer into (False,
    {"error": message}). With no [backup_locations] parameter it passes
    over zero locations; a parameter that is one string is taken character
    by character and passes only when empty; a value that has no length or
    cannot be iterated fails with error evidence. *)
Theorem backup_check_reads_names_only fmt t :
  let check := fun locations => check_data_backup_encryption fmt locations t in
  let named_encrypted := fun s => contains "encrypted" (lower s) = true in
  check Missing
  = (true, [ ("total_backup_locations", PyInt 0);
             ("unencrypted_backups", PyStrList []);
             ("check_timestamp", PyStr (fmt t)) ]) /\
  (forall items,
      fst (check (Sized items)) = true
      <-> exists l, items = map Name l /\ Forall named_encrypted l) /\
  (forall l,
      snd (check (Sized (map Name l)))
      = [ ("total_backup_locations", PyInt (Z.of_nat (length l)));
          ("unencrypted_backups",
           PyStrList (List.filter (fun s => negb (contains "encrypted"
                                                           (lower s))) l));
          ("check_timestamp", PyStr (fmt t)) ]) /\
  (forall pre raised post,
      check (Sized (map Name pre ++ Other raised :: post))
      = (false, [("error", PyStr raised)])) /\
  (forall s,
      (fst (check (Text s)) = true <-> s = EmptyString) /\
      dict_get "unencrypted_backups" (snd (check (Text s)))
      = Some (PyStrList (characters s))) /\
  (forall items raised,
      fst (check (Unsized items raised)) = false /\
      exists msg, snd (check (Unsized items raised)) = [("error", PyStr msg)]) /\
  (forall raised,
      check (NotIterable raised) = (false, [("error", PyStr raised)])).
Proof.
  cbv zeta. unfold check_data_backup_encryption.
  split; [reflexivity|]. split; [|split; [|split; [|split; [|split]]]].
  - intros items. destruct (items_cases items)
      as [[l ->]|(pre & raised & post & ->)].
    + rewrite scan_names. cbn [app backup_verdict fst]. split.
      * intros E. apply length_zero_nil, filter_nil_iff in E.
        exists l. split; [reflexivity|].
        eapply Forall_impl; [exact E|].
        intros s Hs. unfold lacks_encrypted in Hs.
        now apply negb_false_iff in Hs.
      * intros (l' & Hl & E). apply map_Name_inj in Hl. subst l'.
        apply length_zero_nil, filter_nil_iff.
        eapply Forall_impl; [exact E|].
        intros s Hs. unfold lacks_encrypted. now rewrite Hs.
    + rewrite scan_other. cbn [error_evidence fst]. split; [discriminate|].
      intros (l & Hl & _). exfalso.
      clear -Hl. revert l Hl.
      induction pre as [|s pre IH]; intros [|s' l] Hl; try discriminate.
      cbn in Hl. injection Hl as _ Hl. eapply IH. exact Hl.
  - intros l. rewrite scan_names. cbn [app backup_verdict snd].
    now rewrite length_map.
  - intros pre raised post. now rewrite scan_other.
  - intros s. rewrite scan_names. cbn [app backup_verdict fst snd].
    rewrite filter_characters. split; [|reflexivity].
    destruct s; cbn; split; congruence.
  - intros items raised. destruct (scan items []) as [msg|un];
      cbn [error_evidence fst snd]; split; eauto.
  - reflexivity.
Qed.

Lemma backup_check_reads_names_only_witness :
  locations_of
    [("backup_locations", PyStrList ["s3://ENCRYPTED-a"; "s3://plain"])]
  = Sized [Name "s3://ENCRYPTED-a"; Name "s3://plain"] /\
  snd (check_data_backup_encryption (fun _ => "2024-01-01T00:00:00")
         (Sized [Name "s3://ENCRYPTED-a"; Name "s3://plain"]) 0)
  = [ ("total_backup_locations", PyInt 2);
      ("unencrypted_backups", PyStrList ["s3://plain"]);
      ("check_timestamp", PyStr "2024-01-01T00:00:00") ] /\
  check_data_backup_encryption (fun _ => "2024-01-01T00:00:00")
    (Sized [Name "s3://encrypted-a";
            Other "'int' object has no attribute 'lower'";
            Name "s3://plain"]) 0
  = (false, [("error", PyStr "'int' object has no attribute 'lower'")]).
Proof.
  destruct (backup_check_reads_names_only (fun _ => "2024-01-01T00:00:00") 0)
    as (_ & _ & Hnames & Hother & _).
  split; [reflexivity|]. split.
  - exact (Hnames ["s3://ENCRYPTED-a"; "s3://plain"]).
  - exact (Hother ["s3://encrypted-a"]
                  "'int' object has no attribute 'lower'"
                  [Name "s3://plain"]).
Defined.

(** ** The rule registry *)

Lemma find_rule_register_same rule rs :
  find_rule (rule_id rule) (register rule rs) = Some rule.
Proof.
  induction rs as [|r rs IH]; cbn [register find_rule].
  - now rewrite String.eqb_refl.
  - destruct (String.eqb (rule_id r) (rule_id rule)) eqn:E; cbn [find_rule].
    + now rewrite String.eqb_refl.
    + now rewrite E.
Qed.

Lemma find_rule_register_other rule id rs :
  id <> rule_id rule ->
  find_rule id (register rule rs) = find_rule id rs.
Proof.
  intro Hne. induction rs as [|r rs IH]; cbn [register find_rule].
  - destruct (String.eqb_spec (rule_id rule) id); congruence.
  - destruct (String.eqb_spec (rule_id r) (rule_id rule)) as [E|E];
      cbn [find_rule].
    + destruct (String.eqb_spec (rule_id rule) id); [congruence|].
      destruct (String.eqb_spec (rule_id r) id); congruence.
    + destruct (String.eqb_spec (rule_id r) id); congruence.
Qed.

Lemma register_known rule rs :
  find_rule (rule_id rule) rs = Some rule -> register rule rs = rs.
Proof.
  induction rs as [|r rs IH]; cbn [register find_rule]; [discriminate|].
  destruct (String.eqb (rule_id r) (rule_id rule)); intro H.
  - congruence.
  - now rewrite IH.
Qed.

Lemma register_all_known new_rules rs :
  (forall r, In r new_rules -> find_rule (rule_id r) rs = Some r) ->
  register_all new_rules rs = rs.
Proof.
  unfold register_all.
  induction new_rules as [|r l IH]; cbn [fold_left]; [reflexivity|].
  intro H. rewrite register_known by (apply H; now left).
  apply IH. intros r' Hr'. apply H. now right.
Qed.

Lemma register_all_keeps_found r l : forall rs,
  ~ In (rule_id r) (map rule_id l) ->
  find_rule (rule_id r) rs = Some r ->
  find_rule (rule_id r) (register_all l rs) = Some r.
Proof.
  unfold register_all.
  induction l as [|r1 l IH]; intros rs Hnot Hf; [exact Hf|].
  cbn [fold_left]. cbn [map] in Hnot.
  apply IH; [intro E; apply Hnot; now right|].
  rewrite find_rule_register_other; [exact Hf|].
  intro E. apply Hnot. now left.
Qed.

Lemma register_all_finds new_rules : forall rs,
  List.NoDup (map rule_id new_rules) ->
  forall r, In r new_rules ->
  find_rule (rule_id r) (register_all new_rules rs) = Some r.
Proof.
  induction new_rules as [|r0 l IH]; intros rs Hnd r Hin; [destruct Hin|].
  cbn [map] in Hnd. inversion Hnd as [|? ? Hnot Hnd']; subst.
  change (register_all (r0 :: l) rs) with (register_all l (register r0 rs)).
  destruct Hin as [->|Hin]; [|now apply IH].
  apply register_all_keeps_found; [exact Hnot|].
  apply find_rule_register_same.
Qed.

(** X23: loading the rules is idempotent. On an empty registry it leaves
    the five default rules in the order written; on any registry, loading
    a second time changes nothing. *)
Theorem loading_rules_twice_is_loading_once rs :
  _load_compliance_rules [] = default_rules /\
  _load_compliance_rules (_load_compliance_rules rs)
  = _load_compliance_rules rs.
Proof.
  split; [reflexivity|].
  unfold _load_compliance_rules at 1.
  apply register_all_known. intros r Hr.
  apply register_all_finds; [|exact Hr].
  repeat constructor; cbn; intuition discriminate.
Qed.


End ComplianceMore.

(** ** More of the security monitor *)

Module SecurityMore.
Import SecurityMonitor SecurityFacts.

(** *** Alerts *)

Lemma notifications_app l l' :
  notifications (l ++ l') = notifications l ++ notifications l'.
Proof. apply omap_app. Qed.

(** The mail step always returns, and a failure is left in the log. *)
Lemma send_email_alert_run env alert w :
  fst (_send_email_alert env alert w) = Ok tt /\
  notifications (trace (snd (_send_email_alert env alert w)))
  = notifications (trace w) ++ [SendEmailAlert alert] /\
  (forall e, outcome env (SendEmailAlert alert) w = Some e ->
     (Log "error" ("Failed to send email alert: " +:+ str_exn e), None)
     ∈ trace (snd (_send_email_alert env alert w))).
Proof.
  unfold _send_email_alert, external, log, bind, attempt, modify, ret.
  destruct (outcome env (SendEmailAlert alert) w) as [e|]; cbn;
    rewrite ?notifications_app; cbn; rewrite ?app_nil_r;
    (split; [reflexivity|]); (split; [reflexivity|]);
    intros e' He; [injection He as <-|discriminate].
  apply elem_of_app. right. apply list_elem_of_singleton. reflexivity.
Qed.

(** A transport that is not guarded: the call is on record, and what it
    raised is raised. *)
Lemma external_run env c w :
  fst (external env c w)
  = match outcome env c w with None => Ok tt | Some e => Raise e end /\
  trace (snd (external env c w))
  = trace w ++ [(c, outcome env c w)].
Proof. unfold external. now destruct (outcome env c w). Qed.

(** [_send_alert_notifications], step by step. *)
Lemma send_alert_notifications_run env alert w :
  _send_alert_notifications env alert w
  = let mailed := snd (_send_email_alert env alert w) in
    let chatted := snd (external env (SendSlackAlert alert) mailed) in
    if bool_decide (a_severity alert ∈ [HIGH; CRITICAL])
    then match outcome env (SendSlackAlert alert) mailed with
         | Some e => (Raise e, chatted)
         | None =>
             if bool_decide (a_severity alert = CRITICAL)
             then external env (SendSmsAlert alert) chatted
             else (Ok tt, chatted)
         end
    else if bool_decide (a_severity alert = CRITICAL)
         then external env (SendSmsAlert alert) mailed
         else (Ok tt, mailed).
Proof.
  pose proof (send_email_alert_run env alert w) as (Hok & _).
  unfold _send_alert_notifications, bind. cbv zeta.
  destruct (_send_email_alert env alert w) as [r w1].
  simpl in Hok. subst r. cbn [snd]. unfold external, ret.
  destruct (bool_decide (a_severity alert ∈ [HIGH; CRITICAL]));
    destruct (bool_decide (a_severity alert = CRITICAL));
    try reflexivity;
    destruct (outcome env (SendSlackAlert alert) w1); reflexivity.
Qed.

(** X15: an alert is routed by its severity, in the order mail, chat, SMS.
    Mail is tried for every alert, and a mail that fails is logged and
    holds nothing back. Chat is tried next for HIGH and CRITICAL, SMS last
    for CRITICAL, and neither failure is caught: a chat or SMS transport
    that raises ends the call with that exception, so for a CRITICAL alert
    whose chat raises the SMS is never tried. *)
Theorem alerts_are_routed_by_severity env alert w :
  let run := _send_alert_notifications env alert w in
  let mailed := snd (_send_email_alert env alert w) in
  let chatted := snd (external env (SendSlackAlert alert) mailed) in
  let answer (o : option exn) : Res unit :=
    match o with None => Ok tt | Some e => Raise e end in
  (forall e, outcome env (SendEmailAlert alert) w = Some e ->
     (Log "error" ("Failed to send email alert: " +:+ str_exn e), None)
     ∈ trace (snd run)) /\
  (a_severity alert ∈ [LOW; MEDIUM] ->
   fst run = Ok tt /\
   notifications (trace (snd run))
   = notifications (trace w) ++ [SendEmailAlert alert]) /\
  (a_severity alert = HIGH ->
   fst run = answer (outcome env (SendSlackAlert alert) mailed) /\
   notifications (trace (snd run))
   = notifications (trace w)
     ++ [SendEmailAlert alert; SendSlackAlert alert]) /\
  (a_severity alert = CRITICAL ->
   forall e, outcome env (SendSlackAlert alert) mailed = Some e ->
   fst run = Raise e /\
   notifications (trace (snd run))
   = notifications (trace w)
     ++ [SendEmailAlert alert; SendSlackAlert alert]) /\
  (a_severity alert = CRITICAL ->
   outcome env (SendSlackAlert alert) mailed = None ->
   fst run = answer (outcome env (SendSmsAlert alert) chatted) /\
   notifications (trace (snd run))
   = notifications (trace w)
     ++ [SendEmailAlert alert; SendSlackAlert alert; SendSmsAlert alert]).
Proof.
  intros run mailed chatted answer.
  destruct (send_email_alert_run env alert w) as (Hok & Hmail & Hlog).
  fold mailed in Hmail, Hlog.
  destruct (external_run env (SendSlackAlert alert) mailed) as [Hc1 Hc2].
  fold chatted in Hc2.
  destruct (external_run env (SendSmsAlert alert) chatted) as [Hs1 Hs2].
  assert (Hrun := send_alert_notifications_run env alert w).
  cbv zeta in Hrun. fold mailed in Hrun. fold chatted in Hrun.
  fold run in Hrun.
  assert (Hkeep : forall (x : Call * option exn) l l', x ∈ l -> x ∈ l ++ l')
    by (intros; apply elem_of_app; now left).
  assert (Hchat : notifications (trace chatted)
                  = notifications (trace w)
                    ++ [SendEmailAlert alert; SendSlackAlert alert]).
  { rewrite Hc2, notifications_app, Hmail, <- app_assoc. reflexivity. }
  split; [|split; [|split; [|split]]].
  - intros e He. specialize (Hlog e He). rewrite Hrun.
    repeat match goal with
           | |- context [if ?b then _ else _] => destruct b
           | |- context [match outcome env ?c ?s with _ => _ end] =>
               destruct (outcome env c s)
           end; cbn [snd]; rewrite ?Hs2, ?Hc2; auto.
    + destruct (external_run env (SendSmsAlert alert) mailed) as [_ ->].
      auto.
  - intros Hsev. rewrite Hrun.
    assert ((a_severity alert ∉ [HIGH; CRITICAL]) /\ a_severity alert <> CRITICAL)
      as [H1 H2].
    { apply elem_of_cons in Hsev. destruct Hsev as [->|Hsev];
        [|apply list_elem_of_singleton in Hsev; rewrite Hsev];
        (split; [|discriminate]); intros Hin;
        repeat (apply elem_of_cons in Hin; destruct Hin as [Hin|Hin];
                [discriminate|]); now apply elem_of_nil in Hin. }
    rewrite bool_decide_eq_false_2, bool_decide_eq_false_2 by assumption.
    cbn [fst snd]. auto.
  - intros Hsev. rewrite Hrun, Hsev.
    change (bool_decide (HIGH ∈ [HIGH; CRITICAL])) with true.
    change (bool_decide (HIGH = CRITICAL)) with false. cbv iota.
    unfold answer.
    destruct (outcome env (SendSlackAlert alert) mailed); cbn [fst snd]; auto.
  - intros Hsev e He. rewrite Hrun, Hsev, He.
    change (bool_decide (CRITICAL ∈ [HIGH; CRITICAL])) with true. cbv iota.
    cbn [fst snd]. auto.
  - intros Hsev He. rewrite Hrun, Hsev, He.
    change (bool_decide (CRITICAL ∈ [HIGH; CRITICAL])) with true.
    change (bool_decide (CRITICAL = CRITICAL)) with true. cbv iota.
    split; [exact Hs1|].
    rewrite Hs2, notifications_app, Hchat, <- app_assoc. reflexivity.
Qed.

Lemma alerts_are_routed_by_severity_witness :
  (fst (_send_alert_notifications MoreSecuritySamples.slack_down_env
          (mkSecurityAlert "alt_0" "t" "d" CRITICAL ["evt_1"] 0 false
                           None None false None None)
          (SecuritySamples.fresh_monitor 0))
   = Raise (PyError "ConnectionError" "webhook unreachable") /\
   notifications
     (trace (snd (_send_alert_notifications MoreSecuritySamples.slack_down_env
                    (mkSecurityAlert "alt_0" "t" "d" CRITICAL ["evt_1"] 0
                                     false None None false None None)
                    (SecuritySamples.fresh_monitor 0))))
   = [SendEmailAlert (mkSecurityAlert "alt_0" "t" "d" CRITICAL ["evt_1"] 0
                                      false None None false None None);
      SendSlackAlert (mkSecurityAlert "alt_0" "t" "d" CRITICAL ["evt_1"] 0
                                      false None None false None None)]) /\
  (fst (_send_alert_notifications SecuritySamples.calm_env
          (mkSecurityAlert "alt_0" "t" "d" CRITICAL ["evt_1"] 0 false
                           None None false None None)
          (SecuritySamples.fresh_monitor 0)) = Ok tt /\
   notifications
     (trace (snd (_send_alert_notifications SecuritySamples.calm_env
                    (mkSecurityAlert "alt_0" "t" "d" CRITICAL ["evt_1"] 0
                                     false None None false None None)
                    (SecuritySamples.fresh_monitor 0))))
   = [SendEmailAlert (mkSecurityAlert "alt_0" "t" "d" CRITICAL ["evt_1"] 0
                                      false None None false None None);
      SendSlackAlert (mkSecurityAlert "alt_0" "t" "d" CRITICAL ["evt_1"] 0
                                      false None None false None None);
      SendSmsAlert (mkSecurityAlert "alt_0" "t" "d" CRITICAL ["evt_1"] 0
                                    false None None false None None)]).
Proof.
  split.
  - destruct (alerts_are_routed_by_severity MoreSecuritySamples.slack_down_env
                (mkSecurityAlert "alt_0" "t" "d" CRITICAL ["evt_1"] 0 false
                                 None None false None None)
                (SecuritySamples.fresh_monitor 0))
      as (_ & _ & _ & Hchat & _).
    exact (Hchat eq_refl (PyError "ConnectionError" "webhook unreachable")
                 eq_refl).
  - destruct (alerts_are_routed_by_severity SecuritySamples.calm_env
                (mkSecurityAlert "alt_0" "t" "d" CRITICAL ["evt_1"] 0 false
                                 None None false None None)
                (SecuritySamples.fresh_monitor 0))
      as (_ & _ & _ & _ & Hsms).
    exact (Hsms eq_refl eq_refl).
Defined.

(** The alert a call of [_create_alert] builds. *)
Lemma create_alert_store_raises env ttl desc sev ids w e :
  match alert_suppression w !! alert_key_of env ttl desc with
  | Some last => suppression_window <= now w - last
  | None => True
  end ->
  outcome env
    (StoreAlert (mkSecurityAlert (fresh_alert_id env w) ttl desc sev ids
                                 (now w) false None None false None None)) w
  = Some e ->
  _create_alert env ttl desc sev ids w
  = (Raise e,
     after_call env
       (StoreAlert (mkSecurityAlert (fresh_alert_id env w) ttl desc sev ids
                                    (now w) false None None false None None))
       (Some e) w).
Proof.
  intros Hfree Hstore.
  unfold _create_alert, utcnow, external.
  unfold bind, gets, ret.
  assert (Hcheck :
            match alert_suppression w !! alert_key_of env ttl desc with
            | Some last => bool_decide (now w - last < suppression_window)
            | None => false
            end = false).
  { destruct (alert_suppression w !! _); [|reflexivity].
    apply bool_decide_eq_false_2. lia. }
  destruct (alert_suppression w !! alert_key_of env ttl desc);
    cbv beta iota; rewrite ?Hcheck; cbv beta iota; rewrite Hstore;
    reflexivity.
Qed.

(** X16: when the store refuses an alert, [_create_alert] raises what the
    store raised and does nothing more: no notification is sent and the
    suppression table is left as it was, so the next identical call tries
    again. *)
Theorem refused_alert_is_not_announced env ttl desc sev ids w e :
  match alert_suppression w !! alert_key_of env ttl desc with
  | Some last => suppression_window <= now w - last
  | None => True
  end ->
  outcome env
    (StoreAlert (mkSecurityAlert (fresh_alert_id env w) ttl desc sev ids
                                 (now w) false None None false None None)) w
  = Some e ->
  fst (_create_alert env ttl desc sev ids w) = Raise e /\
  persisted_alerts (trace (snd (_create_alert env ttl desc sev ids w)))
  = persisted_alerts (trace w) /\
  notifications (trace (snd (_create_alert env ttl desc sev ids w)))
  = notifications (trace w) /\
  alert_suppression (snd (_create_alert env ttl desc sev ids w))
  = alert_suppression w.
Proof.
  intros Hfree Hstore.
  rewrite (create_alert_store_raises _ _ _ _ _ _ _ Hfree Hstore). simpl.
  rewrite persisted_alerts_app, notifications_app. simpl.
  now rewrite !app_nil_r.
Qed.

Lemma refused_alert_is_not_announced_witness :
  fst (_create_alert MoreSecuritySamples.store_down_env
         SecuritySamples.brute_force_title
         SecuritySamples.brute_force_description HIGH ["evt_1"]
         (SecuritySamples.fresh_monitor 0))
  = Raise (PyError "OperationalError" "connection refused") /\
  notifications
    (trace (snd (_create_alert MoreSecuritySamples.store_down_env
                   SecuritySamples.brute_force_title
                   SecuritySamples.brute_force_description HIGH ["evt_1"]
                   (SecuritySamples.fresh_monitor 0)))) = [].
Proof.
  destruct (refused_alert_is_not_announced MoreSecuritySamples.store_down_env
              SecuritySamples.brute_force_title
              SecuritySamples.brute_force_description HIGH ["evt_1"]
              (SecuritySamples.fresh_monitor 0)
              (PyError "OperationalError" "connection refused"))
    as (Hr & _ & Hn & _).
  - cbn. rewrite lookup_empty. exact I.
  - reflexivity.
  - split; [exact Hr | exact Hn].
Defined.

(** One call of [_create_alert] for a HIGH or CRITICAL alert when the store
    takes the alert and the chat transport raises. *)
Lemma create_alert_chat_raises env ttl desc sev ids w e :
  (forall a s, outcome env (StoreAlert a) s = None) ->
  (forall a s, outcome env (SendSlackAlert a) s = Some e) ->
  sev ∈ [HIGH; CRITICAL] ->
  alert_suppression w !! alert_key_of env ttl desc = None ->
  fst (_create_alert env ttl desc sev ids w) = Raise e /\
  persisted_alerts (trace (snd (_create_alert env ttl desc sev ids w)))
  = persisted_alerts (trace w)
    ++ [mkSecurityAlert (fresh_alert_id env w) ttl desc sev ids (now w)
                        false None None false None None] /\
  alert_suppression (snd (_create_alert env ttl desc sev ids w))
  = alert_suppression w.
Proof.
  intros Hstore Hslack Hsev Hkey.
  unfold _create_alert, _send_alert_notifications, _send_email_alert,
    utcnow, external, log.
  unfold bind, attempt, gets, modify, ret.
  rewrite Hkey. cbv beta iota. rewrite Hstore. cbv beta iota.
  rewrite (bool_decide_eq_true_2 _ Hsev).
  destruct (outcome env (SendEmailAlert _) _); cbv beta iota;
    rewrite Hslack; simpl;
    rewrite !persisted_alerts_app; simpl; rewrite ?app_nil_r;
    repeat split; reflexivity.
Qed.

(** X17: the suppression time is written only at the very end of
    [_create_alert]. When the chat transport raises for a HIGH or CRITICAL
    alert, the alert is already stored but no suppression is recorded: the
    call raises, and an identical call at any later time stores the alert a
    second time. *)
Theorem chat_failure_defeats_suppression env ttl desc sev ids w e dt :
  (forall a s, outcome env (StoreAlert a) s = None) ->
  (forall a s, outcome env (SendSlackAlert a) s = Some e) ->
  sev ∈ [HIGH; CRITICAL] ->
  alert_suppression w !! alert_key_of env ttl desc = None ->
  fst (_create_alert env ttl desc sev ids w) = Raise e /\
  fst (_create_alert env ttl desc sev ids
         (later dt (snd (_create_alert env ttl desc sev ids w)))) = Raise e /\
  length (persisted_alerts
            (trace (snd (_create_alert env ttl desc sev ids
                           (later dt
                              (snd (_create_alert env ttl desc sev ids w)))))))
  = S (S (length (persisted_alerts (trace w)))).
Proof.
  intros Hstore Hslack Hsev Hkey.
  destruct (create_alert_chat_raises env ttl desc sev ids w e
              Hstore Hslack Hsev Hkey) as (Hr1 & Hp1 & Hs1).
  set (w1 := snd (_create_alert env ttl desc sev ids w)) in *.
  destruct (create_alert_chat_raises env ttl desc sev ids (later dt w1) e
              Hstore Hslack Hsev) as (Hr2 & Hp2 & _).
  { cbn [alert_suppression later]. now rewrite Hs1. }
  split; [exact Hr1|]. split; [exact Hr2|].
  rewrite Hp2. cbn [trace later]. rewrite Hp1, !length_app. simpl. lia.
Qed.

Lemma chat_failure_defeats_suppression_witness :
  length (persisted_alerts
            (trace (snd (_create_alert MoreSecuritySamples.slack_down_env
                           SecuritySamples.brute_force_title
                           SecuritySamples.brute_force_description HIGH
                           ["evt_1"]
                           (later second_us
                              (snd (_create_alert
                                      MoreSecuritySamples.slack_down_env
                                      SecuritySamples.brute_force_title
                                      SecuritySamples.brute_force_description
                                      HIGH ["evt_1"]
                                      (SecuritySamples.fresh_monitor 0))))))))
  = 2%nat.
Proof.
  destruct (chat_failure_defeats_suppression
              MoreSecuritySamples.slack_down_env
              SecuritySamples.brute_force_title
              SecuritySamples.brute_force_description HIGH ["evt_1"]
              (SecuritySamples.fresh_monitor 0)
              (PyError "ConnectionError" "webhook unreachable") second_us)
    as (_ & _ & H);
    [reflexivity | reflexivity | apply list_elem_of_here | reflexivity
    | exact H].
Defined.

(** X18: the suppression key is taken from the text "title:description", so
    two alerts whose titles and descriptions differ but join to the same
    text suppress each other: after the first is created, the second within
    the window is dropped. *)
Theorem joined_text_decides_suppression env t1 d1 t2 d2 sev1 ids1 w w1 :
  t1 +:+ ":" +:+ d1 = t2 +:+ ":" +:+ d2 ->
  (forall c s, 0 <= elapsed env c s) ->
  match alert_suppression w !! alert_key_of env t1 d1 with
  | Some last => suppression_window <= now w - last
  | None => True
  end ->
  _create_alert env t1 d1 sev1 ids1 w = (Ok tt, w1) ->
  forall dt sev2 ids2,
    now w1 + dt - now w < suppression_window ->
    _create_alert env t2 d2 sev2 ids2 (later dt w1) = (Ok tt, later dt w1).
Proof.
  intros Hjoin Hel Hfree Hrun dt sev2 ids2 Hwin.
  destruct (create_alert_creates _ _ _ _ _ _ _ Hel Hfree Hrun)
    as (_ & Hs & Ht).
  apply create_alert_suppressed with (last := now w1).
  - cbn [alert_suppression later]. rewrite Hs.
    unfold alert_key_of. rewrite Hjoin. apply lookup_insert_eq.
  - cbn [now later]. lia.
Qed.

Lemma joined_text_decides_suppression_witness :
  _create_alert SecuritySamples.calm_env "Disk" "full:/dev/sda" LOW ["evt_2"]
    (later minute_us
       (snd (_create_alert SecuritySamples.calm_env "Disk:full" "/dev/sda"
               CRITICAL ["evt_1"] (SecuritySamples.fresh_monitor 0))))
  = (Ok tt,
     later minute_us
       (snd (_create_alert SecuritySamples.calm_env "Disk:full" "/dev/sda"
               CRITICAL ["evt_1"] (SecuritySamples.fresh_monitor 0)))).
Proof.
  apply (joined_text_decides_suppression SecuritySamples.calm_env
           "Disk:full" "/dev/sda" "Disk" "full:/dev/sda" CRITICAL ["evt_1"]
           (SecuritySamples.fresh_monitor 0)).
  - reflexivity.
  - intros c s. vm_compute. discriminate.
  - cbn. rewrite lookup_empty. exact I.
  - reflexivity.
  - vm_compute. reflexivity.
Defined.

(** *** Event analysis *)

Import SecurityAnalysis.

(** X19: one brute-force alert per address and window. When a failed login
    brings the count for its address to five or more and the alert is
    created, the alert names that event alone; every later failed login
    from the same address whose check reaches the dispatcher less than 15
    minutes after the first check ended stores no alert and sends no
    notification, however high the count has grown. *)
Theorem one_brute_force_alert_per_window world ev1 s s1 n :
  (forall c m, 0 <= elapsed (base world) c m) ->
  alert_suppression (monitor s)
  !! alert_key_of (base world) brute_force_alert_title
       (brute_force_alert_description (source_ip ev1)) = None ->
  count_recent_events world (source_ip ev1) LOGIN_FAILURE (15 * minute_us) s
  = Ok n ->
  5 <= n ->
  _check_brute_force_attack world ev1 s = (Ok tt, s1) ->
  (exists alert,
      persisted_alerts (trace (monitor s1))
      = persisted_alerts (trace (monitor s)) ++ [alert] /\
      title alert = brute_force_alert_title /\ a_severity alert = HIGH /\
      event_ids alert = [event_id ev1]) /\
  forall ev2 dt,
    source_ip ev2 = source_ip ev1 ->
    dt + query_elapsed world
           (CountRecentEvents (source_ip ev1) LOGIN_FAILURE (15 * minute_us))
           (wait dt s1) < suppression_window ->
    persisted_alerts
      (trace (monitor (snd (_check_brute_force_attack world ev2 (wait dt s1)))))
    = persisted_alerts (trace (monitor s1)) /\
    notifications
      (trace (monitor (snd (_check_brute_force_attack world ev2 (wait dt s1)))))
    = notifications (trace (monitor s1)).
Proof.
  intros Hel Hkey Hcount Hn Hrun.
  unfold _check_brute_force_attack, bind, query_result in Hrun.
  rewrite Hcount in Hrun. rewrite bool_decide_eq_true_2 in Hrun by exact Hn.
  unfold lift in Hrun. cbn [monitor after_query queries] in Hrun.
  destruct (_create_alert (base world) brute_force_alert_title
              (brute_force_alert_description (source_ip ev1)) HIGH [event_id ev1]
              (later (query_elapsed world
                        (CountRecentEvents (source_ip ev1) LOGIN_FAILURE
                                           (15 * minute_us)) s)
                     (monitor s)))
    as [r w1] eqn:Ecreate.
  injection Hrun as -> <-. cbn [monitor].
  destruct (create_alert_creates (base world) brute_force_alert_title
              (brute_force_alert_description (source_ip ev1)) HIGH [event_id ev1]
              (later (query_elapsed world
                        (CountRecentEvents (source_ip ev1) LOGIN_FAILURE
                                           (15 * minute_us)) s)
                     (monitor s))
              w1 Hel) as (Hp & Hs & _);
    [cbn [alert_suppression later]; rewrite Hkey; exact I | exact Ecreate|].
  cbn [trace later alert_suppression] in Hp, Hs.
  split.
  { eexists. split; [exact Hp|]. repeat split. }
  intros ev2 dt Hip Hsoon.
  unfold _check_brute_force_attack, bind, query_result. rewrite Hip.
  cbn [wait monitor queries] in Hsoon |- *.
  match goal with
  | |- context [count_recent_events world ?ip ?ty ?win ?st] =>
      destruct (count_recent_events world ip ty win st) as [n2|ex]
  end; cbn [fst snd monitor after_query trace later]; [|auto].
  destruct (bool_decide (5 <= n2)); [|cbn [snd monitor trace later]; auto].
  unfold lift. cbn [monitor queries].
  rewrite (create_alert_suppressed (base world) brute_force_alert_title
             (brute_force_alert_description (source_ip ev1)) HIGH [event_id ev2]
             _ (now w1)).
  - cbn [snd monitor trace later]. auto.
  - cbn [alert_suppression later monitor after_query wait].
    rewrite Hs. apply lookup_insert_eq.
  - cbn [now later monitor after_query wait]. lia.
Qed.

Lemma one_brute_force_alert_per_window_witness :
  length (persisted_alerts
            (trace (monitor
                      (snd (_check_brute_force_attack
                              MoreSecuritySamples.busy_world
                              (SecuritySamples.event_at LOGIN_FAILURE 0)
                              MoreSecuritySamples.fresh_session))))) = 1%nat /\
  length (persisted_alerts
            (trace (monitor
                      (snd (_check_brute_force_attack
                              MoreSecuritySamples.busy_world
                              (SecuritySamples.event_at LOGIN_FAILURE minute_us)
                              (wait minute_us
                                 (snd (_check_brute_force_attack
                                         MoreSecuritySamples.busy_world
                                         (SecuritySamples.event_at
                                            LOGIN_FAILURE 0)
                                         MoreSecuritySamples.fresh_session))))))))
  = 1%nat.
Proof.
  destruct (one_brute_force_alert_per_window MoreSecuritySamples.busy_world
              (SecuritySamples.event_at LOGIN_FAILURE 0)
              MoreSecuritySamples.fresh_session
              (snd (_check_brute_force_attack MoreSecuritySamples.busy_world
                      (SecuritySamples.event_at LOGIN_FAILURE 0)
                      MoreSecuritySamples.fresh_session))
              7)
    as [(alert & Hp & _) Hlater].
  - intros c m. vm_compute. discriminate.
  - reflexivity.
  - reflexivity.
  - lia.
  - reflexivity.
  - split; [rewrite Hp; reflexivity|].
    destruct (Hlater (SecuritySamples.event_at LOGIN_FAILURE minute_us)
                minute_us eq_refl) as [Hp2 _].
    + vm_compute. reflexivity.
    + rewrite Hp2, Hp. reflexivity.
Defined.

Lemma stored_events_app l l' :
  stored_events (l ++ l') = stored_events l ++ stored_events l'.
Proof. apply omap_app. Qed.

Section SessionKeeps.
Context {B : Type} (f : Session -> B).

Lemma skeeps_ret {A} (a : A) : keeps f (ret a).
Proof. intros s. reflexivity. Qed.

Lemma skeeps_bind {A C} (m : SM A) (k : A -> SM C) :
  keeps f m -> (forall a, keeps f (k a)) -> keeps f (bind m k).
Proof.
  intros Hm Hk s. unfold bind. specialize (Hm s).
  destruct (m s) as [[a|e] s1]; simpl in *; [|assumption].
  now rewrite Hk.
Qed.

Lemma skeeps_if {A} (b : bool) (m m' : SM A) :
  keeps f m -> keeps f m' -> keeps f (if b then m else m').
Proof. now destruct b. Qed.

End SessionKeeps.

(** What is handed to [_store_event] depends on the queries alone, and of
    those on the [StoreEvent] ones. *)
Lemma lift_keeps_stored {A} (m : MM A) :
  keeps (fun s => stored_events (queries s)) (lift m).
Proof. intros s. unfold lift. now destruct (m (monitor s)). Qed.

Lemma query_keeps_stored world q :
  (forall e, q <> StoreEvent e) ->
  keeps (fun s => stored_events (queries s)) (query world q).
Proof.
  intros Hq s. unfold query.
  destruct (query_outcome world q s); simpl; rewrite stored_events_app;
    destruct q; simpl; rewrite ?app_nil_r; try reflexivity;
    exfalso; eapply Hq; reflexivity.
Qed.

Lemma query_result_keeps_stored {A} world q (answer : Session -> Res A) :
  (forall e, q <> StoreEvent e) ->
  keeps (fun s => stored_events (queries s)) (query_result world q answer).
Proof.
  intros Hq s. unfold query_result.
  destruct (answer s); simpl; rewrite stored_events_app;
    destruct q; simpl; rewrite ?app_nil_r; try reflexivity;
    exfalso; eapply Hq; reflexivity.
Qed.

Ltac stored :=
  repeat first
    [ apply skeeps_ret | apply lift_keeps_stored
    | apply query_keeps_stored; intros ?; discriminate
    | apply query_result_keeps_stored; intros ?; discriminate
    | apply skeeps_if
    | apply skeeps_bind; [|intros]
    | match goal with
      | |- keeps _ (match ?x with _ => _ end) => destruct x
      end ].

Lemma cache_event_keeps_stored world event :
  keeps (fun s => stored_events (queries s)) (_cache_event world event).
Proof. unfold _cache_event. stored. Qed.

Lemma analyze_event_keeps_stored world event :
  keeps (fun s => stored_events (queries s)) (_analyze_event world event).
Proof.
  unfold _analyze_event, _check_suspicious_patterns,
    _check_brute_force_attack, _check_unusual_data_access.
  stored.
Qed.

Lemma detect_anomalies_keeps_stored world event :
  keeps (fun s => stored_events (queries s)) (_detect_anomalies world event).
Proof. unfold _detect_anomalies, _detect_time_anomalies. stored. Qed.

(** The event [_analyze_event] returns is the one it was given, with the
    score just computed. *)
Lemma analyze_event_scores world event s analyzed s' :
  _analyze_event world event s = (Ok analyzed, s') ->
  exists score,
    fst (_calculate_risk_score (base world) event (monitor s)) = Ok score /\
    analyzed = with_risk_score score event.
Proof.
  unfold _analyze_event. unfold bind at 1, lift at 1.
  destruct (_calculate_risk_score (base world) event (monitor s))
    as [[score|e] w1]; [|discriminate].
  intros H. exists score. split; [reflexivity|].
  unfold bind in H.
  match type of H with
  | context [if ?b then ?m else ?m'] =>
      destruct ((if b then m else m') (mkSession w1 (queries s)))
        as [[[]|e] s1]; [|discriminate]
  end.
  destruct (_check_suspicious_patterns world _ s1) as [[[]|e] s2];
    [|discriminate].
  unfold ret in H. now injection H as <- _.
Qed.

(** X20: [log_security_event] stores the event before it scores it. When it
    returns, the one row handed to the store is the event as the caller
    passed it, with the score it arrived with, and the caller's event has
    been given the score [_calculate_risk_score] computed for it once the
    store and the cache calls were over. When the store raises, nothing
    else is done: the event is neither cached nor analysed, and the
    exception is logged and raised again. *)
Theorem event_is_stored_before_it_is_scored world event s :
  (forall analyzed s',
      log_security_event world event s = (Ok analyzed, s') ->
      stored_events (queries s') = stored_events (queries s) ++ [event] /\
      exists score,
        analyzed = with_risk_score score event /\
        fst (_calculate_risk_score (base world) event
               (monitor
                  (snd (_cache_event world event
                          (after_query world (StoreEvent event) None s)))))
        = Ok score) /\
  (forall e,
      query_outcome world (StoreEvent event) s = Some e ->
      fst (log_security_event world event s) = Raise e /\
      queries (snd (log_security_event world event s))
      = queries s ++ [(StoreEvent event, Some e)] /\
      trace (monitor (snd (log_security_event world event s)))
      = trace (monitor s)
        ++ [(Log "error" ("Failed to log security event: " +:+ str_exn e),
             None)]).
Proof.
  split.
  - intros analyzed s' Hrun.
    unfold log_security_event in Hrun.
    unfold bind at 1, attempt at 1 in Hrun.
    unfold bind at 1, _store_event, query at 1 in Hrun.
    destruct (query_outcome world (StoreEvent event) s) as [e|] eqn:Es.
    { unfold bind, lift, log, modify, raise in Hrun. simpl in Hrun.
      discriminate. }
    set (s0 := after_query world (StoreEvent event) None s) in *.
    assert (H0 : stored_events (queries s0)
                 = stored_events (queries s) ++ [event]).
    { unfold s0. simpl. now rewrite stored_events_app. }
    unfold bind at 1 in Hrun.
    pose proof (cache_event_keeps_stored world event s0) as Hc.
    destruct (_cache_event world event s0) as [[[]|e] s1]; simpl in Hc;
      [|unfold bind, lift, log, modify, raise in Hrun; simpl in Hrun;
        discriminate].
    unfold bind at 1 in Hrun.
    pose proof (analyze_event_keeps_stored world event s1) as Ha.
    destruct (_analyze_event world event s1) as [[an|e] s2] eqn:Ean;
      simpl in Ha;
      [|unfold bind, lift, log, modify, raise in Hrun; simpl in Hrun;
        discriminate].
    destruct (analyze_event_scores _ _ _ _ _ Ean) as (score & Hscore & ->).
    unfold bind at 1 in Hrun.
    pose proof (detect_anomalies_keeps_stored world
                  (with_risk_score score event) s2) as Hd.
    destruct (_detect_anomalies world _ s2) as [[[]|e] s3]; simpl in Hd;
      [|unfold bind, lift, log, modify, raise in Hrun; simpl in Hrun;
        discriminate].
    unfold bind, lift, log, modify, ret in Hrun. simpl in Hrun.
    injection Hrun as <- <-. simpl. split.
    + now rewrite Hd, Ha, Hc.
    + exists score. split; [reflexivity|]. exact Hscore.
  - intros e Hstore.
    unfold log_security_event, bind, attempt, _store_event, query.
    rewrite Hstore. unfold lift, log, modify, raise. simpl.
    repeat split.
Qed.

Lemma event_is_stored_before_it_is_scored_witness :
  (exists analyzed s',
      log_security_event MoreSecuritySamples.busy_world
        (SecuritySamples.event_at DATA_ACCESS SecuritySamples.three_am)
        MoreSecuritySamples.fresh_session = (Ok analyzed, s') /\
      map risk_score (stored_events (queries s')) = [0%Q] /\
      (risk_score analyzed == 5 # 10)%Q) /\
  fst (log_security_event MoreSecuritySamples.no_database_world
         (SecuritySamples.event_at DATA_ACCESS SecuritySamples.three_am)
         MoreSecuritySamples.fresh_session)
  = Raise (PyError "OperationalError" "connection refused").
Proof.
  destruct (event_is_stored_before_it_is_scored
              MoreSecuritySamples.busy_world
              (SecuritySamples.event_at DATA_ACCESS SecuritySamples.three_am)
              MoreSecuritySamples.fresh_session) as [Hok _].
  destruct (event_is_stored_before_it_is_scored
              MoreSecuritySamples.no_database_world
              (SecuritySamples.event_at DATA_ACCESS SecuritySamples.three_am)
              MoreSecuritySamples.fresh_session) as [_ Hbad].
  split.
  - destruct (log_security_event MoreSecuritySamples.busy_world
                (SecuritySamples.event_at DATA_ACCESS SecuritySamples.three_am)
                MoreSecuritySamples.fresh_session)
      as [[analyzed|e] s'] eqn:E; [|vm_compute in E; discriminate].
    exists analyzed, s'. split; [reflexivity|].
    destruct (Hok _ _ eq_refl) as (Hs & _).
    split; [rewrite Hs; reflexivity|].
    vm_compute in E. injection E as <- _. reflexivity.
  - destruct (Hbad (PyError "OperationalError" "connection refused") eq_refl)
      as (Hr & _).
    exact Hr.
Defined.

End SecurityMore.
